(** * HalfSize: a shallow embedding of [halfsize.cpp]

    The program reads an uncompressed TGA file, halves its width and height
    with a 2x2 box filter and writes the result.  This development embeds
    the conversion pipeline of [halfsize.cpp] (header inspection, row
    input/output, the row reducer, the dispatch on pixel depth and the
    trailer copy) and proves properties of it.

    Conventions of the embedding:
    - a [Byte] (std::uint8_t) held in a file or a pixel is a [byte] of the
      Standard Library; a [Word] (std::uint16_t) and the header fields are
      [Z], and every narrowing store is written out as a [mod];
    - a [std::vector] or [std::array] is a [list], read with stdpp's lookup
      and written in place with stdpp's insert; an access out of range is
      the defect [OutOfBounds];
    - [std::exit] is the outcome [Exit], a failed [assert] the outcome
      [Crash AssertionFailed];
    - the two [FILE *] streams are threaded explicitly through the code:
      the input as the bytes not read yet and its end-of-file indicator,
      the output as the bytes written and the room left on the device.

    The helper [skip], which the program never calls, and the opening of
    the files by name in [main] are left out. *)

From Stdlib Require Import ZArith Lia List Bool.
From Stdlib Require Import Init.Byte Strings.Byte.
From Stdlib Require String.
From stdpp Require Import base list.

Local Open Scope Z_scope.

(* ===================================================================== *)
(** ** Basic types *)

(** [Byte] values as integers: [toZ] is the integral promotion of a
    [std::uint8_t], [ofZ] the narrowing conversion to it. *)
Module ByteZ.

Definition toZ (b : byte) : Z := Z.of_N (Byte.to_N b).

Definition ofZ (z : Z) : byte :=
  match Byte.of_N (Z.to_N (z mod 256)) with
  | Some b => b
  | None => x00
  end.

End ByteZ.

(** Narrowing conversion to [Word] (std::uint16_t). *)
Definition toWord (z : Z) : Z := z mod 65536.

(* ===================================================================== *)
(** ** Error handling *)

Inductive ExitStatus : Set :=
  | ok
  | reserved1
  | reserved2
  | badArgs
  | badInputFile
  | badOutputFile
  | badInputFormat
  | unsupportedInputFormat.

(** [static_cast<int>(exitStatus)]. *)
Definition exitCode (e : ExitStatus) : Z :=
  match e with
  | ok => 0
  | reserved1 => 1
  | reserved2 => 2
  | badArgs => 3
  | badInputFile => 4
  | badOutputFile => 5
  | badInputFormat => 6
  | unsupportedInputFormat => 7
  end.

(** [errorMessages[static_cast<int>(exitStatus)]] is null or a message. *)
Definition hasErrorMessage (e : ExitStatus) : bool :=
  match e with
  | ok | reserved1 | reserved2 => false
  | _ => true
  end.

(** What stops a run that is neither a return nor an exit. *)
Inductive Defect : Set :=
  | AssertionFailed
  | OutOfBounds
  | OutOfFuel.

Inductive result (A : Type) : Type :=
  | Ok (a : A)
  | Exit (e : ExitStatus)
  | Crash (d : Defect).

Arguments Ok {A} a.
Arguments Exit {A} e.
Arguments Crash {A} d.

Definition rbind {A B : Type} (m : result A) (k : A -> result B) : result B :=
  match m with
  | Ok a => k a
  | Exit e => Exit e
  | Crash d => Crash d
  end.

Declare Scope result_scope.
Delimit Scope result_scope with result.
Notation "x <- m ;; k" := (rbind m (fun x => k))
  (at level 20, m at level 99, k at level 200, only parsing) : result_scope.
Notation "m ;; k" := (rbind m (fun _ => k))
  (at level 100, k at level 200, right associativity, only parsing)
  : result_scope.
Local Open Scope result_scope.

(** [assert(condition)] *)
Definition assert (condition : bool) : result unit :=
  if condition then Ok tt else Crash AssertionFailed.

(** A lookup that is undefined behaviour out of range. *)
Definition at_index {A : Type} (l : list A) (i : nat) : result A :=
  match l !! i with
  | Some x => Ok x
  | None => Crash OutOfBounds
  end.

(** terminate program with given exit status *)
Definition fail {A : Type} (exitStatus : ExitStatus) : result A :=
  assert (negb (match exitStatus with ok => true | _ => false end)) ;;
  assert (hasErrorMessage exitStatus) ;;
  Exit exitStatus.

(** fail iff condition is not satisfied *)
Definition enforce (condition : bool) (exitStatus : ExitStatus) : result unit :=
  if condition then Ok tt else fail exitStatus.

Notation "' pat <- m ;; k" := (rbind m (fun x => match x with pat => k end))
  (at level 20, pat pattern, m at level 99, k at level 200, only parsing)
  : result_scope.

(** A store through an index or iterator; undefined out of range. *)
Definition set_index {A : Type} (l : list A) (i : nat) (x : A)
    : result (list A) :=
  if (i <? length l)%nat then Ok (<[i := x]> l) else Crash OutOfBounds.

(** [for (auto i = start; i != start + count; ++i) body(i)] over a state. *)
Fixpoint for_range {S : Type} (count start : nat)
    (body : nat -> S -> result S) (s : S) : result S :=
  match count with
  | O => Ok s
  | Datatypes.S count' =>
      s' <- body start s ;;
      for_range count' (Datatypes.S start) body s'
  end.

(* ===================================================================== *)
(** ** Pixels, accumulators and rows *)

(** [Pixel<numComponents>]: an array of [numComponents] bytes. *)
Abbreviation Pixel := (list byte) (only parsing).

(** [Accumulator<numComponents>]: an array of [numComponents] words. *)
Abbreviation Accumulator := (list Z) (only parsing).

(** [Row<numComponents>]: a vector of pixels. *)
Abbreviation Row := (list (list byte)) (only parsing).

(** [Row(numElements)]: a vector of value-initialised pixels. *)
Definition newRow (numComponents numElements : nat) : Row :=
  replicate numElements (replicate numComponents x00).

(* ===================================================================== *)
(** ** The row reducer: [convert(Row const &, Row const &, Row &)] *)

Section Reducer.

Variable numComponents : nat.

(** The lambda [accumulate]: [accumulator[i] += pixel[i]] for each
    component, the sum narrowed to [Word]. *)
Definition accumulate (accumulator : Accumulator) (pixel : Pixel)
    : result Accumulator :=
  for_range numComponents 0
    (fun componentIndex acc =>
       a <- at_index acc componentIndex ;;
       p <- at_index pixel componentIndex ;;
       set_index acc componentIndex (toWord (a + ByteZ.toZ p)))
    accumulator.

(** [outPixel[i] = accumulator[i] >> 2], narrowed to [Byte]. *)
Definition shiftOut (accumulator : Accumulator) : result Pixel :=
  for_range numComponents 0
    (fun componentIndex outPixel =>
       a <- at_index accumulator componentIndex ;;
       set_index outPixel componentIndex (ByteZ.ofZ (Z.shiftr a 2)))
    (replicate numComponents x00).

Definition accumulatedUnit : Z := 4.
Definition accumulatedHalf : Z := accumulatedUnit / 2.

(** One turn of the [while] loop: four input pixels to one output pixel. *)
Definition convertBlock (p00 p01 p10 p11 : Pixel) : result Pixel :=
  let accumulator := replicate numComponents accumulatedHalf in
  accumulator <- accumulate accumulator p00 ;;
  accumulator <- accumulate accumulator p01 ;;
  accumulator <- accumulate accumulator p10 ;;
  accumulator <- accumulate accumulator p11 ;;
  shiftOut accumulator.

(** The [while] loop; the three iterators are indices into their rows. *)
Fixpoint convertRow_loop (fuel : nat) (inRows0 inRows1 : Row)
    (inPixelIterator0 inPixelIterator1 outPixelIterator : nat) (outRow : Row)
    : result (nat * nat * nat * Row) :=
  if (inPixelIterator0 =? length inRows0)%nat
  then Ok (inPixelIterator0, inPixelIterator1, outPixelIterator, outRow)
  else
    match fuel with
    | O => Crash OutOfFuel
    | Datatypes.S fuel' =>
        p00 <- at_index inRows0 inPixelIterator0 ;;
        p01 <- at_index inRows0 (inPixelIterator0 + 1) ;;
        p10 <- at_index inRows1 inPixelIterator1 ;;
        p11 <- at_index inRows1 (inPixelIterator1 + 1) ;;
        outPixel <- convertBlock p00 p01 p10 p11 ;;
        outRow' <- set_index outRow outPixelIterator outPixel ;;
        convertRow_loop fuel' inRows0 inRows1
          (inPixelIterator0 + 2) (inPixelIterator1 + 2)
          (outPixelIterator + 1) outRow'
    end.

Definition convertRow (inRows0 inRows1 outRow : Row) : result Row :=
  assert (length inRows0 =? length inRows1)%nat ;;
  assert (length inRows0 =? length outRow * 2)%nat ;;
  '(it0, it1, ot, outRow') <-
    convertRow_loop (length inRows0) inRows0 inRows1 0 0 0 outRow ;;
  assert (it0 =? length inRows0)%nat ;;
  assert (it1 =? length inRows1)%nat ;;
  assert (ot =? length outRow')%nat ;;
  Ok outRow'.

End Reducer.

(* ===================================================================== *)
(** ** FILE helpers *)

(** The input stream: the bytes not read yet and the end-of-file
    indicator, which a read sets when it asks for more than is left. *)
Record InFile : Type := mkInFile {
  unread : list byte;
  eofIndicator : bool
}.

(** The output stream: the bytes written so far and the number of bytes
    the device still accepts. *)
Record OutFile : Type := mkOutFile {
  written : list byte;
  room : nat
}.

(** The first [count] objects of [size] bytes each. *)
Fixpoint chunks (size count : nat) (bytes : list byte) : list (list byte) :=
  match count with
  | O => []
  | Datatypes.S count' =>
      take size bytes :: chunks size count' (drop size bytes)
  end.

(** [std::fread(objects, size, numObjects, inFile)]: the complete objects
    read and the stream afterwards. *)
Definition fread (size numObjects : nat) (inFile : InFile)
    : list (list byte) * InFile :=
  let available := (length (unread inFile) / size)%nat in
  if (numObjects <=? available)%nat
  then (chunks size numObjects (unread inFile),
        {| unread := drop (numObjects * size) (unread inFile);
           eofIndicator := eofIndicator inFile |})
  else (chunks size available (unread inFile),
        {| unread := []; eofIndicator := true |}).

(** [std::fwrite(objects, size, numObjects, outFile)]: the number of
    complete objects written and the stream afterwards. *)
Definition fwrite (size numObjects : nat) (objects : list (list byte))
    (outFile : OutFile) : nat * OutFile :=
  let bytes := concat (take numObjects objects) in
  let accepted := take (room outFile) bytes in
  ((length accepted / size)%nat,
   {| written := written outFile ++ accepted;
      room := (room outFile - length accepted)%nat |}).

(** [std::fgetc]: the next byte, or [EOF] (-1) with the indicator set. *)
Definition fgetc (inFile : InFile) : Z * InFile :=
  match unread inFile with
  | [] => (-1, {| unread := []; eofIndicator := true |})
  | b :: rest =>
      (ByteZ.toZ b, {| unread := rest; eofIndicator := eofIndicator inFile |})
  end.

(** [std::fputc(c, outFile)]: writes [(unsigned char) c]; the caller
    ignores the value returned. *)
Definition fputc (c : Z) (outFile : OutFile) : OutFile :=
  match room outFile with
  | O => outFile
  | Datatypes.S room' =>
      {| written := written outFile ++ [ByteZ.ofZ c]; room := room' |}
  end.

(** [std::feof] *)
Definition feof (inFile : InFile) : bool := eofIndicator inFile.

(** [readObjects<T>]: [size] is [sizeof(T)], [objects] the buffer the
    pointer designates. *)
Definition readObjects (size : nat) (inFile : InFile)
    (objects : list (list byte)) (numObjects : nat)
    : result (list (list byte) * InFile) :=
  if (length objects <? numObjects)%nat then Crash OutOfBounds
  else
    let '(read, inFile') := fread size numObjects inFile in
    let readCount := length read in
    let objects' := read ++ drop readCount objects in
    if negb (readCount =? numObjects)%nat
    then fail badInputFormat
    else Ok (objects', inFile').

(** [readObject<T>] *)
Definition readObject (size : nat) (inFile : InFile)
    : result (list byte * InFile) :=
  let object := replicate size x00 in
  '(objects, inFile') <- readObjects size inFile [object] 1 ;;
  object' <- at_index objects 0 ;;
  Ok (object', inFile').

(** [writeObjects<T>] *)
Definition writeObjects (size : nat) (outFile : OutFile)
    (objects : list (list byte)) (numObjects : nat) : result OutFile :=
  if (length objects <? numObjects)%nat then Crash OutOfBounds
  else
    let '(writeCount, outFile') := fwrite size numObjects objects outFile in
    if negb (writeCount =? numObjects)%nat
    then fail badOutputFile
    else Ok outFile'.

(** [writeObject<T>] *)
Definition writeObject (size : nat) (outFile : OutFile) (object : list byte)
    : result OutFile :=
  writeObjects size outFile [object] 1.

(* ===================================================================== *)
(** ** TGA *)

Module ColorMapSpecification.
Record t : Type := mk {
  offset : Z;
  size : Z;
  bpp : Z
}.
End ColorMapSpecification.

Module Descriptor.
Record t : Type := mk {
  attributeBits : Z;
  reserved : Z;
  direction : Z;
  interleave : Z
}.
End Descriptor.

Module Specification.
Record t : Type := mk {
  xOrigin : Z;
  yOrigin : Z;
  width : Z;
  height : Z;
  bpp : Z;
  descriptor : Descriptor.t
}.
End Specification.

Module Header.
Record t : Type := mk {
  idLength : Z;
  colorMapType : Z;
  type : Z;
  colorMapSpecification : ColorMapSpecification.t;
  specification : Specification.t
}.

(** [enum class ColorMapType] *)
Definition none : Z := 0.

(** [enum class ImageType] *)
Definition uncompressedTrueColorImage : Z := 2.
Definition uncompressedGrayScaleImage : Z := 3.

(** [sizeof(Header)] *)
Definition sizeof : nat := 18.
End Header.

(** The packed layout the program assumes ([#pragma pack(1)], little-endian
    words, bit-fields allocated from the least significant bit). *)
Definition byteAt (bytes : list byte) (i : nat) : Z :=
  ByteZ.toZ (nth i bytes x00).

Definition wordAt (bytes : list byte) (i : nat) : Z :=
  byteAt bytes i + 256 * byteAt bytes (i + 1).

Definition decodeDescriptor (d : Z) : Descriptor.t :=
  {| Descriptor.attributeBits := Z.land d 15;
     Descriptor.reserved := Z.land (Z.shiftr d 4) 1;
     Descriptor.direction := Z.land (Z.shiftr d 5) 1;
     Descriptor.interleave := Z.land (Z.shiftr d 6) 3 |}.

Definition decodeHeader (bytes : list byte) : Header.t :=
  {| Header.idLength := byteAt bytes 0;
     Header.colorMapType := byteAt bytes 1;
     Header.type := byteAt bytes 2;
     Header.colorMapSpecification :=
       {| ColorMapSpecification.offset := wordAt bytes 3;
          ColorMapSpecification.size := wordAt bytes 5;
          ColorMapSpecification.bpp := byteAt bytes 7 |};
     Header.specification :=
       {| Specification.xOrigin := wordAt bytes 8;
          Specification.yOrigin := wordAt bytes 10;
          Specification.width := wordAt bytes 12;
          Specification.height := wordAt bytes 14;
          Specification.bpp := byteAt bytes 16;
          Specification.descriptor := decodeDescriptor (byteAt bytes 17) |} |}.

Definition encodeWord (w : Z) : list byte :=
  [ByteZ.ofZ w; ByteZ.ofZ (Z.shiftr w 8)].

Definition encodeDescriptor (d : Descriptor.t) : Z :=
  Z.lor (Z.land (Descriptor.attributeBits d) 15)
    (Z.lor (Z.shiftl (Z.land (Descriptor.reserved d) 1) 4)
       (Z.lor (Z.shiftl (Z.land (Descriptor.direction d) 1) 5)
          (Z.shiftl (Z.land (Descriptor.interleave d) 3) 6))).

Definition encodeHeader (header : Header.t) : list byte :=
  let cms := Header.colorMapSpecification header in
  let spec := Header.specification header in
  [ByteZ.ofZ (Header.idLength header);
   ByteZ.ofZ (Header.colorMapType header);
   ByteZ.ofZ (Header.type header)]
  ++ encodeWord (ColorMapSpecification.offset cms)
  ++ encodeWord (ColorMapSpecification.size cms)
  ++ [ByteZ.ofZ (ColorMapSpecification.bpp cms)]
  ++ encodeWord (Specification.xOrigin spec)
  ++ encodeWord (Specification.yOrigin spec)
  ++ encodeWord (Specification.width spec)
  ++ encodeWord (Specification.height spec)
  ++ [ByteZ.ofZ (Specification.bpp spec);
      ByteZ.ofZ (encodeDescriptor (Specification.descriptor spec))].

(** scrutinize header for errors and compatability with converter *)
Definition inspect (header : Header.t) : result unit :=
  let cms := Header.colorMapSpecification header in
  let spec := Header.specification header in
  let descriptor := Specification.descriptor spec in
  enforce (Header.colorMapType header =? Header.none) unsupportedInputFormat ;;
  enforce (ColorMapSpecification.offset cms =? 0) badInputFormat ;;
  enforce (ColorMapSpecification.size cms =? 0) badInputFormat ;;
  enforce (ColorMapSpecification.bpp cms =? 0) badInputFormat ;;
  enforce (0 <? Specification.width spec) badInputFormat ;;
  enforce (0 <? Specification.height spec) badInputFormat ;;
  enforce (8 <=? Specification.bpp spec) unsupportedInputFormat ;;
  enforce (Specification.bpp spec <=? 32) unsupportedInputFormat ;;
  enforce (Specification.bpp spec mod 8 =? 0) unsupportedInputFormat ;;
  enforce ((Descriptor.attributeBits descriptor =? 0)
           || (Descriptor.attributeBits descriptor =? 8))
    unsupportedInputFormat ;;
  enforce (Descriptor.reserved descriptor =? 0) badInputFormat ;;
  enforce (Descriptor.interleave descriptor =? 0) unsupportedInputFormat.

(* ===================================================================== *)
(** ** Rows on the streams *)

(** A subscript with an [int] index; a negative index is out of range. *)
Definition at_indexZ {A : Type} (l : list A) (i : Z) : result A :=
  if i <? 0 then Crash OutOfBounds else at_index l (Z.to_nat i).

Section Pipeline.

Variable numComponents : nat.

Definition readRow (inFile : InFile) (row : Row) (inWidth : Z)
    : result (Row * InFile) :=
  '(row', inFile') <- readObjects numComponents inFile row (Z.to_nat inWidth) ;;
  (* account for odd column by writing value twice *)
  last <- at_indexZ row' (inWidth - 1) ;;
  row'' <- set_index row' (length row' - 1) last ;;
  Ok (row'', inFile').

Definition writeRow (outFile : OutFile) (row : Row) : result OutFile :=
  writeObjects numComponents outFile row (length row).

(* ===================================================================== *)
(** ** Conversion of the pixel rows: [convert<numComponents>] on the two
       streams and the two specifications *)

Definition inWidthRup (inWidthComplete : Z) : Z :=
  Z.land (inWidthComplete + 1) (Z.lnot 1 mod 2 ^ 32).

Definition outColumnsRup (inWidth : Z) : Z := Z.shiftr (inWidth + 1) 1.

Definition outRowsComplete (inHeight : Z) : Z := Z.shiftr inHeight 1.

(** The assertions on the distance in bytes between [front()] and
    [back()] of a row. *)
Definition assertExtent (row : Row) (numElements : Z) : result unit :=
  match row with
  | [] => Crash OutOfBounds
  | _ =>
      assert ((Z.of_nat (length row) - 1) * Z.of_nat numComponents
              =? (numElements - 1) * Z.of_nat numComponents)
  end.

(** The [for] loop over the complete pairs of rows. *)
Fixpoint convertPairs (i : nat) (inFile : InFile) (outFile : OutFile)
    (inWidth : Z) (inRow0 inRow1 outRow : Row)
    : result (InFile * OutFile * (Row * Row * Row)) :=
  match i with
  | O => Ok (inFile, outFile, (inRow0, inRow1, outRow))
  | Datatypes.S i' =>
      '(inRow0', inFile1) <- readRow inFile inRow0 inWidth ;;
      '(inRow1', inFile2) <- readRow inFile1 inRow1 inWidth ;;
      outRow' <- convertRow numComponents inRow0' inRow1' outRow ;;
      outFile' <- writeRow outFile outRow' ;;
      convertPairs i' inFile2 outFile' inWidth inRow0' inRow1' outRow'
  end.

Definition convertPixels (inFile : InFile) (outFile : OutFile)
    (inSpecification outSpecification : Specification.t)
    : result (InFile * OutFile) :=
  let inWidthComplete := Specification.width inSpecification in
  let inWidthRup := inWidthRup inWidthComplete in
  let outColumnsRup := outColumnsRup (Specification.width inSpecification) in
  let outRowsComplete :=
    outRowsComplete (Specification.height inSpecification) in
  let inRow0 := newRow numComponents (Z.to_nat inWidthRup) in
  let inRow1 := newRow numComponents (Z.to_nat inWidthRup) in
  let outRow := newRow numComponents (Z.to_nat outColumnsRup) in
  assertExtent inRow0 inWidthRup ;;
  assertExtent inRow1 inWidthRup ;;
  assertExtent outRow (inWidthRup / 2) ;;
  '(inFile1, outFile1, (inRow0', inRow1', outRow')) <-
    convertPairs (Z.to_nat outRowsComplete) inFile outFile
      (Specification.width inSpecification) inRow0 inRow1 outRow ;;
  (* convert outstanding odd row *)
  if negb (Z.land (Specification.height inSpecification) 1 =? 0)
  then
    '(inRow0'', inFile2) <-
      readRow inFile1 inRow0' (Specification.width inSpecification) ;;
    outRow'' <- convertRow numComponents inRow0'' inRow0'' outRow' ;;
    outFile2 <- writeRow outFile1 outRow'' ;;
    Ok (inFile2, outFile2)
  else Ok (inFile1, outFile1).

End Pipeline.

(* ===================================================================== *)
(** ** Conversion of a file: [convert] on the two open streams *)

(** [auto outHeader = inHeader;] and the four assignments to it, each
    narrowed to [Word]. *)
Definition deriveOutHeader (inHeader : Header.t) : Header.t :=
  let inSpec := Header.specification inHeader in
  {| Header.idLength := Header.idLength inHeader;
     Header.colorMapType := Header.colorMapType inHeader;
     Header.type := Header.type inHeader;
     Header.colorMapSpecification := Header.colorMapSpecification inHeader;
     Header.specification :=
       {| Specification.xOrigin :=
            toWord (Z.shiftr (Specification.xOrigin inSpec) 1);
          Specification.yOrigin :=
            toWord (Z.shiftr (Specification.yOrigin inSpec) 1);
          Specification.width :=
            toWord (Z.shiftr (Specification.width inSpec + 1) 1);
          Specification.height :=
            toWord (Z.shiftr (Specification.height inSpec + 1) 1);
          Specification.bpp := Specification.bpp inSpec;
          Specification.descriptor := Specification.descriptor inSpec |} |}.

(** The [switch] on the pixel depth. *)
Definition copyPixels (inFile : InFile) (outFile : OutFile)
    (inHeader outHeader : Header.t) : result (InFile * OutFile) :=
  let inSpec := Header.specification inHeader in
  let outSpec := Header.specification outHeader in
  match Specification.bpp inSpec with
  | 8 =>
      enforce (Header.type inHeader =? Header.uncompressedGrayScaleImage)
        unsupportedInputFormat ;;
      convertPixels 1 inFile outFile inSpec outSpec
  | 16 =>
      enforce (Header.type inHeader =? Header.uncompressedGrayScaleImage)
        unsupportedInputFormat ;;
      convertPixels 2 inFile outFile inSpec outSpec
  | 24 =>
      enforce (Header.type inHeader =? Header.uncompressedTrueColorImage)
        unsupportedInputFormat ;;
      convertPixels 3 inFile outFile inSpec outSpec
  | 32 =>
      enforce (Header.type inHeader =? Header.uncompressedTrueColorImage)
        unsupportedInputFormat ;;
      convertPixels 4 inFile outFile inSpec outSpec
  | _ => fail unsupportedInputFormat
  end.

(** [while (!std::feof(inFile)) fputc(fgetc(inFile), outFile);] *)
Fixpoint copyTrailer (fuel : nat) (inFile : InFile) (outFile : OutFile)
    : result (InFile * OutFile) :=
  if negb (feof inFile)
  then
    match fuel with
    | O => Crash OutOfFuel
    | Datatypes.S fuel' =>
        let '(c, inFile') := fgetc inFile in
        copyTrailer fuel' inFile' (fputc c outFile)
    end
  else Ok (inFile, outFile).

Definition UINT8_MAX : Z := 255.

Definition convert (inFile : InFile) (outFile : OutFile)
    : result (InFile * OutFile) :=
  (* read input header *)
  '(object, inFile1) <- readObject Header.sizeof inFile ;;
  let inHeader := decodeHeader object in
  inspect inHeader ;;
  (* copy header *)
  let outHeader := deriveOutHeader inHeader in
  (* write output header *)
  outFile1 <- writeObject Header.sizeof outFile (encodeHeader outHeader) ;;
  (* copy ID field *)
  let idLength := Header.idLength inHeader in
  let idField := replicate (Z.to_nat UINT8_MAX) [x00] in
  assert (idLength <=? Z.of_nat (length idField)) ;;
  '(idField', inFile2) <- readObjects 1 inFile1 idField (Z.to_nat idLength) ;;
  outFile2 <- writeObjects 1 outFile1 idField' (Z.to_nat idLength) ;;
  (* copy pixels *)
  '(inFile3, outFile3) <- copyPixels inFile2 outFile2 inHeader outHeader ;;
  '(inFile4, outFile4) <-
    copyTrailer (Datatypes.S (length (unread inFile3))) inFile3 outFile3 ;;
  assert (feof inFile4) ;;
  Ok (inFile4, outFile4).

(* ===================================================================== *)
(** * Closed forms used in the statements *)

(** The sum the lambda [accumulate] stores, and the store of [shiftOut]. *)
Definition addWord (a : Z) (p : byte) : Z := toWord (a + ByteZ.toZ p).
Definition shiftByte (a : Z) : byte := ByteZ.ofZ (Z.shiftr a 2).

(** The accumulator after the four calls of [accumulate]. *)
Definition accumulated (numComponents : nat) (p00 p01 p10 p11 : Pixel)
    : Accumulator :=
  zip_with addWord
    (zip_with addWord
       (zip_with addWord
          (zip_with addWord (replicate numComponents accumulatedHalf) p00)
          p01)
       p10)
    p11.

(** A 2x2 grey-scale image with the pixels 10, 20, 30, 40 and no trailer. *)
Definition tga_2x2 : list byte :=
  [x00; x00; x03; x00; x00; x00; x00; x00; x00; x00; x00; x00;
   x02; x00; x02; x00; x08; x00; x0a; x14; x1e; x28].

#[global] Instance byte_inhabited : Inhabited byte := populate x00.

(** Every pixel of the row holds [numComponents] components, as the type
    [Pixel<numComponents>] has it. *)
Definition wfRow (numComponents : nat) (row : Row) : Prop :=
  Forall (fun pixel : Pixel => length pixel = numComponents) row.

(** Component [c] of pixel [k] of a row, as an integer. *)
Definition component (row : Row) (k c : nat) : Z :=
  ByteZ.toZ ((row !!! k) !!! c).

(** The rounding formula of the reducer for one component, in exact
    integer arithmetic: [(a + b + c + d + 2) >> 2]. *)
Definition boxFormula (a b c d : Z) : Z := Z.shiftr (a + b + c + d + 2) 2.

(** The box filter on four pixels, component by component. *)
Definition boxPixel (numComponents : nat) (p00 p01 p10 p11 : Pixel) : Pixel :=
  (fun c : nat =>
     ByteZ.ofZ (boxFormula (ByteZ.toZ (p00 !!! c)) (ByteZ.toZ (p01 !!! c))
                           (ByteZ.toZ (p10 !!! c)) (ByteZ.toZ (p11 !!! c))))
  <$> seq 0 numComponents.

(** The box filter on two rows: output pixel [k] is made of the pixels
    [2k] and [2k+1] of both rows. *)
Definition boxRow (numComponents : nat) (rowA rowB : Row) : Row :=
  (fun k : nat =>
     boxPixel numComponents (rowA !!! (2 * k)%nat) (rowA !!! (2 * k + 1)%nat)
                            (rowB !!! (2 * k)%nat) (rowB !!! (2 * k + 1)%nat))
  <$> seq 0 (length rowA / 2).

(* --------------------------------------------------------------------- *)
(** ** The header *)

(** Every field of the header lies in the range of its type. *)
Definition wfHeader (h : Header.t) : Prop :=
  let cms := Header.colorMapSpecification h in
  let spec := Header.specification h in
  let d := Specification.descriptor spec in
  0 <= Header.idLength h < 256
  /\ 0 <= Header.colorMapType h < 256
  /\ 0 <= Header.type h < 256
  /\ 0 <= ColorMapSpecification.offset cms < 65536
  /\ 0 <= ColorMapSpecification.size cms < 65536
  /\ 0 <= ColorMapSpecification.bpp cms < 256
  /\ 0 <= Specification.xOrigin spec < 65536
  /\ 0 <= Specification.yOrigin spec < 65536
  /\ 0 <= Specification.width spec < 65536
  /\ 0 <= Specification.height spec < 65536
  /\ 0 <= Specification.bpp spec < 256
  /\ 0 <= Descriptor.attributeBits d < 16
  /\ 0 <= Descriptor.reserved d < 2
  /\ 0 <= Descriptor.direction d < 2
  /\ 0 <= Descriptor.interleave d < 4.

(** The ceiling and the floor of [z / 2]. *)
Definition ceilHalf (z : Z) : Z := z / 2 + z mod 2.
Definition floorHalf (z : Z) : Z := z / 2.

(** The invariants of a supported header, as the specification lists
    them. *)
Inductive Invariant : Set :=
  | NoColorMap
  | ColorMapOffsetZero
  | ColorMapSizeZero
  | ColorMapBitsZero
  | WidthPositive
  | HeightPositive
  | DepthSupported
  | AttributeBitsSupported
  | ReservedZero
  | NotInterleaved.

Definition holds (i : Invariant) (h : Header.t) : bool :=
  let cms := Header.colorMapSpecification h in
  let spec := Header.specification h in
  let d := Specification.descriptor spec in
  match i with
  | NoColorMap => Header.colorMapType h =? Header.none
  | ColorMapOffsetZero => ColorMapSpecification.offset cms =? 0
  | ColorMapSizeZero => ColorMapSpecification.size cms =? 0
  | ColorMapBitsZero => ColorMapSpecification.bpp cms =? 0
  | WidthPositive => 0 <? Specification.width spec
  | HeightPositive => 0 <? Specification.height spec
  | DepthSupported =>
      ((Specification.bpp spec =? 8) || (Specification.bpp spec =? 16)
       || (Specification.bpp spec =? 24) || (Specification.bpp spec =? 32))
      && (Specification.bpp spec mod 8 =? 0)
  | AttributeBitsSupported =>
      (Descriptor.attributeBits d =? 0) || (Descriptor.attributeBits d =? 8)
  | ReservedZero => Descriptor.reserved d =? 0
  | NotInterleaved => Descriptor.interleave d =? 0
  end.

(** The error kind of a violated invariant: malformed content for the
    color-map fields, the dimensions and the reserved bit, an unsupported
    format for the others. *)
Definition errorKind (i : Invariant) : ExitStatus :=
  match i with
  | ColorMapOffsetZero | ColorMapSizeZero | ColorMapBitsZero
  | WidthPositive | HeightPositive | ReservedZero => badInputFormat
  | NoColorMap | DepthSupported | AttributeBitsSupported | NotInterleaved =>
      unsupportedInputFormat
  end.

(** The order in which the invariants are applied. *)
Definition invariantOrder : list Invariant :=
  [NoColorMap; ColorMapOffsetZero; ColorMapSizeZero; ColorMapBitsZero;
   WidthPositive; HeightPositive; DepthSupported; AttributeBitsSupported;
   ReservedZero; NotInterleaved].

(** Validation by the first violated invariant. *)
Definition validate (h : Header.t) : result unit :=
  match List.find (fun i => negb (holds i h)) invariantOrder with
  | Some i => Exit (errorKind i)
  | None => Ok tt
  end.

(** The table of the format dispatcher: the component count and the image
    type a pixel depth requires. *)
Definition requiredFormat (bitsPerPixel : Z) : option (nat * Z) :=
  if bitsPerPixel =? 8
  then Some (1%nat, Header.uncompressedGrayScaleImage)
  else if bitsPerPixel =? 16
  then Some (2%nat, Header.uncompressedGrayScaleImage)
  else if bitsPerPixel =? 24
  then Some (3%nat, Header.uncompressedTrueColorImage)
  else if bitsPerPixel =? 32
  then Some (4%nat, Header.uncompressedTrueColorImage)
  else None.

(* --------------------------------------------------------------------- *)
(** ** Rows of the image *)

(** Pixel [k] of a stream of pixels of [numComponents] bytes each. *)
Definition pixelAt (numComponents : nat) (bytes : list byte) (k : nat)
    : Pixel :=
  take numComponents (drop (k * numComponents) bytes).

(** The row decoded from the head of [bytes]: [inWidth] pixels, and the
    last of them once more when [inWidth] is odd. *)
Definition decodeRow (numComponents : nat) (inWidth : Z) (bytes : list byte)
    : Row :=
  let pixels := chunks numComponents (Z.to_nat inWidth) bytes in
  if Z.odd inWidth
  then pixels ++ [pixelAt numComponents bytes (Z.to_nat inWidth - 1)]
  else pixels.

(** Row [j] of the pixel data [bytes] of an image [inWidth] pixels wide. *)
Definition inputRow (numComponents : nat) (inWidth : Z) (bytes : list byte)
    (j : nat) : Row :=
  decodeRow numComponents inWidth
    (drop (j * (Z.to_nat inWidth * numComponents)) bytes).

(** The output rows made of the complete pairs of input rows [first],
    [first + 1], ..., [count] of them. *)
Definition pairedRows (numComponents : nat) (inWidth : Z) (bytes : list byte)
    (first count : nat) : list Row :=
  (fun j : nat =>
     boxRow numComponents
       (inputRow numComponents inWidth bytes (2 * j))
       (inputRow numComponents inWidth bytes (2 * j + 1)))
  <$> seq first count.

(** The output row made of the last input row alone, when the height is
    odd. *)
Definition oddRow (numComponents : nat) (inWidth inHeight : Z)
    (bytes : list byte) : list Row :=
  if Z.odd inHeight
  then [boxRow numComponents
          (inputRow numComponents inWidth bytes (Z.to_nat inHeight - 1))
          (inputRow numComponents inWidth bytes (Z.to_nat inHeight - 1))]
  else [].

(** All output rows of an image. *)
Definition outputRows (numComponents : nat) (inWidth inHeight : Z)
    (bytes : list byte) : list Row :=
  pairedRows numComponents inWidth bytes 0 (Z.to_nat (Z.shiftr inHeight 1))
  ++ oddRow numComponents inWidth inHeight bytes.

(** Bytes in an input row, pixels and bytes in an output row. *)
Definition rowSize (numComponents : nat) (inWidth : Z) : nat :=
  (Z.to_nat inWidth * numComponents)%nat.
Definition outColumns (inWidth : Z) : nat := Z.to_nat (outColumnsRup inWidth).
Definition outSize (numComponents : nat) (inWidth : Z) : nat :=
  (outColumns inWidth * numComponents)%nat.

(** The bytes of a sequence of rows, in file order. *)
Definition rowBytes (rows : list Row) : list byte :=
  concat (@concat byte <$> rows).

(** A 3x3 grey-scale image: its specification and its pixel data. *)
Definition spec_3x3 : Specification.t :=
  Specification.mk 0 0 3 3 8 (Descriptor.mk 0 0 0 0).

Definition data_3x3 : list byte :=
  [x01; x02; x03; x04; x05; x06; x07; x08; x09].

(** The 2x2 image followed by a trailer of three bytes. *)
Definition tga_2x2_trailer : list byte := tga_2x2 ++ [x54; x47; x41].

(* ===================================================================== *)
(** * The program: [convert] on two file names, and [main] *)

(** What [std::fopen] answers for a file name: in mode "rb" the stream of
    an existing file, in mode "wb" the stream of a file created empty, or
    in either mode a null pointer.  The two names of a run are taken to
    designate different files. *)
Record Environment : Type := mkEnvironment {
  fopen_rb : String.string -> option InFile;
  fopen_wb : String.string -> option OutFile
}.

(** [convert] on the names of the two files *)
Definition convertNamed (env : Environment)
    (inFilename outFilename : String.string) : result (InFile * OutFile) :=
  match fopen_rb env inFilename with
  | None => fail badInputFile
  | Some inFile =>
      match fopen_wb env outFilename with
      | None => fail badOutputFile
      | Some outFile => convert inFile outFile
      end
  end.

(** [main]: [args] is the argument vector, the program name first; the
    value returned is the exit status of a run that returns. *)
Definition main (env : Environment) (args : list String.string) : result Z :=
  let numArgs := length args in
  if negb (numArgs =? 3)%nat
  then fail badArgs
  else
    inFilename <- at_index args 1 ;;
    outFilename <- at_index args 2 ;;
    convertNamed env inFilename outFilename ;;
    Ok (exitCode ok).

(** The exit status of the process, when the run ends by a return from
    [main] or by [std::exit]. *)
Definition processExit (r : result Z) : option Z :=
  match r with
  | Ok status => Some status
  | Exit e => Some (exitCode e)
  | Crash _ => None
  end.

(** The outcomes of a conversion that are ends of the run by [fail]. *)
Definition exitsWith {A : Type} (r : result A) (statuses : list ExitStatus)
    : Prop :=
  exists e : ExitStatus, r = Exit e /\ In e statuses.

(* --------------------------------------------------------------------- *)
(** ** The stages of [convert], named for the proofs *)

(** The header at the head of a stream. *)
Definition fileHeader (inFile : InFile) : Header.t :=
  decodeHeader (take Header.sizeof (unread inFile)).

(** The copy of the ID field: the statements of [convert] between the
    write of the output header and the [switch]. *)
Definition copyIdField (idLength : Z) (inFile : InFile) (outFile : OutFile)
    : result (InFile * OutFile) :=
  let idField := replicate (Z.to_nat UINT8_MAX) [x00] in
  assert (idLength <=? Z.of_nat (length idField)) ;;
  '(idField', inFile') <- readObjects 1 inFile idField (Z.to_nat idLength) ;;
  outFile' <- writeObjects 1 outFile idField' (Z.to_nat idLength) ;;
  Ok (inFile', outFile').

(** The copy of the trailer: the statements of [convert] after the
    [switch]. *)
Definition copyRest (inFile : InFile) (outFile : OutFile)
    : result (InFile * OutFile) :=
  '(inFile', outFile') <-
    copyTrailer (Datatypes.S (length (unread inFile))) inFile outFile ;;
  assert (feof inFile') ;;
  Ok (inFile', outFile').

(** The sizes in bytes of the pixel data of an image and of its reduction,
    for pixels of [numComponents] bytes. *)
Definition pixelDataSize (numComponents : nat) (h : Header.t) : nat :=
  (Z.to_nat (Specification.height (Header.specification h))
   * rowSize numComponents (Specification.width (Header.specification h)))%nat.

Definition outputDataSize (numComponents : nat) (h : Header.t) : nat :=
  (Z.to_nat (ceilHalf (Specification.height (Header.specification h)))
   * outSize numComponents (Specification.width (Header.specification h)))%nat.

(** A header that passes [inspect] and whose depth and image type the
    [switch] accepts, with [numComponents] components. *)
Definition supported (h : Header.t) (numComponents : nat) : Prop :=
  inspect h = Ok tt
  /\ requiredFormat (Specification.bpp (Header.specification h))
     = Some (numComponents, Header.type h).

(** A header for a colour-mapped image, which [inspect] rejects first, on
    18 bytes. *)
Definition tga_colormapped : list byte :=
  [x00; x01; x01; x00; x00; x00; x01; x18; x00; x00; x00; x00;
   x02; x00; x02; x00; x08; x00].

(** The 2x2 header with the true-colour image type, which a depth of 8
    bits does not go with. *)
Definition tga_2x2_truecolor : list byte :=
  [x00; x00; x02; x00; x00; x00; x00; x00; x00; x00; x00; x00;
   x02; x00; x02; x00; x08; x00; x0a; x14; x1e; x28].

(** The 2x2 image cut after its second pixel. *)
Definition tga_2x2_cut : list byte := take 20 tga_2x2.

(* ===================================================================== *)
(** * Properties *)

Example convertRow_2x2 :
  convertRow 1 [[x0a]; [x14]] [[x1e]; [x28]] (newRow 1 1) = Ok [[x19]].
Proof. reflexivity. Qed.

(** Ties round up: the components 1, 1, 1, 2 give 1 and 1, 1, 2, 2 give 2. *)
Example convertRow_tie_5 :
  convertRow 1 [[x01]; [x01]] [[x01]; [x02]] (newRow 1 1) = Ok [[x01]].
Proof. reflexivity. Qed.

Example convertRow_tie_6 :
  convertRow 1 [[x01]; [x01]] [[x02]; [x02]] (newRow 1 1) = Ok [[x02]].
Proof. reflexivity. Qed.

(** Rows of unequal lengths fail the reducer's first assertion. *)
Example convertRow_contract :
  convertRow 1 [[x01]; [x01]] [[x01]] (newRow 1 1) = Crash AssertionFailed.
Proof. reflexivity. Qed.

Example convert_2x2 :
  convert (mkInFile tga_2x2 false) (mkOutFile [] 100) =
  Ok (mkInFile [] true,
      mkOutFile [x00; x00; x03; x00; x00; x00; x00; x00; x00; x00; x00; x00;
                 x01; x00; x01; x00; x08; x00; x19; xff] 80).
Proof. vm_compute. reflexivity. Qed.

(* --------------------------------------------------------------------- *)
(** ** Bytes as integers *)

Lemma toZ_range (b : byte) : 0 <= ByteZ.toZ b <= 255.
Proof.
  unfold ByteZ.toZ. pose proof (Byte.to_N_bounded b). lia.
Qed.

Lemma ofZ_toZ (b : byte) : ByteZ.ofZ (ByteZ.toZ b) = b.
Proof.
  unfold ByteZ.ofZ, ByteZ.toZ.
  pose proof (Byte.to_N_bounded b) as Hb.
  rewrite Z.mod_small by lia.
  rewrite N2Z.id, Byte.of_to_N. reflexivity.
Qed.

Lemma toZ_ofZ (z : Z) : ByteZ.toZ (ByteZ.ofZ z) = z mod 256.
Proof.
  unfold ByteZ.ofZ, ByteZ.toZ.
  pose proof (Z.mod_pos_bound z 256 ltac:(lia)) as Hz.
  destruct (Byte.of_N (Z.to_N (z mod 256))) as [b|] eqn:E.
  - apply Byte.to_of_N in E. rewrite E. lia.
  - apply Byte.of_N_None_iff in E. lia.
Qed.

Lemma toZ_ofZ_small (z : Z) : 0 <= z <= 255 -> ByteZ.toZ (ByteZ.ofZ z) = z.
Proof. intros Hz. rewrite toZ_ofZ. apply Z.mod_small. lia. Qed.

Lemma toZ_inj (a b : byte) : ByteZ.toZ a = ByteZ.toZ b -> a = b.
Proof.
  intros H. rewrite <- (ofZ_toZ a), <- (ofZ_toZ b). congruence.
Qed.

(* --------------------------------------------------------------------- *)
(** ** Subscripts *)

Lemma at_index_Some {A : Type} (l : list A) (i : nat) (x : A) :
  l !! i = Some x -> at_index l i = Ok x.
Proof. intros H. unfold at_index. rewrite H. reflexivity. Qed.

Lemma set_index_lt {A : Type} (l : list A) (i : nat) (x : A) :
  (i < length l)%nat -> set_index l i x = Ok (<[i := x]> l).
Proof.
  intros H. unfold set_index.
  destruct (Nat.ltb_spec i (length l)); [reflexivity | lia].
Qed.

Lemma at_index_not_exit {A : Type} (l : list A) (i : nat) (e : ExitStatus) :
  at_index l i <> Exit e.
Proof. unfold at_index. destruct (l !! i); discriminate. Qed.

(* --------------------------------------------------------------------- *)
(** ** The reducer, one block *)

Section ReducerProofs.

Variable numComponents : nat.

Lemma accumulate_from (pixel : Pixel) :
  length pixel = numComponents ->
  forall (count start : nat) (acc : Accumulator),
    (start + count)%nat = numComponents ->
    length acc = numComponents ->
    for_range count start
      (fun componentIndex acc =>
         a <- at_index acc componentIndex ;;
         p <- at_index pixel componentIndex ;;
         set_index acc componentIndex (toWord (a + ByteZ.toZ p)))
      acc
    = Ok (take start acc
          ++ zip_with addWord (drop start acc) (drop start pixel)).
Proof.
  intros Hp count. induction count as [|count IH]; intros start acc Hs Ha.
  - simpl. rewrite take_ge, drop_ge by lia. simpl.
    rewrite app_nil_r. reflexivity.
  - destruct (lookup_lt_is_Some_2 acc start ltac:(lia)) as [a Ea].
    destruct (lookup_lt_is_Some_2 pixel start ltac:(lia)) as [p Ep].
    simpl. rewrite (at_index_Some _ _ _ Ea). simpl.
    rewrite (at_index_Some _ _ _ Ep). simpl.
    rewrite set_index_lt by lia. simpl.
    rewrite IH by (rewrite ?length_insert; lia).
    f_equal.
    rewrite (take_S_r _ _ (addWord a p))
      by (apply list_lookup_insert_eq; lia).
    rewrite take_insert_ge, drop_insert_lt by lia.
    rewrite (drop_S acc a start Ea), (drop_S pixel p start Ep). simpl.
    rewrite <- app_assoc. reflexivity.
Qed.

Lemma accumulate_ok (acc : Accumulator) (pixel : Pixel) :
  length acc = numComponents ->
  length pixel = numComponents ->
  accumulate numComponents acc pixel = Ok (zip_with addWord acc pixel).
Proof.
  intros Ha Hp. unfold accumulate.
  rewrite (accumulate_from pixel Hp numComponents 0%nat acc) by (auto; lia).
  reflexivity.
Qed.

Lemma shiftOut_from (acc : Accumulator) :
  length acc = numComponents ->
  forall (count start : nat) (outPixel : Pixel),
    (start + count)%nat = numComponents ->
    length outPixel = numComponents ->
    for_range count start
      (fun componentIndex outPixel =>
         a <- at_index acc componentIndex ;;
         set_index outPixel componentIndex (ByteZ.ofZ (Z.shiftr a 2)))
      outPixel
    = Ok (take start outPixel ++ (shiftByte <$> drop start acc)).
Proof.
  intros Ha count. induction count as [|count IH]; intros start out Hs Ho.
  - simpl. rewrite take_ge, drop_ge by lia. simpl.
    rewrite app_nil_r. reflexivity.
  - destruct (lookup_lt_is_Some_2 acc start ltac:(lia)) as [a Ea].
    simpl. rewrite (at_index_Some _ _ _ Ea). simpl.
    rewrite set_index_lt by lia. simpl.
    rewrite IH by (rewrite ?length_insert; lia).
    f_equal.
    rewrite (take_S_r _ _ (shiftByte a))
      by (apply list_lookup_insert_eq; lia).
    rewrite take_insert_ge by lia.
    rewrite (drop_S acc a start Ea). simpl.
    rewrite <- app_assoc. reflexivity.
Qed.

Lemma shiftOut_ok (acc : Accumulator) :
  length acc = numComponents ->
  shiftOut numComponents acc = Ok (shiftByte <$> acc).
Proof.
  intros Ha. unfold shiftOut.
  rewrite (shiftOut_from acc Ha numComponents 0%nat)
    by (rewrite ?length_replicate; auto; lia).
  reflexivity.
Qed.

Lemma convertBlock_ok (p00 p01 p10 p11 : Pixel) :
  length p00 = numComponents -> length p01 = numComponents ->
  length p10 = numComponents -> length p11 = numComponents ->
  convertBlock numComponents p00 p01 p10 p11
  = Ok (shiftByte <$> accumulated numComponents p00 p01 p10 p11).
Proof.
  intros H0 H1 H2 H3. unfold convertBlock, accumulated.
  rewrite accumulate_ok by (rewrite ?length_replicate; auto). simpl.
  rewrite accumulate_ok
    by (rewrite ?length_zip_with, ?length_replicate; auto; lia). simpl.
  rewrite accumulate_ok
    by (rewrite ?length_zip_with, ?length_replicate; auto; lia). simpl.
  rewrite accumulate_ok
    by (rewrite ?length_zip_with, ?length_replicate; auto; lia). simpl.
  apply shiftOut_ok.
  rewrite ?length_zip_with, ?length_replicate. lia.
Qed.

End ReducerProofs.

(* --------------------------------------------------------------------- *)
(** ** The reducer: the accumulator is exact *)

Section ReducerExact.

Variable numComponents : nat.

Lemma toWord_small (z : Z) : 0 <= z < 65536 -> toWord z = z.
Proof. intros H. unfold toWord. apply Z.mod_small. lia. Qed.

Lemma addWord_exact (a : Z) (p : byte) :
  0 <= a <= 767 -> addWord a p = a + ByteZ.toZ p.
Proof.
  intros Ha. unfold addWord. pose proof (toZ_range p).
  apply toWord_small. lia.
Qed.

Lemma boxFormula_range (a b c d : Z) :
  0 <= a <= 255 -> 0 <= b <= 255 -> 0 <= c <= 255 -> 0 <= d <= 255 ->
  0 <= boxFormula a b c d <= 255.
Proof.
  intros Ha Hb Hc Hd. unfold boxFormula.
  rewrite Z.shiftr_div_pow2 by lia. change (2 ^ 2) with 4.
  Z.div_mod_to_equations. lia.
Qed.

Lemma accumulated_lookup (p00 p01 p10 p11 : Pixel) (c : nat) :
  length p00 = numComponents -> length p01 = numComponents ->
  length p10 = numComponents -> length p11 = numComponents ->
  (c < numComponents)%nat ->
  accumulated numComponents p00 p01 p10 p11 !! c
  = Some (2 + ByteZ.toZ (p00 !!! c) + ByteZ.toZ (p01 !!! c)
            + ByteZ.toZ (p10 !!! c) + ByteZ.toZ (p11 !!! c)).
Proof.
  intros H0 H1 H2 H3 Hc. unfold accumulated.
  destruct (lookup_lt_is_Some_2 p00 c ltac:(lia)) as [a Ea].
  destruct (lookup_lt_is_Some_2 p01 c ltac:(lia)) as [b Eb].
  destruct (lookup_lt_is_Some_2 p10 c ltac:(lia)) as [d Ed].
  destruct (lookup_lt_is_Some_2 p11 c ltac:(lia)) as [e Ee].
  rewrite (list_lookup_total_correct _ _ _ Ea),
    (list_lookup_total_correct _ _ _ Eb),
    (list_lookup_total_correct _ _ _ Ed),
    (list_lookup_total_correct _ _ _ Ee).
  rewrite !lookup_zip_with, lookup_replicate_2 by lia.
  rewrite Ea, Eb, Ed, Ee. simpl.
  pose proof (toZ_range a). pose proof (toZ_range b).
  pose proof (toZ_range d). pose proof (toZ_range e).
  unfold accumulatedHalf, accumulatedUnit. change (4 / 2) with 2.
  rewrite (addWord_exact 2 a) by lia.
  rewrite (addWord_exact _ b) by lia.
  rewrite (addWord_exact _ d) by lia.
  rewrite (addWord_exact _ e) by lia.
  reflexivity.
Qed.

Lemma length_accumulated (p00 p01 p10 p11 : Pixel) :
  length p00 = numComponents -> length p01 = numComponents ->
  length p10 = numComponents -> length p11 = numComponents ->
  length (accumulated numComponents p00 p01 p10 p11) = numComponents.
Proof.
  intros. unfold accumulated.
  rewrite !length_zip_with, length_replicate. lia.
Qed.

Lemma shift_accumulated (p00 p01 p10 p11 : Pixel) :
  length p00 = numComponents -> length p01 = numComponents ->
  length p10 = numComponents -> length p11 = numComponents ->
  shiftByte <$> accumulated numComponents p00 p01 p10 p11
  = boxPixel numComponents p00 p01 p10 p11.
Proof.
  intros H0 H1 H2 H3. apply list_eq. intros c.
  unfold boxPixel. rewrite !list_lookup_fmap.
  destruct (Nat.lt_ge_cases c numComponents) as [Hc|Hc].
  - rewrite accumulated_lookup, lookup_seq_lt by assumption. simpl.
    unfold shiftByte, boxFormula. do 3 f_equal. lia.
  - rewrite lookup_seq_ge by lia.
    rewrite (lookup_ge_None_2 (accumulated _ _ _ _ _))
      by (rewrite length_accumulated; auto).
    reflexivity.
Qed.

Lemma convertBlock_box (p00 p01 p10 p11 : Pixel) :
  length p00 = numComponents -> length p01 = numComponents ->
  length p10 = numComponents -> length p11 = numComponents ->
  convertBlock numComponents p00 p01 p10 p11
  = Ok (boxPixel numComponents p00 p01 p10 p11).
Proof.
  intros. rewrite convertBlock_ok, shift_accumulated by assumption.
  reflexivity.
Qed.

Lemma length_boxPixel (p00 p01 p10 p11 : Pixel) :
  length (boxPixel numComponents p00 p01 p10 p11) = numComponents.
Proof. unfold boxPixel. rewrite length_fmap, length_seq. reflexivity. Qed.

Lemma boxPixel_component (p00 p01 p10 p11 : Pixel) (c : nat) :
  (c < numComponents)%nat ->
  ByteZ.toZ (boxPixel numComponents p00 p01 p10 p11 !!! c)
  = boxFormula (ByteZ.toZ (p00 !!! c)) (ByteZ.toZ (p01 !!! c))
               (ByteZ.toZ (p10 !!! c)) (ByteZ.toZ (p11 !!! c)).
Proof.
  intros Hc. unfold boxPixel.
  erewrite list_lookup_total_correct
    by (rewrite list_lookup_fmap, lookup_seq_lt by lia; reflexivity).
  simpl. apply toZ_ofZ_small. apply boxFormula_range; apply toZ_range.
Qed.

End ReducerExact.

(* --------------------------------------------------------------------- *)
(** ** The reducer: the loop over the row *)

Section ReducerRow.

Variable numComponents : nat.
Variables inRows0 inRows1 : Row.
Hypothesis wf0 : wfRow numComponents inRows0.
Hypothesis wf1 : wfRow numComponents inRows1.
Hypothesis same_length : length inRows0 = length inRows1.

Lemma convertRow_loop_ok (n : nat) :
  forall (k fuel : nat) (outRow : Row),
    length inRows0 = (2 * (k + n))%nat ->
    length outRow = (k + n)%nat ->
    (n <= fuel)%nat ->
    exists outRow' : Row,
      convertRow_loop numComponents fuel inRows0 inRows1
        (2 * k) (2 * k) k outRow
      = Ok (length inRows0, length inRows1, length outRow, outRow')
      /\ length outRow' = length outRow
      /\ (forall j, (j < k)%nat -> outRow' !! j = outRow !! j)
      /\ (forall j, (k <= j < k + n)%nat ->
            outRow' !! j = boxRow numComponents inRows0 inRows1 !! j).
Proof.
  induction n as [|n IH]; intros k fuel outRow HL Hout Hfuel.
  - exists outRow. split; [|split; [|split]]; auto; [|intros; lia].
    destruct fuel; simpl;
      (destruct (Nat.eqb_spec (k + (k + 0)) (length inRows0)); [|lia]);
      rewrite <- same_length, Hout, HL; repeat f_equal; lia.
  - destruct fuel as [|fuel]; [lia|].
    destruct (lookup_lt_is_Some_2 inRows0 (2 * k) ltac:(lia)) as [p00 E00].
    destruct (lookup_lt_is_Some_2 inRows0 (2 * k + 1) ltac:(lia)) as [p01 E01].
    destruct (lookup_lt_is_Some_2 inRows1 (2 * k) ltac:(lia)) as [p10 E10].
    destruct (lookup_lt_is_Some_2 inRows1 (2 * k + 1) ltac:(lia)) as [p11 E11].
    pose proof (Forall_lookup_1 _ _ _ _ wf0 E00) as L00.
    pose proof (Forall_lookup_1 _ _ _ _ wf0 E01) as L01.
    pose proof (Forall_lookup_1 _ _ _ _ wf1 E10) as L10.
    pose proof (Forall_lookup_1 _ _ _ _ wf1 E11) as L11.
    simpl in L00, L01, L10, L11.
    destruct (IH (S k) fuel
                (<[k := boxPixel numComponents p00 p01 p10 p11]> outRow))
      as (outRow' & Hrun & Hlen & Hold & Hnew);
      [lia | rewrite length_insert; lia | lia |].
    exists outRow'.
    rewrite length_insert in Hrun, Hlen.
    split; [|split; [|split]].
    + cbn [convertRow_loop].
      destruct (Nat.eqb_spec (2 * k) (length inRows0)); [lia|].
      rewrite (at_index_Some _ _ _ E00). cbn [rbind].
      rewrite (at_index_Some _ _ _ E01). cbn [rbind].
      rewrite (at_index_Some _ _ _ E10). cbn [rbind].
      rewrite (at_index_Some _ _ _ E11). cbn [rbind].
      rewrite convertBlock_box by assumption. cbn [rbind].
      rewrite set_index_lt by lia. cbn [rbind].
      replace (2 * k + 2)%nat with (2 * S k)%nat by lia.
      replace (k + 1)%nat with (S k) by lia.
      exact Hrun.
    + exact Hlen.
    + intros j Hj. rewrite Hold by lia.
      apply list_lookup_insert_ne. lia.
    + intros j Hj. destruct (Nat.eq_dec j k) as [->|Hne].
      * rewrite Hold by lia. rewrite list_lookup_insert_eq by lia.
        unfold boxRow. rewrite list_lookup_fmap, lookup_seq_lt.
        -- simpl.
           rewrite (list_lookup_total_correct _ _ _ E00),
             (list_lookup_total_correct _ _ _ E10).
           replace (k + (k + 0) + 1)%nat with (2 * k + 1)%nat by lia.
           rewrite (list_lookup_total_correct _ _ _ E01),
             (list_lookup_total_correct _ _ _ E11).
           reflexivity.
        -- rewrite HL.
           replace (2 * (k + S n))%nat with ((k + S n) * 2)%nat by lia.
           rewrite Nat.div_mul by lia. lia.
      * apply Hnew. lia.
Qed.

Lemma length_boxRow : length (boxRow numComponents inRows0 inRows1)
                      = (length inRows0 / 2)%nat.
Proof. unfold boxRow. rewrite length_fmap, length_seq. reflexivity. Qed.

Lemma convertRow_ok (outRow : Row) :
  length inRows0 = (length outRow * 2)%nat ->
  convertRow numComponents inRows0 inRows1 outRow
  = Ok (boxRow numComponents inRows0 inRows1).
Proof.
  intros HL.
  destruct (convertRow_loop_ok (length outRow) 0 (length inRows0) outRow)
    as (outRow' & Hrun & Hlen & _ & Hnew); [lia | lia | lia |].
  unfold convertRow.
  rewrite <- same_length, HL, Nat.eqb_refl. cbn [assert rbind].
  rewrite <- HL. change (2 * 0)%nat with 0%nat in Hrun.
  rewrite Hrun. cbn [rbind].
  rewrite <- same_length, !Nat.eqb_refl. cbn [assert rbind].
  rewrite Hlen, Nat.eqb_refl. cbn [assert rbind].
  f_equal. apply list_eq. intros j.
  destruct (Nat.lt_ge_cases j (length outRow)) as [Hj|Hj].
  - apply Hnew. lia.
  - rewrite !lookup_ge_None_2; auto; [|lia].
    rewrite length_boxRow, HL, Nat.div_mul by lia. exact Hj.
Qed.

End ReducerRow.

(* --------------------------------------------------------------------- *)
(** ** The reducer: results *)

Lemma boxRow_lookup (numComponents : nat) (rowA rowB : Row) (k : nat) :
  (k < length rowA / 2)%nat ->
  boxRow numComponents rowA rowB !! k
  = Some (boxPixel numComponents
            (rowA !!! (2 * k)%nat) (rowA !!! (2 * k + 1)%nat)
            (rowB !!! (2 * k)%nat) (rowB !!! (2 * k + 1)%nat)).
Proof.
  intros Hk. unfold boxRow.
  rewrite list_lookup_fmap, lookup_seq_lt by assumption. reflexivity.
Qed.

Lemma boxRow_component (numComponents : nat) (rowA rowB : Row) (k c : nat) :
  (k < length rowA / 2)%nat -> (c < numComponents)%nat ->
  component (boxRow numComponents rowA rowB) k c
  = boxFormula (component rowA (2 * k) c) (component rowA (2 * k + 1) c)
               (component rowB (2 * k) c) (component rowB (2 * k + 1) c).
Proof.
  intros Hk Hc. unfold component.
  rewrite (list_lookup_total_correct _ _ _ (boxRow_lookup _ _ _ _ Hk)).
  apply boxPixel_component. exact Hc.
Qed.

Lemma boxFormula_same (v : Z) : boxFormula v v v v = v.
Proof.
  unfold boxFormula. rewrite Z.shiftr_div_pow2 by lia. change (2 ^ 2) with 4.
  Z.div_mod_to_equations. lia.
Qed.

Lemma boxPixel_same (numComponents : nat) (p : Pixel) :
  length p = numComponents -> boxPixel numComponents p p p p = p.
Proof.
  intros Hp. apply list_eq. intros c. unfold boxPixel.
  rewrite list_lookup_fmap.
  destruct (Nat.lt_ge_cases c numComponents) as [Hc|Hc].
  - rewrite lookup_seq_lt by assumption. simpl.
    rewrite boxFormula_same, ofZ_toZ.
    symmetry. apply list_lookup_lookup_total_lt. lia.
  - rewrite lookup_seq_ge by lia. simpl.
    symmetry. apply lookup_ge_None_2. lia.
Qed.

(** C1: for two input rows of the same even length L (every pixel holding
    numComponents components) and an output row of length L/2, the reducer
    returns a row of length L/2, and for every output index k < L/2 and
    every component c the output component is
    (A[2k] + A[2k+1] + B[2k] + B[2k+1] + 2) >> 2 in exact integer
    arithmetic, which is the sum plus 2 divided by 4, that is the quarter of
    the sum rounded to nearest with ties rounded up. *)
Theorem reducer_box_filter (numComponents : nat) (rowA rowB outRow : Row) :
  wfRow numComponents rowA ->
  wfRow numComponents rowB ->
  length rowA = length rowB ->
  length rowA = (length outRow * 2)%nat ->
  exists outRow' : Row,
    convertRow numComponents rowA rowB outRow = Ok outRow'
    /\ length outRow' = (length rowA / 2)%nat
    /\ forall k c : nat,
         (k < length rowA / 2)%nat -> (c < numComponents)%nat ->
         let sum := component rowA (2 * k) c + component rowA (2 * k + 1) c
                    + component rowB (2 * k) c + component rowB (2 * k + 1) c in
         component outRow' k c = Z.shiftr (sum + 2) 2
         /\ component outRow' k c = (sum + 2) / 4
         /\ 4 * component outRow' k c - 2 <= sum
            < 4 * component outRow' k c + 2.
Proof.
  intros wfA wfB Hsame Hout.
  exists (boxRow numComponents rowA rowB).
  split; [apply convertRow_ok; assumption|].
  split; [apply length_boxRow|].
  intros k c Hk Hc sum.
  rewrite boxRow_component by assumption.
  unfold boxFormula. fold sum.
  rewrite Z.shiftr_div_pow2 by lia. change (2 ^ 2) with 4.
  split; [reflexivity|]. split; [reflexivity|].
  Z.div_mod_to_equations. lia.
Qed.

Lemma reducer_box_filter_witness :
  exists outRow' : Row,
    convertRow 1 [[x01]; [x01]] [[x01]; [x02]] (newRow 1 1) = Ok outRow'
    /\ length outRow' = 1%nat
    /\ forall k c : nat,
         (k < 1)%nat -> (c < 1)%nat ->
         let sum := component [[x01]; [x01]] (2 * k) c
                    + component [[x01]; [x01]] (2 * k + 1) c
                    + component [[x01]; [x02]] (2 * k) c
                    + component [[x01]; [x02]] (2 * k + 1) c in
         component outRow' k c = Z.shiftr (sum + 2) 2
         /\ component outRow' k c = (sum + 2) / 4
         /\ 4 * component outRow' k c - 2 <= sum
            < 4 * component outRow' k c + 2.
Proof.
  apply (reducer_box_filter 1 [[x01]; [x01]] [[x01]; [x02]] (newRow 1 1)).
  - repeat constructor.
  - repeat constructor.
  - reflexivity.
  - reflexivity.
Defined.

(** C8: when the four pixels of a 2x2 block hold the same component values
    (the same pixel [p] at indices 2k and 2k+1 of both input rows), the
    reducer's output pixel k is [p]: every component keeps its value. *)
Theorem reducer_constant_block (numComponents : nat)
    (rowA rowB outRow : Row) (k : nat) (p : Pixel) :
  wfRow numComponents rowA ->
  wfRow numComponents rowB ->
  length rowA = length rowB ->
  length rowA = (length outRow * 2)%nat ->
  rowA !! (2 * k)%nat = Some p ->
  rowA !! (2 * k + 1)%nat = Some p ->
  rowB !! (2 * k)%nat = Some p ->
  rowB !! (2 * k + 1)%nat = Some p ->
  exists outRow' : Row,
    convertRow numComponents rowA rowB outRow = Ok outRow'
    /\ outRow' !! k = Some p
    /\ forall c : nat, component outRow' k c = component rowA (2 * k) c.
Proof.
  intros wfA wfB Hsame Hout EA0 EA1 EB0 EB1.
  exists (boxRow numComponents rowA rowB).
  split; [apply convertRow_ok; assumption|].
  assert (Hk : (k < length rowA / 2)%nat).
  { apply lookup_lt_Some in EA1. rewrite Hout in *.
    rewrite Nat.div_mul by lia. lia. }
  assert (Hp : boxRow numComponents rowA rowB !! k = Some p).
  { rewrite boxRow_lookup by assumption.
    rewrite (list_lookup_total_correct _ _ _ EA0),
      (list_lookup_total_correct _ _ _ EA1),
      (list_lookup_total_correct _ _ _ EB0),
      (list_lookup_total_correct _ _ _ EB1).
    rewrite boxPixel_same; [reflexivity|].
    exact (Forall_lookup_1 _ _ _ _ wfA EA0). }
  split; [exact Hp|].
  intros c. unfold component.
  rewrite (list_lookup_total_correct _ _ _ Hp),
    (list_lookup_total_correct _ _ _ EA0).
  reflexivity.
Qed.

Lemma reducer_constant_block_witness :
  exists outRow' : Row,
    convertRow 3 [[x07; xff; x00]; [x07; xff; x00]]
                 [[x07; xff; x00]; [x07; xff; x00]] (newRow 3 1) = Ok outRow'
    /\ outRow' !! 0%nat = Some [x07; xff; x00]
    /\ forall c : nat,
         component outRow' 0 c
         = component [[x07; xff; x00]; [x07; xff; x00]] (2 * 0) c.
Proof.
  apply (reducer_constant_block 3 [[x07; xff; x00]; [x07; xff; x00]]
           [[x07; xff; x00]; [x07; xff; x00]] (newRow 3 1) 0 [x07; xff; x00]).
  - repeat constructor.
  - repeat constructor.
  - reflexivity.
  - reflexivity.
  - reflexivity.
  - reflexivity.
  - reflexivity.
  - reflexivity.
Defined.

Lemma zip_addWord_lookup (acc : Accumulator) (p : Pixel) (c : nat) (a : Z) :
  acc !! c = Some a -> 0 <= a <= 767 -> (c < length p)%nat ->
  zip_with addWord acc p !! c = Some (a + ByteZ.toZ (p !!! c)).
Proof.
  intros Ea Ha Hc.
  destruct (lookup_lt_is_Some_2 p c Hc) as [b Eb].
  rewrite (list_lookup_total_correct _ _ _ Eb).
  rewrite lookup_zip_with, Ea, Eb. simpl.
  rewrite addWord_exact by assumption. reflexivity.
Qed.

(** C10: in every turn of the reducer's loop (four pixels of numComponents
    components each), after each of the four calls of [accumulate] every
    16-bit accumulator holds the exact integer sum of the bias 2 and the
    components added so far, which is at most 2 + 4*255 = 1022 and below
    2^16; the shifted value is at most 255, so the store into the 8-bit
    output component keeps it: the output component is the exact value of
    (2 + a + b + c + d) >> 2. *)
Theorem accumulator_never_overflows (numComponents : nat)
    (p00 p01 p10 p11 : Pixel) :
  length p00 = numComponents -> length p01 = numComponents ->
  length p10 = numComponents -> length p11 = numComponents ->
  exists (acc1 acc2 acc3 acc4 : Accumulator) (outPixel : Pixel),
    accumulate numComponents (replicate numComponents accumulatedHalf) p00
      = Ok acc1
    /\ accumulate numComponents acc1 p01 = Ok acc2
    /\ accumulate numComponents acc2 p10 = Ok acc3
    /\ accumulate numComponents acc3 p11 = Ok acc4
    /\ shiftOut numComponents acc4 = Ok outPixel
    /\ convertBlock numComponents p00 p01 p10 p11 = Ok outPixel
    /\ forall c : nat, (c < numComponents)%nat ->
         let a := ByteZ.toZ (p00 !!! c) in
         let b := ByteZ.toZ (p01 !!! c) in
         let d := ByteZ.toZ (p10 !!! c) in
         let e := ByteZ.toZ (p11 !!! c) in
         acc1 !! c = Some (2 + a)
         /\ acc2 !! c = Some (2 + a + b)
         /\ acc3 !! c = Some (2 + a + b + d)
         /\ acc4 !! c = Some (2 + a + b + d + e)
         /\ 2 + a + b + d + e <= 1022
         /\ 1022 < 2 ^ 16
         /\ Z.shiftr (2 + a + b + d + e) 2 <= 255
         /\ ByteZ.toZ (outPixel !!! c) = Z.shiftr (2 + a + b + d + e) 2.
Proof.
  intros H0 H1 H2 H3.
  set (acc0 := replicate numComponents accumulatedHalf).
  set (acc1 := zip_with addWord acc0 p00).
  set (acc2 := zip_with addWord acc1 p01).
  set (acc3 := zip_with addWord acc2 p10).
  set (acc4 := zip_with addWord acc3 p11).
  assert (L0 : length acc0 = numComponents) by apply length_replicate.
  assert (L1 : length acc1 = numComponents)
    by (unfold acc1; rewrite length_zip_with; lia).
  assert (L2 : length acc2 = numComponents)
    by (unfold acc2; rewrite length_zip_with; lia).
  assert (L3 : length acc3 = numComponents)
    by (unfold acc3; rewrite length_zip_with; lia).
  assert (L4 : length acc4 = numComponents)
    by (unfold acc4; rewrite length_zip_with; lia).
  exists acc1, acc2, acc3, acc4, (shiftByte <$> acc4).
  repeat (split; [first [ apply accumulate_ok; assumption
                        | apply shiftOut_ok; assumption
                        | apply convertBlock_ok; assumption ] |]).
  intros c Hc a b d e.
  pose proof (toZ_range (p00 !!! c)). pose proof (toZ_range (p01 !!! c)).
  pose proof (toZ_range (p10 !!! c)). pose proof (toZ_range (p11 !!! c)).
  assert (E0 : acc0 !! c = Some 2)
    by (unfold acc0; rewrite lookup_replicate_2 by lia; reflexivity).
  assert (E1 : acc1 !! c = Some (2 + a))
    by (apply zip_addWord_lookup; [assumption | lia | lia]).
  assert (E2 : acc2 !! c = Some (2 + a + b))
    by (apply zip_addWord_lookup; [assumption | unfold a; lia | lia]).
  assert (E3 : acc3 !! c = Some (2 + a + b + d))
    by (apply zip_addWord_lookup; [assumption | unfold a, b; lia | lia]).
  assert (E4 : acc4 !! c = Some (2 + a + b + d + e))
    by (apply zip_addWord_lookup; [assumption | unfold a, b, d; lia | lia]).
  assert (Hs : 0 <= Z.shiftr (2 + a + b + d + e) 2 <= 255).
  { rewrite Z.shiftr_div_pow2 by lia. change (2 ^ 2) with 4.
    unfold a, b, d, e. Z.div_mod_to_equations. lia. }
  pose proof Hs as [_ Hs255].
  repeat (split; [first [assumption | unfold a, b, d, e; lia]|]).
  erewrite list_lookup_total_correct
    by (rewrite list_lookup_fmap, E4; reflexivity).
  unfold shiftByte. apply toZ_ofZ_small. exact Hs.
Qed.

Lemma accumulator_never_overflows_witness :
  exists (acc1 acc2 acc3 acc4 : Accumulator) (outPixel : Pixel),
    accumulate 2 (replicate 2 accumulatedHalf) [xff; x00] = Ok acc1
    /\ accumulate 2 acc1 [xff; x01] = Ok acc2
    /\ accumulate 2 acc2 [xff; x02] = Ok acc3
    /\ accumulate 2 acc3 [xff; x03] = Ok acc4
    /\ shiftOut 2 acc4 = Ok outPixel
    /\ convertBlock 2 [xff; x00] [xff; x01] [xff; x02] [xff; x03] = Ok outPixel
    /\ forall c : nat, (c < 2)%nat ->
         let a := ByteZ.toZ ([xff; x00] !!! c) in
         let b := ByteZ.toZ ([xff; x01] !!! c) in
         let d := ByteZ.toZ ([xff; x02] !!! c) in
         let e := ByteZ.toZ ([xff; x03] !!! c) in
         acc1 !! c = Some (2 + a)
         /\ acc2 !! c = Some (2 + a + b)
         /\ acc3 !! c = Some (2 + a + b + d)
         /\ acc4 !! c = Some (2 + a + b + d + e)
         /\ 2 + a + b + d + e <= 1022
         /\ 1022 < 2 ^ 16
         /\ Z.shiftr (2 + a + b + d + e) 2 <= 255
         /\ ByteZ.toZ (outPixel !!! c) = Z.shiftr (2 + a + b + d + e) 2.
Proof.
  apply (accumulator_never_overflows 2
           [xff; x00] [xff; x01] [xff; x02] [xff; x03]); reflexivity.
Defined.

(* --------------------------------------------------------------------- *)
(** ** The header *)

Lemma byteAt_range (bytes : list byte) (i : nat) : 0 <= byteAt bytes i < 256.
Proof. unfold byteAt. pose proof (toZ_range (nth i bytes x00)). lia. Qed.

Lemma wordAt_range (bytes : list byte) (i : nat) : 0 <= wordAt bytes i < 65536.
Proof.
  unfold wordAt.
  pose proof (byteAt_range bytes i). pose proof (byteAt_range bytes (i + 1)).
  lia.
Qed.

Lemma land_ones_range (z : Z) (n : Z) :
  0 <= n -> 0 <= Z.land z (Z.ones n) < 2 ^ n.
Proof.
  intros Hn. rewrite Z.land_ones by assumption.
  apply Z.mod_pos_bound. apply Z.pow_pos_nonneg; lia.
Qed.

(** A header decoded from bytes is in the range of its type. *)
Lemma decodeHeader_wf (bytes : list byte) : wfHeader (decodeHeader bytes).
Proof.
  unfold wfHeader, decodeHeader, decodeDescriptor. simpl.
  repeat split;
    try apply byteAt_range; try apply wordAt_range;
    first [ apply (land_ones_range _ 4); lia
          | apply (land_ones_range _ 1); lia
          | apply (land_ones_range _ 2); lia ].
Qed.

Lemma ofZ_low (a b : Z) : ByteZ.ofZ (a + 256 * b) = ByteZ.ofZ a.
Proof.
  unfold ByteZ.ofZ. replace (a + 256 * b) with (a + b * 256) by lia.
  rewrite Z_mod_plus_full. reflexivity.
Qed.

Lemma encodeWord_wordAt (b0 b1 : byte) :
  encodeWord (ByteZ.toZ b0 + 256 * ByteZ.toZ b1) = [b0; b1].
Proof.
  unfold encodeWord. rewrite ofZ_low, ofZ_toZ.
  rewrite Z.shiftr_div_pow2 by lia. change (2 ^ 8) with 256.
  pose proof (toZ_range b0).
  replace ((ByteZ.toZ b0 + 256 * ByteZ.toZ b1) / 256) with (ByteZ.toZ b1)
    by (Z.div_mod_to_equations; lia).
  rewrite ofZ_toZ. reflexivity.
Qed.

Lemma encode_decode_descriptor (b : byte) :
  ByteZ.ofZ (encodeDescriptor (decodeDescriptor (ByteZ.toZ b))) = b.
Proof. destruct b; reflexivity. Qed.

(** Decoding the 18 bytes of a header and encoding the result gives the
    bytes back: the record loses nothing of the packed layout. *)
Lemma encode_decode_header (bytes : list byte) :
  length bytes = Header.sizeof -> encodeHeader (decodeHeader bytes) = bytes.
Proof.
  intros Hlen.
  do 18 (destruct bytes as [|? bytes]; [discriminate Hlen|]).
  destruct bytes; [|discriminate Hlen].
  unfold encodeHeader, decodeHeader, wordAt, byteAt.
  cbn [nth Nat.add Header.idLength Header.colorMapType Header.type
       Header.colorMapSpecification Header.specification
       ColorMapSpecification.offset ColorMapSpecification.size
       ColorMapSpecification.bpp Specification.xOrigin Specification.yOrigin
       Specification.width Specification.height Specification.bpp
       Specification.descriptor].
  rewrite !encodeWord_wordAt, !ofZ_toZ, encode_decode_descriptor.
  reflexivity.
Qed.

(** The descriptor byte of the output header is the input's. *)
Lemma descriptor_byte_unchanged (bytes : list byte) :
  ByteZ.ofZ (encodeDescriptor
               (Specification.descriptor
                  (Header.specification (deriveOutHeader (decodeHeader bytes)))))
  = nth 17 bytes x00.
Proof. apply encode_decode_descriptor. Qed.

Lemma ceilHalf_spec (z : Z) : 2 * ceilHalf z - 1 <= z <= 2 * ceilHalf z.
Proof. unfold ceilHalf. Z.div_mod_to_equations. lia. Qed.

Lemma floorHalf_spec (z : Z) : 2 * floorHalf z <= z <= 2 * floorHalf z + 1.
Proof. unfold floorHalf. Z.div_mod_to_equations. lia. Qed.

Lemma shiftr1_floor (z : Z) : Z.shiftr z 1 = floorHalf z.
Proof. unfold floorHalf. rewrite Z.shiftr_div_pow2 by lia. reflexivity. Qed.

Lemma shiftr1_ceil (z : Z) : Z.shiftr (z + 1) 1 = ceilHalf z.
Proof.
  unfold ceilHalf. rewrite Z.shiftr_div_pow2 by lia. change (2 ^ 1) with 2.
  Z.div_mod_to_equations. lia.
Qed.

(** C2: for every header in the range of its type that passes [inspect],
    the output header has the fields of the input header except four:
    the width and the height are the ceilings of half the input's, the x
    and y origins the floors of half the input's; idLength, colorMapType,
    the image type, the color-map specification, the pixel depth and the
    whole descriptor (the direction flag included) are the input's. *)
Theorem output_header_fields (h : Header.t) :
  wfHeader h ->
  inspect h = Ok tt ->
  deriveOutHeader h =
  {| Header.idLength := Header.idLength h;
     Header.colorMapType := Header.colorMapType h;
     Header.type := Header.type h;
     Header.colorMapSpecification := Header.colorMapSpecification h;
     Header.specification :=
       {| Specification.xOrigin :=
            floorHalf (Specification.xOrigin (Header.specification h));
          Specification.yOrigin :=
            floorHalf (Specification.yOrigin (Header.specification h));
          Specification.width :=
            ceilHalf (Specification.width (Header.specification h));
          Specification.height :=
            ceilHalf (Specification.height (Header.specification h));
          Specification.bpp := Specification.bpp (Header.specification h);
          Specification.descriptor :=
            Specification.descriptor (Header.specification h) |} |}.
Proof.
  intros Hwf _. unfold wfHeader in Hwf. unfold deriveOutHeader.
  destruct Hwf as (_ & _ & _ & _ & _ & _ & Hx & Hy & Hw & Hh & _).
  rewrite !shiftr1_ceil, !shiftr1_floor.
  pose proof (floorHalf_spec (Specification.xOrigin (Header.specification h))).
  pose proof (floorHalf_spec (Specification.yOrigin (Header.specification h))).
  pose proof (ceilHalf_spec (Specification.width (Header.specification h))).
  pose proof (ceilHalf_spec (Specification.height (Header.specification h))).
  rewrite !toWord_small by lia.
  reflexivity.
Qed.

Lemma output_header_fields_witness :
  deriveOutHeader
    (Header.mk 0 0 2 (ColorMapSpecification.mk 0 0 0)
       (Specification.mk 7 9 3 5 24 (Descriptor.mk 0 0 1 0)))
  = Header.mk 0 0 2 (ColorMapSpecification.mk 0 0 0)
      (Specification.mk (floorHalf 7) (floorHalf 9) (ceilHalf 3) (ceilHalf 5)
         24 (Descriptor.mk 0 0 1 0)).
Proof.
  apply (output_header_fields
           (Header.mk 0 0 2 (ColorMapSpecification.mk 0 0 0)
              (Specification.mk 7 9 3 5 24 (Descriptor.mk 0 0 1 0)))).
  - unfold wfHeader. simpl. lia.
  - reflexivity.
Defined.

Lemma enforce_true (e : ExitStatus) : enforce true e = Ok tt.
Proof. reflexivity. Qed.

Lemma depth_checks (b : Z) :
  (8 <=? b) && (b <=? 32) && (b mod 8 =? 0)
  = ((b =? 8) || (b =? 16) || (b =? 24) || (b =? 32)) && (b mod 8 =? 0).
Proof.
  destruct (Z.eqb_spec (b mod 8) 0) as [Hm|Hm];
    [|rewrite !andb_false_r; reflexivity].
  rewrite !andb_true_r.
  destruct (Z.leb_spec 8 b), (Z.leb_spec b 32),
    (Z.eqb_spec b 8), (Z.eqb_spec b 16), (Z.eqb_spec b 24), (Z.eqb_spec b 32);
    simpl; try reflexivity; exfalso;
    revert Hm; Z.div_mod_to_equations; lia.
Qed.

Lemma find_first_violation (h : Header.t) (pre post : list Invariant)
    (i : Invariant) :
  forallb (fun j => holds j h) pre = true ->
  holds i h = false ->
  List.find (fun j => negb (holds j h)) (pre ++ i :: post) = Some i.
Proof.
  intros Hpre Hi. induction pre as [|j pre IH]; simpl in *.
  - rewrite Hi. reflexivity.
  - apply andb_prop in Hpre as [Hj Hpre]. rewrite Hj. simpl. auto.
Qed.

Lemma find_no_violation (h : Header.t) (l : list Invariant) :
  forallb (fun j => holds j h) l = true ->
  List.find (fun j => negb (holds j h)) l = None.
Proof.
  intros Hl. induction l as [|j l IH]; simpl in *; [reflexivity|].
  apply andb_prop in Hl as [Hj Hl]. rewrite Hj. simpl. auto.
Qed.

Lemma inspect_validate (h : Header.t) : inspect h = validate h.
Proof.
  unfold inspect, validate, invariantOrder, holds. cbn [List.find].
  rewrite <- depth_checks.
  repeat match goal with
         | |- context [enforce ?c _] =>
             destruct c eqn:?; cbn [negb andb enforce rbind];
             [| reflexivity]
         end.
  all: try reflexivity.
Qed.

(** C6: [inspect] applies the invariants in a fixed order, and the first
    one violated decides the outcome: the exit status is the error kind of
    that invariant, badInputFormat (exit code 6) for a non-zero color-map
    offset, size or bits per entry, a zero width, a zero height and a
    non-zero reserved bit, unsupportedInputFormat (exit code 7) for a color
    map that is present, a pixel depth outside 8, 16, 24, 32 or not a
    multiple of 8, attribute bits outside 0 and 8 and a non-zero
    interleave; a header violating none passes. *)
Theorem inspect_first_violation (h : Header.t) :
  inspect h = validate h
  /\ (forall (pre post : list Invariant) (i : Invariant),
        invariantOrder = pre ++ i :: post ->
        forallb (fun j => holds j h) pre = true ->
        holds i h = false ->
        inspect h = Exit (errorKind i))
  /\ (forallb (fun j => holds j h) invariantOrder = true -> inspect h = Ok tt)
  /\ (forall i : Invariant,
        match i with
        | ColorMapOffsetZero | ColorMapSizeZero | ColorMapBitsZero
        | WidthPositive | HeightPositive | ReservedZero =>
            errorKind i = badInputFormat /\ exitCode (errorKind i) = 6
        | NoColorMap | DepthSupported | AttributeBitsSupported
        | NotInterleaved =>
            errorKind i = unsupportedInputFormat /\ exitCode (errorKind i) = 7
        end).
Proof.
  split; [apply inspect_validate|]. split; [|split].
  - intros pre post i Horder Hpre Hi.
    rewrite inspect_validate. unfold validate. rewrite Horder.
    rewrite (find_first_violation h pre post i Hpre Hi). reflexivity.
  - intros Hall. rewrite inspect_validate. unfold validate.
    rewrite (find_no_violation h _ Hall). reflexivity.
  - intros []; split; reflexivity.
Qed.

(** The [switch] on the pixel depth, as a table. *)
Lemma copyPixels_by_table (inFile : InFile) (outFile : OutFile)
    (inHeader outHeader : Header.t) :
  copyPixels inFile outFile inHeader outHeader =
  match requiredFormat (Specification.bpp (Header.specification inHeader)) with
  | Some (numComponents, requiredType) =>
      if Header.type inHeader =? requiredType
      then convertPixels numComponents inFile outFile
             (Header.specification inHeader) (Header.specification outHeader)
      else Exit unsupportedInputFormat
  | None => Exit unsupportedInputFormat
  end.
Proof.
  unfold copyPixels, requiredFormat.
  destruct (Z.eqb_spec (Specification.bpp (Header.specification inHeader)) 8)
    as [->|H8];
    [destruct (Header.type inHeader =? _); reflexivity|].
  destruct (Z.eqb_spec (Specification.bpp (Header.specification inHeader)) 16)
    as [->|H16];
    [destruct (Header.type inHeader =? _); reflexivity|].
  destruct (Z.eqb_spec (Specification.bpp (Header.specification inHeader)) 24)
    as [->|H24];
    [destruct (Header.type inHeader =? _); reflexivity|].
  destruct (Z.eqb_spec (Specification.bpp (Header.specification inHeader)) 32)
    as [->|H32];
    [destruct (Header.type inHeader =? _); reflexivity|].
  destruct (Specification.bpp (Header.specification inHeader)) as [|p|p];
    try reflexivity.
  do 6 (try (destruct p as [p|p|]; try reflexivity; try congruence)).
Qed.

(** C7: the dispatcher follows the table: a depth of 8 or 16 bits requires
    the uncompressed grey-scale image type and a depth of 24 or 32 bits the
    uncompressed true-colour type, with 1, 2, 3 and 4 components; with the
    required type the rows are converted with that component count; any
    other depth, and a type other than the required one, exits with
    unsupportedInputFormat. *)
Theorem dispatcher_table (inFile : InFile) (outFile : OutFile)
    (inHeader outHeader : Header.t) :
  let bitsPerPixel := Specification.bpp (Header.specification inHeader) in
  let run := copyPixels inFile outFile inHeader outHeader in
  requiredFormat 8 = Some (1%nat, Header.uncompressedGrayScaleImage)
  /\ requiredFormat 16 = Some (2%nat, Header.uncompressedGrayScaleImage)
  /\ requiredFormat 24 = Some (3%nat, Header.uncompressedTrueColorImage)
  /\ requiredFormat 32 = Some (4%nat, Header.uncompressedTrueColorImage)
  /\ (forall b : Z,
        b <> 8 -> b <> 16 -> b <> 24 -> b <> 32 -> requiredFormat b = None)
  /\ (forall (numComponents : nat) (requiredType : Z),
        requiredFormat bitsPerPixel = Some (numComponents, requiredType) ->
        Header.type inHeader = requiredType ->
        run = convertPixels numComponents inFile outFile
                (Header.specification inHeader)
                (Header.specification outHeader))
  /\ (forall (numComponents : nat) (requiredType : Z),
        requiredFormat bitsPerPixel = Some (numComponents, requiredType) ->
        Header.type inHeader <> requiredType ->
        run = Exit unsupportedInputFormat)
  /\ (requiredFormat bitsPerPixel = None ->
      run = Exit unsupportedInputFormat).
Proof.
  intros bitsPerPixel run.
  repeat (split; [reflexivity|]).
  split; [|split; [|split]].
  - intros b H8 H16 H24 H32. unfold requiredFormat.
    destruct (Z.eqb_spec b 8); [contradiction|].
    destruct (Z.eqb_spec b 16); [contradiction|].
    destruct (Z.eqb_spec b 24); [contradiction|].
    destruct (Z.eqb_spec b 32); [contradiction|].
    reflexivity.
  - intros numComponents requiredType Hformat Htype.
    unfold run. rewrite copyPixels_by_table. fold bitsPerPixel.
    rewrite Hformat, Htype, Z.eqb_refl. reflexivity.
  - intros numComponents requiredType Hformat Htype.
    unfold run. rewrite copyPixels_by_table. fold bitsPerPixel.
    rewrite Hformat.
    destruct (Z.eqb_spec (Header.type inHeader) requiredType);
      [contradiction | reflexivity].
  - intros Hformat.
    unfold run. rewrite copyPixels_by_table. fold bitsPerPixel.
    rewrite Hformat. reflexivity.
Qed.

(* --------------------------------------------------------------------- *)
(** ** Reading and writing objects *)

Lemma length_chunks (size count : nat) (bytes : list byte) :
  length (chunks size count bytes) = count.
Proof.
  revert bytes. induction count as [|count IH]; intros bytes; simpl; auto.
Qed.

Lemma chunks_lookup (size count : nat) (bytes : list byte) (k : nat) :
  (k < count)%nat ->
  chunks size count bytes !! k = Some (take size (drop (k * size) bytes)).
Proof.
  revert bytes k. induction count as [|count IH]; intros bytes k Hk; [lia|].
  destruct k as [|k]; simpl.
  - reflexivity.
  - rewrite IH by lia. rewrite drop_drop. reflexivity.
Qed.

Lemma chunks_wf (size count : nat) (bytes : list byte) :
  (count * size <= length bytes)%nat ->
  wfRow size (chunks size count bytes).
Proof.
  intros Hlen. apply Forall_lookup_2. intros k p Hk.
  pose proof (lookup_lt_Some _ _ _ Hk) as Hlt. rewrite length_chunks in Hlt.
  rewrite chunks_lookup in Hk by assumption.
  injection Hk as <-. rewrite length_take, length_drop. nia.
Qed.

Lemma concat_chunks (size count : nat) (bytes : list byte) :
  (count * size <= length bytes)%nat ->
  concat (chunks size count bytes) = take (count * size) bytes.
Proof.
  revert bytes. induction count as [|count IH]; intros bytes Hlen; simpl.
  - reflexivity.
  - rewrite IH by (rewrite length_drop; lia).
    rewrite take_take_drop. reflexivity.
Qed.

Lemma fread_enough (size numObjects : nat) (inFile : InFile) :
  (0 < size)%nat ->
  (numObjects * size <= length (unread inFile))%nat ->
  fread size numObjects inFile
  = (chunks size numObjects (unread inFile),
     mkInFile (drop (numObjects * size) (unread inFile)) (eofIndicator inFile)).
Proof.
  intros Hsize Hlen. unfold fread.
  destruct (Nat.leb_spec numObjects (length (unread inFile) / size)) as [_|H];
    [reflexivity|].
  exfalso.
  assert ((numObjects <= length (unread inFile) / size)%nat)
    by (apply Nat.div_le_lower_bound; lia).
  lia.
Qed.

Lemma fread_short (size numObjects : nat) (inFile : InFile) :
  (0 < size)%nat ->
  (length (unread inFile) < numObjects * size)%nat ->
  fread size numObjects inFile
  = (chunks size (length (unread inFile) / size) (unread inFile),
     mkInFile [] true)
  /\ (length (unread inFile) / size < numObjects)%nat.
Proof.
  intros Hsize Hlen.
  assert (H : (length (unread inFile) / size < numObjects)%nat)
    by (apply Nat.Div0.div_lt_upper_bound; lia).
  split; [|exact H]. unfold fread.
  destruct (Nat.leb_spec numObjects (length (unread inFile) / size));
    [lia | reflexivity].
Qed.

Lemma readObjects_enough (size : nat) (inFile : InFile)
    (objects : list (list byte)) (numObjects : nat) :
  (0 < size)%nat ->
  (numObjects <= length objects)%nat ->
  (numObjects * size <= length (unread inFile))%nat ->
  readObjects size inFile objects numObjects
  = Ok (chunks size numObjects (unread inFile) ++ drop numObjects objects,
        mkInFile (drop (numObjects * size) (unread inFile))
                 (eofIndicator inFile)).
Proof.
  intros Hsize Hobj Hlen. unfold readObjects.
  destruct (Nat.ltb_spec (length objects) numObjects); [lia|].
  rewrite fread_enough by assumption.
  rewrite length_chunks, Nat.eqb_refl. reflexivity.
Qed.

Lemma readObjects_short (size : nat) (inFile : InFile)
    (objects : list (list byte)) (numObjects : nat) :
  (0 < size)%nat ->
  (numObjects <= length objects)%nat ->
  (length (unread inFile) < numObjects * size)%nat ->
  readObjects size inFile objects numObjects = Exit badInputFormat.
Proof.
  intros Hsize Hobj Hlen. unfold readObjects.
  destruct (Nat.ltb_spec (length objects) numObjects); [lia|].
  destruct (fread_short size numObjects inFile Hsize Hlen) as [-> Hlt].
  rewrite length_chunks.
  destruct (Nat.eqb_spec (length (unread inFile) / size) numObjects); [lia|].
  reflexivity.
Qed.

Lemma length_concat_wf (size : nat) (row : Row) :
  wfRow size row -> length (concat row) = (length row * size)%nat.
Proof.
  intros Hwf. induction Hwf as [|p row Hp _ IH]; simpl; [reflexivity|].
  rewrite length_app, IH, Hp. reflexivity.
Qed.

Lemma writeObjects_enough (size : nat) (outFile : OutFile) (row : Row) :
  (0 < size)%nat ->
  wfRow size row ->
  (length row * size <= room outFile)%nat ->
  writeObjects size outFile row (length row)
  = Ok (mkOutFile (written outFile ++ concat row)
                  (room outFile - length row * size)).
Proof.
  intros Hsize Hwf Hroom. unfold writeObjects.
  destruct (Nat.ltb_spec (length row) (length row)); [lia|].
  unfold fwrite. rewrite firstn_all.
  pose proof (length_concat_wf size row Hwf) as Hlen.
  rewrite take_ge by lia. rewrite Hlen.
  rewrite Nat.div_mul by lia. rewrite Nat.eqb_refl. reflexivity.
Qed.

Lemma writeObjects_no_crash (size : nat) (outFile : OutFile)
    (objects : list (list byte)) (numObjects : nat) :
  (numObjects <= length objects)%nat ->
  (exists outFile', writeObjects size outFile objects numObjects = Ok outFile')
  \/ writeObjects size outFile objects numObjects = Exit badOutputFile.
Proof.
  intros Hobj. unfold writeObjects.
  destruct (Nat.ltb_spec (length objects) numObjects); [lia|].
  destruct (fwrite size numObjects objects outFile) as [writeCount outFile'].
  destruct (writeCount =? numObjects)%nat; simpl; eauto.
Qed.

(* --------------------------------------------------------------------- *)
(** ** The widths of the row buffers *)

Lemma inWidthRup_spec (W : Z) :
  0 <= W < 65536 -> inWidthRup W = 2 * ((W + 1) / 2).
Proof.
  intros HW. unfold inWidthRup.
  replace (Z.lnot 1 mod 2 ^ 32) with (Z.land (Z.lnot 1) (Z.ones 32))
    by reflexivity.
  rewrite (Z.land_comm (Z.lnot 1)), Z.land_assoc, Z.land_ones by lia.
  rewrite Z.mod_small by lia.
  rewrite <- Z.ldiff_land. change 1 with (Z.ones 1) at 2.
  rewrite Z.ldiff_ones_r by lia.
  rewrite Z.shiftl_mul_pow2, Z.shiftr_div_pow2 by lia.
  change (2 ^ 1) with 2. lia.
Qed.

Lemma outColumnsRup_spec (W : Z) : outColumnsRup W = (W + 1) / 2.
Proof. unfold outColumnsRup. rewrite Z.shiftr_div_pow2 by lia. reflexivity. Qed.

Lemma inWidthRup_parity (W : Z) :
  0 <= W < 65536 ->
  inWidthRup W = if Z.odd W then W + 1 else W.
Proof.
  intros HW. rewrite inWidthRup_spec by assumption.
  rewrite (Zodd_mod W).
  destruct (Z.eqb_spec (W mod 2) 1); Z.div_mod_to_equations; lia.
Qed.

Lemma rup_nat (W : Z) :
  0 <= W < 65536 ->
  Z.to_nat (inWidthRup W) = (Z.to_nat (outColumnsRup W) * 2)%nat.
Proof.
  intros HW. rewrite inWidthRup_spec, outColumnsRup_spec by assumption.
  assert (0 <= (W + 1) / 2) by (apply Z.div_pos; lia). lia.
Qed.

(* --------------------------------------------------------------------- *)
(** ** Reading a row *)

Section RowProofs.

Variable numComponents : nat.
Hypothesis components_positive : (0 < numComponents)%nat.

Variable W : Z.
Hypothesis width_range : 0 < W < 65536.

Lemma length_decodeRow (bytes : list byte) :
  length (decodeRow numComponents W bytes) = Z.to_nat (inWidthRup W).
Proof.
  unfold decodeRow. rewrite inWidthRup_parity by lia.
  destruct (Z.odd W);
    rewrite ?length_app, length_chunks; simpl; lia.
Qed.

Lemma decodeRow_wf (bytes : list byte) :
  (Z.to_nat W * numComponents <= length bytes)%nat ->
  wfRow numComponents (decodeRow numComponents W bytes).
Proof.
  intros Hlen. unfold decodeRow.
  pose proof (chunks_wf numComponents (Z.to_nat W) bytes Hlen) as Hwf.
  destruct (Z.odd W); [|exact Hwf].
  apply Forall_app_2; [exact Hwf|].
  apply Forall_cons_2; [|apply Forall_nil_2].
  unfold pixelAt. rewrite length_take, length_drop. nia.
Qed.

Lemma decodeRow_lookup (bytes : list byte) (k : nat) :
  (k < Z.to_nat W)%nat ->
  decodeRow numComponents W bytes !! k = Some (pixelAt numComponents bytes k).
Proof.
  intros Hk. unfold decodeRow.
  destruct (Z.odd W);
    rewrite ?lookup_app_l by (rewrite length_chunks; lia);
    apply chunks_lookup; assumption.
Qed.

Lemma decodeRow_padding (bytes : list byte) :
  Z.odd W = true ->
  decodeRow numComponents W bytes !! Z.to_nat W
  = Some (pixelAt numComponents bytes (Z.to_nat W - 1)).
Proof.
  intros Hodd. unfold decodeRow. rewrite Hodd.
  rewrite lookup_app_r by (rewrite length_chunks; lia).
  rewrite length_chunks, Nat.sub_diag. reflexivity.
Qed.

Lemma readRow_enough (inFile : InFile) (row : Row) :
  length row = Z.to_nat (inWidthRup W) ->
  (Z.to_nat W * numComponents <= length (unread inFile))%nat ->
  readRow numComponents inFile row W
  = Ok (decodeRow numComponents W (unread inFile),
        mkInFile (drop (Z.to_nat W * numComponents) (unread inFile))
                 (eofIndicator inFile)).
Proof.
  intros Hrow Hlen. unfold readRow.
  pose proof (inWidthRup_parity W ltac:(lia)) as Hrup.
  set (n := Z.to_nat W) in *.
  set (pixels := chunks numComponents n (unread inFile)).
  assert (Hlast : pixels !! (n - 1)%nat
                  = Some (pixelAt numComponents (unread inFile) (n - 1)))
    by (apply chunks_lookup; lia).
  assert (Hpix : length pixels = n) by apply length_chunks.
  rewrite readObjects_enough
    by (try assumption; rewrite Hrow, Hrup; destruct (Z.odd W); lia).
  cbn [rbind]. fold pixels.
  unfold at_indexZ. destruct (Z.ltb_spec (W - 1) 0); [lia|].
  replace (Z.to_nat (W - 1)) with (n - 1)%nat by lia.
  rewrite (at_index_Some _ _ _ (lookup_app_l_Some _ _ _ _ Hlast)).
  cbn [rbind].
  rewrite set_index_lt by (rewrite length_app, Hpix; lia).
  cbn [rbind]. f_equal. f_equal.
  unfold decodeRow. fold n. fold pixels.
  rewrite length_app, length_drop, Hpix, Hrow, Hrup.
  destruct (Z.odd W).
  - replace (n + (Z.to_nat (W + 1) - n) - 1)%nat with (length pixels + 0)%nat
      by lia.
    rewrite insert_app_r.
    destruct (drop n row) as [|p rest] eqn:Hdrop.
    + apply (f_equal length) in Hdrop.
      rewrite length_drop, Hrow, Hrup in Hdrop. simpl in Hdrop. lia.
    + assert (rest = []) as ->.
      { apply (f_equal length) in Hdrop.
        rewrite length_drop, Hrow, Hrup in Hdrop. simpl in Hdrop.
        destruct rest; [reflexivity | simpl in Hdrop; lia]. }
      reflexivity.
  - rewrite drop_ge by (rewrite Hrow, Hrup; lia).
    rewrite app_nil_r.
    apply list_insert_id.
    replace (n + (Z.to_nat W - n) - 1)%nat with (n - 1)%nat by lia.
    exact Hlast.
Qed.

Lemma readRow_short (inFile : InFile) (row : Row) :
  length row = Z.to_nat (inWidthRup W) ->
  (length (unread inFile) < Z.to_nat W * numComponents)%nat ->
  readRow numComponents inFile row W = Exit badInputFormat.
Proof.
  intros Hrow Hlen. unfold readRow.
  pose proof (inWidthRup_parity W ltac:(lia)) as Hrup.
  rewrite readObjects_short
    by (try assumption; rewrite Hrow, Hrup; destruct (Z.odd W); lia).
  reflexivity.
Qed.

End RowProofs.

(** C4: for a width W > 0 (a [Word]) and a row buffer of the length the
    caller allocates, (W+1) & ~1, which is the next even number >= W:
    when the stream holds at least W pixels, [readRow] returns a row of
    that length whose first W pixels are the W pixels at the head of the
    stream, in order, the stream being advanced past them, and when W is
    odd the pixel at index W is the pixel at index W-1; when the stream
    holds fewer than W pixels, [readRow] exits with badInputFormat. *)
Theorem readRow_pads_odd_width (numComponents : nat) (W : Z)
    (inFile : InFile) (row : Row) :
  (0 < numComponents)%nat ->
  0 < W < 65536 ->
  length row = Z.to_nat (inWidthRup W) ->
  (W <= inWidthRup W <= W + 1 /\ Z.even (inWidthRup W) = true)
  /\ ((Z.to_nat W * numComponents <= length (unread inFile))%nat ->
      exists (row' : Row) (inFile' : InFile),
        readRow numComponents inFile row W = Ok (row', inFile')
        /\ length row' = Z.to_nat (inWidthRup W)
        /\ (forall k : nat, (k < Z.to_nat W)%nat ->
              row' !! k = Some (pixelAt numComponents (unread inFile) k))
        /\ (Z.odd W = true ->
              exists p : Pixel,
                row' !! Z.to_nat W = Some p
                /\ row' !! (Z.to_nat W - 1)%nat = Some p)
        /\ unread inFile'
           = drop (Z.to_nat W * numComponents) (unread inFile))
  /\ ((length (unread inFile) < Z.to_nat W * numComponents)%nat ->
      readRow numComponents inFile row W = Exit badInputFormat).
Proof.
  intros HN HW Hrow. split; [|split].
  - rewrite inWidthRup_spec by lia. split.
    + Z.div_mod_to_equations. lia.
    + rewrite Z.even_mul. reflexivity.
  - intros Hlen.
    exists (decodeRow numComponents W (unread inFile)).
    eexists. split; [apply readRow_enough; assumption|].
    split; [apply length_decodeRow; assumption|].
    split; [intros k Hk; apply decodeRow_lookup; assumption|].
    split; [|reflexivity].
    intros Hodd.
    exists (pixelAt numComponents (unread inFile) (Z.to_nat W - 1)).
    split; [apply decodeRow_padding; assumption|].
    apply decodeRow_lookup; [assumption|lia].
  - intros Hlen. apply readRow_short; assumption.
Qed.

Lemma readRow_pads_odd_width_witness :
  (3 <= inWidthRup 3 <= 3 + 1 /\ Z.even (inWidthRup 3) = true)
  /\ ((Z.to_nat 3 * 1 <= length [x0a; x14; x1e; x28])%nat ->
      exists (row' : Row) (inFile' : InFile),
        readRow 1 (mkInFile [x0a; x14; x1e; x28] false) (newRow 1 4) 3
        = Ok (row', inFile')
        /\ length row' = Z.to_nat (inWidthRup 3)
        /\ (forall k : nat, (k < Z.to_nat 3)%nat ->
              row' !! k = Some (pixelAt 1 [x0a; x14; x1e; x28] k))
        /\ (Z.odd 3 = true ->
              exists p : Pixel,
                row' !! Z.to_nat 3 = Some p
                /\ row' !! (Z.to_nat 3 - 1)%nat = Some p)
        /\ unread inFile' = drop (Z.to_nat 3 * 1) [x0a; x14; x1e; x28])
  /\ ((length [x0a; x14; x1e; x28] < Z.to_nat 3 * 1)%nat ->
      readRow 1 (mkInFile [x0a; x14; x1e; x28] false) (newRow 1 4) 3
      = Exit badInputFormat).
Proof.
  apply (readRow_pads_odd_width 1 3 (mkInFile [x0a; x14; x1e; x28] false)
           (newRow 1 4)).
  - lia.
  - lia.
  - reflexivity.
Defined.

Example readRow_odd_width :
  readRow 1 (mkInFile [x0a; x14; x1e; x28] false) (newRow 1 4) 3
  = Ok ([[x0a]; [x14]; [x1e]; [x1e]], mkInFile [x28] false).
Proof. reflexivity. Qed.

Example readRow_truncated :
  readRow 1 (mkInFile [x0a; x14] false) (newRow 1 4) 3 = Exit badInputFormat.
Proof. reflexivity. Qed.

(* --------------------------------------------------------------------- *)
(** ** The rows of the image *)

Lemma boxRow_wf (numComponents : nat) (rowA rowB : Row) :
  wfRow numComponents (boxRow numComponents rowA rowB).
Proof.
  apply Forall_lookup_2. intros k p Hk. unfold boxRow in Hk.
  rewrite list_lookup_fmap in Hk.
  destruct (seq 0 (length rowA / 2) !! k); [|discriminate].
  injection Hk as <-. apply length_boxPixel.
Qed.

Lemma rowBytes_cons (row : Row) (rows : list Row) :
  rowBytes (row :: rows) = concat row ++ rowBytes rows.
Proof. reflexivity. Qed.

Lemma rowBytes_app (rows1 rows2 : list Row) :
  rowBytes (rows1 ++ rows2) = rowBytes rows1 ++ rowBytes rows2.
Proof.
  unfold rowBytes. rewrite fmap_app, concat_app. reflexivity.
Qed.

(* --------------------------------------------------------------------- *)
(** ** The loop over the pairs of rows *)

Section PipelineProofs.

Variable numComponents : nat.
Hypothesis components_positive : (0 < numComponents)%nat.

Variable W : Z.
Hypothesis width_range : 0 < W < 65536.

(** The data of the image, from its first row on. *)
Variable bytes : list byte.

Lemma length_inputRow (j : nat) :
  length (inputRow numComponents W bytes j) = (outColumns W * 2)%nat.
Proof.
  unfold inputRow. rewrite length_decodeRow by assumption.
  apply rup_nat. lia.
Qed.

Lemma inputRow_wf (j : nat) :
  (S j * rowSize numComponents W <= length bytes)%nat ->
  wfRow numComponents (inputRow numComponents W bytes j).
Proof.
  intros Hlen. unfold inputRow. apply decodeRow_wf; try assumption.
  rewrite length_drop. unfold rowSize in Hlen. lia.
Qed.

Lemma length_boxRow_inputRow (j j' : nat) :
  length (boxRow numComponents (inputRow numComponents W bytes j)
            (inputRow numComponents W bytes j')) = outColumns W.
Proof.
  rewrite length_boxRow, length_inputRow. apply Nat.div_mul. lia.
Qed.

Lemma readRow_inputRow (inFile : InFile) (row : Row) (j : nat) :
  length row = (outColumns W * 2)%nat ->
  unread inFile = drop (j * rowSize numComponents W) bytes ->
  (S j * rowSize numComponents W <= length bytes)%nat ->
  readRow numComponents inFile row W
  = Ok (inputRow numComponents W bytes j,
        mkInFile (drop (S j * rowSize numComponents W) bytes)
                 (eofIndicator inFile)).
Proof.
  intros Hrow Hfile Hlen.
  rewrite readRow_enough; try assumption.
  - unfold inputRow. rewrite Hfile, drop_drop.
    replace (S j * rowSize numComponents W)%nat
      with (j * rowSize numComponents W + Z.to_nat W * numComponents)%nat
      by (unfold rowSize; lia).
    reflexivity.
  - rewrite Hrow. symmetry. apply rup_nat. lia.
  - rewrite Hfile, length_drop. unfold rowSize in *. lia.
Qed.

Lemma writeRow_boxRow (outFile : OutFile) (j j' : nat) :
  (outSize numComponents W <= room outFile)%nat ->
  writeRow numComponents outFile
    (boxRow numComponents (inputRow numComponents W bytes j)
       (inputRow numComponents W bytes j'))
  = Ok (mkOutFile
          (written outFile
           ++ concat (boxRow numComponents (inputRow numComponents W bytes j)
                        (inputRow numComponents W bytes j')))
          (room outFile - outSize numComponents W)).
Proof.
  intros Hroom. unfold writeRow.
  rewrite writeObjects_enough; try assumption.
  - rewrite length_boxRow_inputRow. reflexivity.
  - apply boxRow_wf.
  - rewrite length_boxRow_inputRow. exact Hroom.
Qed.

Lemma convertRow_inputRows (outRow : Row) (j j' : nat) :
  length outRow = outColumns W ->
  (S j * rowSize numComponents W <= length bytes)%nat ->
  (S j' * rowSize numComponents W <= length bytes)%nat ->
  convertRow numComponents (inputRow numComponents W bytes j)
    (inputRow numComponents W bytes j') outRow
  = Ok (boxRow numComponents (inputRow numComponents W bytes j)
          (inputRow numComponents W bytes j')).
Proof.
  intros Hout Hj Hj'. apply convertRow_ok.
  - apply inputRow_wf. exact Hj.
  - apply inputRow_wf. exact Hj'.
  - rewrite !length_inputRow. reflexivity.
  - rewrite length_inputRow, Hout. reflexivity.
Qed.

Lemma convertPairs_ok (i : nat) :
  forall (first : nat) (inFile : InFile) (outFile : OutFile)
         (inRow0 inRow1 outRow : Row),
    length inRow0 = (outColumns W * 2)%nat ->
    length inRow1 = (outColumns W * 2)%nat ->
    length outRow = outColumns W ->
    unread inFile = drop (2 * first * rowSize numComponents W) bytes ->
    (2 * (first + i) * rowSize numComponents W <= length bytes)%nat ->
    (i * outSize numComponents W <= room outFile)%nat ->
    exists inRow0' inRow1' outRow' : Row,
      convertPairs numComponents i inFile outFile W inRow0 inRow1 outRow
      = Ok (mkInFile (drop (2 * (first + i) * rowSize numComponents W) bytes)
                     (eofIndicator inFile),
            mkOutFile
              (written outFile
               ++ rowBytes (pairedRows numComponents W bytes first i))
              (room outFile - i * outSize numComponents W),
            (inRow0', inRow1', outRow'))
      /\ length inRow0' = (outColumns W * 2)%nat
      /\ length inRow1' = (outColumns W * 2)%nat
      /\ length outRow' = outColumns W.
Proof.
  induction i as [|i IH];
    intros first inFile outFile inRow0 inRow1 outRow
           H0 H1 Hout Hfile Hlen Hroom.
  - exists inRow0, inRow1, outRow. cbn [convertPairs].
    rewrite Nat.add_0_r, <- Hfile, Nat.sub_0_r. unfold pairedRows. simpl.
    rewrite app_nil_r. destruct inFile, outFile. auto.
  - cbn [convertPairs].
    rewrite (readRow_inputRow inFile inRow0 (2 * first))
      by (try assumption; lia).
    cbn [rbind].
    rewrite (readRow_inputRow _ inRow1 (2 * first + 1))
      by (try assumption; cbn [unread]; f_equal; lia).
    cbn [rbind eofIndicator].
    rewrite convertRow_inputRows by (try assumption; lia).
    cbn [rbind].
    rewrite writeRow_boxRow by (simpl in Hroom; lia).
    cbn [rbind].
    destruct (IH (S first)
                (mkInFile
                   (drop (S (2 * first + 1) * rowSize numComponents W) bytes)
                   (eofIndicator inFile))
                (mkOutFile
                   (written outFile
                    ++ concat
                         (boxRow numComponents
                            (inputRow numComponents W bytes (2 * first))
                            (inputRow numComponents W bytes (2 * first + 1))))
                   (room outFile - outSize numComponents W))
                (inputRow numComponents W bytes (2 * first))
                (inputRow numComponents W bytes (2 * first + 1))
                (boxRow numComponents
                   (inputRow numComponents W bytes (2 * first))
                   (inputRow numComponents W bytes (2 * first + 1))))
      as (r0 & r1 & out & Hrun & L0 & L1 & Lout).
    + apply length_inputRow.
    + apply length_inputRow.
    + apply length_boxRow_inputRow.
    + cbn [unread]. f_equal. lia.
    + lia.
    + cbn [room]. simpl in Hroom. lia.
    + exists r0, r1, out. split; [|auto].
      rewrite Hrun. cbn [eofIndicator written room].
      replace (2 * (S first + i) * rowSize numComponents W)%nat
        with (2 * (first + S i) * rowSize numComponents W)%nat by lia.
      replace (room outFile - outSize numComponents W
               - i * outSize numComponents W)%nat
        with (room outFile - S i * outSize numComponents W)%nat
        by (simpl; lia).
      unfold pairedRows. cbn [seq]. rewrite fmap_cons, rowBytes_cons.
      rewrite <- app_assoc. reflexivity.
Qed.

End PipelineProofs.

(* --------------------------------------------------------------------- *)
(** ** The conversion of all rows *)

Lemma land1_odd (z : Z) : negb (Z.land z 1 =? 0) = Z.odd z.
Proof.
  change 1 with (Z.ones 1) at 1. rewrite Z.land_ones by lia.
  change (2 ^ 1) with 2. rewrite (Zodd_mod z).
  destruct (Z.eqb_spec (z mod 2) 0), (Z.eqb_spec (z mod 2) 1);
    try reflexivity; exfalso; Z.div_mod_to_equations; lia.
Qed.

Lemma assertExtent_ok (numComponents : nat) (row : Row) (numElements : Z) :
  0 < numElements ->
  length row = Z.to_nat numElements ->
  assertExtent numComponents row numElements = Ok tt.
Proof.
  intros Hpos Hlen. unfold assertExtent.
  destruct row as [|p row]; [simpl in Hlen; lia|].
  rewrite Hlen, Z2Nat.id by lia. rewrite Z.eqb_refl. reflexivity.
Qed.

Lemma length_newRow (numComponents numElements : nat) :
  length (newRow numComponents numElements) = numElements.
Proof. apply length_replicate. Qed.

Lemma newRow_wf (numComponents numElements : nat) :
  wfRow numComponents (newRow numComponents numElements).
Proof. apply Forall_replicate. apply length_replicate. Qed.

Lemma halves_nat (H : Z) :
  0 <= H ->
  Z.to_nat H
  = (2 * Z.to_nat (Z.shiftr H 1) + (if Z.odd H then 1 else 0))%nat
  /\ Z.to_nat (ceilHalf H)
     = (Z.to_nat (Z.shiftr H 1) + (if Z.odd H then 1 else 0))%nat.
Proof.
  intros HH. unfold ceilHalf. rewrite Z.shiftr_div_pow2 by lia.
  change (2 ^ 1) with 2. rewrite (Zodd_mod H).
  destruct (Z.eqb_spec (H mod 2) 1); Z.div_mod_to_equations; lia.
Qed.

Lemma length_outputRows (numComponents : nat) (W H : Z) (bytes : list byte) :
  0 <= H ->
  length (outputRows numComponents W H bytes) = Z.to_nat (ceilHalf H).
Proof.
  intros HH. destruct (halves_nat H HH) as [_ ->].
  unfold outputRows, pairedRows, oddRow.
  rewrite length_app, length_fmap, length_seq.
  destruct (Z.odd H); reflexivity.
Qed.

Lemma convertPixels_ok (numComponents : nat)
    (inSpecification outSpecification : Specification.t)
    (inFile : InFile) (outFile : OutFile) :
  let W := Specification.width inSpecification in
  let H := Specification.height inSpecification in
  (0 < numComponents)%nat ->
  0 < W < 65536 ->
  0 <= H < 65536 ->
  (Z.to_nat H * rowSize numComponents W <= length (unread inFile))%nat ->
  (Z.to_nat (ceilHalf H) * outSize numComponents W <= room outFile)%nat ->
  convertPixels numComponents inFile outFile inSpecification outSpecification
  = Ok (mkInFile
          (drop (Z.to_nat H * rowSize numComponents W) (unread inFile))
          (eofIndicator inFile),
        mkOutFile
          (written outFile
           ++ rowBytes (outputRows numComponents W H (unread inFile)))
          (room outFile - Z.to_nat (ceilHalf H) * outSize numComponents W)).
Proof.
  intros W H HN HW HH Hlen Hroom.
  destruct (halves_nat H ltac:(lia)) as [Hnat Hceil].
  rewrite Hceil in *. rewrite Hnat in Hlen |- *.
  set (h2 := Z.to_nat (Z.shiftr H 1)) in *.
  set (rs := rowSize numComponents W) in *.
  set (os := outSize numComponents W) in *.
  unfold convertPixels. fold W. fold H.
  pose proof (rup_nat W ltac:(lia)) as Hrup.
  pose proof (inWidthRup_spec W ltac:(lia)) as Hrupz.
  pose proof (outColumnsRup_spec W) as Houtz.
  assert (0 < (W + 1) / 2) by (Z.div_mod_to_equations; lia).
  assert (Hhalf : inWidthRup W / 2 = outColumnsRup W)
    by (rewrite Houtz, Hrupz, Z.mul_comm, Z.div_mul by lia; reflexivity).
  assert (E0 : assertExtent numComponents
                 (newRow numComponents (Z.to_nat (inWidthRup W)))
                 (inWidthRup W) = Ok tt)
    by (apply assertExtent_ok; [lia | apply length_newRow]).
  assert (E2 : assertExtent numComponents
                 (newRow numComponents (Z.to_nat (outColumnsRup W)))
                 (inWidthRup W / 2) = Ok tt)
    by (apply assertExtent_ok;
        [lia | rewrite length_newRow, Hhalf; reflexivity]).
  rewrite E0, E2. cbn [rbind].
  destruct (convertPairs_ok numComponents HN W HW (unread inFile) h2 0
              inFile outFile
              (newRow numComponents (Z.to_nat (inWidthRup W)))
              (newRow numComponents (Z.to_nat (inWidthRup W)))
              (newRow numComponents (Z.to_nat (outColumnsRup W))))
    as (r0 & r1 & out & Hrun & L0 & L1 & Lout);
    try (rewrite length_newRow; auto; fail).
  { reflexivity. }
  { fold rs. lia. }
  { fold os. lia. }
  unfold outRowsComplete. fold h2. rewrite Hrun. cbn [rbind].
  rewrite land1_odd. unfold outputRows, oddRow. fold h2.
  fold rs os.
  destruct (Z.odd H) eqn:Hodd.
  - rewrite (readRow_inputRow numComponents HN W HW (unread inFile) _ r0
               (2 * (0 + h2)))
      by (try assumption; try reflexivity; fold rs; lia).
    cbn [rbind].
    rewrite convertRow_inputRows
      by (try assumption; fold rs; lia).
    cbn [rbind].
    rewrite writeRow_boxRow
      by (try assumption; cbn [room]; fold os; lia).
    cbn [rbind written room eofIndicator].
    fold rs os.
    rewrite rowBytes_app, <- app_assoc.
    replace (Z.to_nat H - 1)%nat with (2 * (0 + h2))%nat by lia.
    rewrite (rowBytes_cons _ []). change (rowBytes []) with (@nil byte).
    rewrite (app_nil_r (concat _)).
    replace (S (2 * (0 + h2)) * rs)%nat with ((2 * h2 + 1) * rs)%nat
      by lia.
    replace (room outFile - h2 * os - os)%nat
      with (room outFile - (h2 + 1) * os)%nat by lia.
    reflexivity.
  - rewrite app_nil_r.
    replace (2 * (0 + h2) * rs)%nat with ((2 * h2 + 0) * rs)%nat
      by lia.
    replace (h2 + 0)%nat with h2 by lia.
    reflexivity.
Qed.

(** C3: for a valid height H and width W, a stream holding the H rows and
    an output accepting the result, the [for] loop makes H >> 1 turns, each
    reading two rows, reducing them and writing one row: it consumes
    2 * (H >> 1) rows and writes the H >> 1 rows made of the input rows 2j
    and 2j+1.  When H is odd one more row is read and reduced against
    itself.  In all, exactly H rows are consumed and ceil(H/2) rows are
    written. *)
Theorem pixel_pipeline_rows (numComponents : nat)
    (inSpecification outSpecification : Specification.t)
    (inFile : InFile) (outFile : OutFile) :
  let W := Specification.width inSpecification in
  let H := Specification.height inSpecification in
  let data := unread inFile in
  let rowSize := rowSize numComponents W in
  let outSize := outSize numComponents W in
  let pairs := Z.to_nat (Z.shiftr H 1) in
  (0 < numComponents)%nat ->
  0 < W < 65536 ->
  0 < H < 65536 ->
  (Z.to_nat H * rowSize <= length data)%nat ->
  (Z.to_nat (ceilHalf H) * outSize <= room outFile)%nat ->
  (exists inRow0 inRow1 outRow : Row,
     convertPairs numComponents pairs inFile outFile W
       (newRow numComponents (Z.to_nat (inWidthRup W)))
       (newRow numComponents (Z.to_nat (inWidthRup W)))
       (newRow numComponents (Z.to_nat (outColumnsRup W)))
     = Ok (mkInFile (drop (2 * pairs * rowSize) data) (eofIndicator inFile),
           mkOutFile
             (written outFile
              ++ rowBytes (pairedRows numComponents W data 0 pairs))
             (room outFile - pairs * outSize),
           (inRow0, inRow1, outRow)))
  /\ convertPixels numComponents inFile outFile
       inSpecification outSpecification
     = Ok (mkInFile (drop (Z.to_nat H * rowSize) data) (eofIndicator inFile),
           mkOutFile
             (written outFile
              ++ rowBytes (outputRows numComponents W H data))
             (room outFile - Z.to_nat (ceilHalf H) * outSize))
  /\ length (outputRows numComponents W H data) = Z.to_nat (ceilHalf H)
  /\ (forall j : nat, (j < pairs)%nat ->
        outputRows numComponents W H data !! j
        = Some (boxRow numComponents
                  (inputRow numComponents W data (2 * j))
                  (inputRow numComponents W data (2 * j + 1))))
  /\ (Z.odd H = true ->
        outputRows numComponents W H data !! pairs
        = Some (boxRow numComponents
                  (inputRow numComponents W data (Z.to_nat H - 1))
                  (inputRow numComponents W data (Z.to_nat H - 1))))
  /\ (Z.odd H = false ->
        outputRows numComponents W H data
        = pairedRows numComponents W data 0 pairs).
Proof.
  intros W H data rowSize outSize pairs HN HW HH Hlen Hroom.
  destruct (halves_nat H ltac:(lia)) as [Hnat Hceil]. fold pairs in Hnat, Hceil.
  split; [|split; [|split; [|split; [|split]]]].
  - destruct (convertPairs_ok numComponents HN W HW data pairs 0
                inFile outFile
                (newRow numComponents (Z.to_nat (inWidthRup W)))
                (newRow numComponents (Z.to_nat (inWidthRup W)))
                (newRow numComponents (Z.to_nat (outColumnsRup W))))
      as (r0 & r1 & out & Hrun & _);
      try (rewrite length_newRow; first [reflexivity | apply rup_nat; lia]).
    + reflexivity.
    + fold rowSize. destruct (Z.odd H); lia.
    + fold outSize. destruct (Z.odd H); lia.
    + exists r0, r1, out. exact Hrun.
  - apply convertPixels_ok; try assumption. fold H. lia.
  - apply length_outputRows. lia.
  - intros j Hj. unfold outputRows. fold pairs.
    rewrite lookup_app_l
      by (unfold pairedRows; rewrite length_fmap, length_seq; exact Hj).
    unfold pairedRows. rewrite list_lookup_fmap, lookup_seq_lt by exact Hj.
    reflexivity.
  - intros Hodd. unfold outputRows, oddRow. fold pairs. rewrite Hodd.
    rewrite lookup_app_r
      by (unfold pairedRows; rewrite length_fmap, length_seq; lia).
    unfold pairedRows. rewrite length_fmap, length_seq, Nat.sub_diag.
    reflexivity.
  - intros Heven. unfold outputRows, oddRow. fold pairs. rewrite Heven.
    apply app_nil_r.
Qed.

Lemma pixel_pipeline_rows_witness :
  (exists inRow0 inRow1 outRow : Row,
     convertPairs 1 1 (mkInFile data_3x3 false) (mkOutFile [] 10) 3
       (newRow 1 4) (newRow 1 4) (newRow 1 2)
     = Ok (mkInFile (drop 6 data_3x3) false,
           mkOutFile ([] ++ rowBytes (pairedRows 1 3 data_3x3 0 1)) (10 - 2),
           (inRow0, inRow1, outRow)))
  /\ convertPixels 1 (mkInFile data_3x3 false) (mkOutFile [] 10)
       spec_3x3 spec_3x3
     = Ok (mkInFile (drop 9 data_3x3) false,
           mkOutFile ([] ++ rowBytes (outputRows 1 3 3 data_3x3)) (10 - 4))
  /\ length (outputRows 1 3 3 data_3x3) = 2%nat
  /\ (forall j : nat, (j < 1)%nat ->
        outputRows 1 3 3 data_3x3 !! j
        = Some (boxRow 1 (inputRow 1 3 data_3x3 (2 * j))
                         (inputRow 1 3 data_3x3 (2 * j + 1))))
  /\ (Z.odd 3 = true ->
        outputRows 1 3 3 data_3x3 !! 1%nat
        = Some (boxRow 1 (inputRow 1 3 data_3x3 2) (inputRow 1 3 data_3x3 2)))
  /\ (Z.odd 3 = false ->
        outputRows 1 3 3 data_3x3 = pairedRows 1 3 data_3x3 0 1).
Proof.
  apply (pixel_pipeline_rows 1 spec_3x3 spec_3x3
           (mkInFile data_3x3 false) (mkOutFile [] 10)).
  - lia.
  - simpl. lia.
  - simpl. lia.
  - simpl. lia.
  - vm_compute. lia.
Defined.

Example convertPixels_3x3 :
  convertPixels 1 (mkInFile data_3x3 false) (mkOutFile [] 10) spec_3x3 spec_3x3
  = Ok (mkInFile [] false, mkOutFile [x03; x05; x08; x09] 6).
Proof. reflexivity. Qed.

(* --------------------------------------------------------------------- *)
(** ** No call of the reducer violates its contract *)

Section NoCrash.

Variable numComponents : nat.
Hypothesis components_positive : (0 < numComponents)%nat.

Variable W : Z.
Hypothesis width_range : 0 < W < 65536.

Lemma readRow_cases (inFile : InFile) (row : Row) :
  length row = Z.to_nat (inWidthRup W) ->
  (exists (row' : Row) (inFile' : InFile),
     readRow numComponents inFile row W = Ok (row', inFile')
     /\ length row' = Z.to_nat (inWidthRup W)
     /\ wfRow numComponents row')
  \/ readRow numComponents inFile row W = Exit badInputFormat.
Proof.
  intros Hrow.
  destruct (Nat.le_gt_cases (Z.to_nat W * numComponents)
              (length (unread inFile))) as [Hlen|Hlen].
  - left. eexists. eexists.
    split; [apply readRow_enough; assumption|].
    split; [apply length_decodeRow; assumption|].
    apply decodeRow_wf; assumption.
  - right. apply readRow_short; assumption.
Qed.

Lemma convertRow_cases (rowA rowB outRow : Row) :
  wfRow numComponents rowA -> wfRow numComponents rowB ->
  length rowA = Z.to_nat (inWidthRup W) ->
  length rowB = Z.to_nat (inWidthRup W) ->
  length outRow = Z.to_nat (outColumnsRup W) ->
  exists outRow' : Row,
    convertRow numComponents rowA rowB outRow = Ok outRow'
    /\ length outRow' = Z.to_nat (outColumnsRup W).
Proof.
  intros wfA wfB HA HB Hout.
  pose proof (rup_nat W ltac:(lia)) as Hrup.
  exists (boxRow numComponents rowA rowB). split.
  - apply convertRow_ok; try assumption; lia.
  - rewrite length_boxRow, HA, Hrup. apply Nat.div_mul. lia.
Qed.

Lemma writeRow_cases (outFile : OutFile) (row : Row) :
  (exists outFile', writeRow numComponents outFile row = Ok outFile')
  \/ writeRow numComponents outFile row = Exit badOutputFile.
Proof. unfold writeRow. apply writeObjects_no_crash. lia. Qed.

Lemma convertPairs_cases (i : nat) :
  forall (inFile : InFile) (outFile : OutFile) (inRow0 inRow1 outRow : Row),
    length inRow0 = Z.to_nat (inWidthRup W) ->
    length inRow1 = Z.to_nat (inWidthRup W) ->
    length outRow = Z.to_nat (outColumnsRup W) ->
    (exists (inFile' : InFile) (outFile' : OutFile)
            (inRow0' inRow1' outRow' : Row),
       convertPairs numComponents i inFile outFile W inRow0 inRow1 outRow
       = Ok (inFile', outFile', (inRow0', inRow1', outRow'))
       /\ length inRow0' = Z.to_nat (inWidthRup W)
       /\ length inRow1' = Z.to_nat (inWidthRup W)
       /\ length outRow' = Z.to_nat (outColumnsRup W))
    \/ (exists e : ExitStatus,
          convertPairs numComponents i inFile outFile W inRow0 inRow1 outRow
          = Exit e).
Proof.
  induction i as [|i IH]; intros inFile outFile inRow0 inRow1 outRow H0 H1 Hout.
  - left. exists inFile, outFile, inRow0, inRow1, outRow. auto.
  - cbn [convertPairs].
    destruct (readRow_cases inFile inRow0 H0)
      as [(r0 & f1 & -> & L0 & wf0)| ->]; [|right; eexists; reflexivity].
    cbn [rbind].
    destruct (readRow_cases f1 inRow1 H1)
      as [(r1 & f2 & -> & L1 & wf1)| ->]; [|right; eexists; reflexivity].
    cbn [rbind].
    destruct (convertRow_cases r0 r1 outRow wf0 wf1 L0 L1 Hout)
      as (out & -> & Lout).
    cbn [rbind].
    destruct (writeRow_cases outFile out) as [(o1 & ->)| ->];
      [|right; eexists; reflexivity].
    cbn [rbind]. apply IH; assumption.
Qed.

Lemma convertPixels_cases (inFile : InFile) (outFile : OutFile)
    (inSpecification outSpecification : Specification.t) :
  Specification.width inSpecification = W ->
  (exists (inFile' : InFile) (outFile' : OutFile),
     convertPixels numComponents inFile outFile
       inSpecification outSpecification = Ok (inFile', outFile'))
  \/ (exists e : ExitStatus,
        convertPixels numComponents inFile outFile
          inSpecification outSpecification = Exit e).
Proof.
  intros HWeq. unfold convertPixels. rewrite HWeq.
  pose proof (inWidthRup_spec W ltac:(lia)) as Hrupz.
  pose proof (outColumnsRup_spec W) as Houtz.
  assert (0 < (W + 1) / 2) by (Z.div_mod_to_equations; lia).
  assert (Hhalf : inWidthRup W / 2 = outColumnsRup W)
    by (rewrite Houtz, Hrupz, Z.mul_comm, Z.div_mul by lia; reflexivity).
  assert (E0 : assertExtent numComponents
                 (newRow numComponents (Z.to_nat (inWidthRup W)))
                 (inWidthRup W) = Ok tt)
    by (apply assertExtent_ok; [lia | apply length_newRow]).
  assert (E2 : assertExtent numComponents
                 (newRow numComponents (Z.to_nat (outColumnsRup W)))
                 (inWidthRup W / 2) = Ok tt)
    by (apply assertExtent_ok;
        [lia | rewrite length_newRow, Hhalf; reflexivity]).
  rewrite E0, E2. cbn [rbind].
  destruct (convertPairs_cases
              (Z.to_nat
                 (outRowsComplete (Specification.height inSpecification)))
              inFile outFile
              (newRow numComponents (Z.to_nat (inWidthRup W)))
              (newRow numComponents (Z.to_nat (inWidthRup W)))
              (newRow numComponents (Z.to_nat (outColumnsRup W))))
    as [(f1 & o1 & r0 & r1 & out & -> & L0 & L1 & Lout)|(e & ->)];
    try apply length_newRow; [|right; eexists; reflexivity].
  cbn [rbind].
  destruct (negb (Z.land (Specification.height inSpecification) 1 =? 0));
    [|left; eauto].
  destruct (readRow_cases f1 r0 L0)
    as [(r0' & f2 & -> & L0' & wf0)| ->]; [|right; eexists; reflexivity].
  cbn [rbind].
  destruct (convertRow_cases r0' r0' out wf0 wf0 L0' L0' Lout)
    as (out' & -> & Lout').
  cbn [rbind].
  destruct (writeRow_cases o1 out') as [(o2 & ->)| ->];
    [left; eauto | right; eexists; reflexivity].
Qed.

End NoCrash.

(** C9: the dispatcher allocates input rows of the width rounded up to
    even and an output row of half that length; [readRow] keeps the length
    of the row it fills; on rows of these lengths the reducer's entry
    assertions hold and it returns a row of the output length; so the
    conversion of the rows, which calls the reducer on a pair of rows just
    read and, for an odd height, on the last row and itself, never stops on
    a failed assertion or an access out of range, whatever the two streams
    hold. *)
Theorem reducer_contract_holds (numComponents : nat)
    (inSpecification outSpecification : Specification.t)
    (inFile : InFile) (outFile : OutFile) :
  let W := Specification.width inSpecification in
  let inLength := Z.to_nat (inWidthRup W) in
  let outLength := Z.to_nat (outColumnsRup W) in
  (0 < numComponents)%nat ->
  0 < W < 65536 ->
  Nat.Even inLength
  /\ inLength = (outLength * 2)%nat
  /\ W <= inWidthRup W <= W + 1
  /\ (forall (f f' : InFile) (row row' : Row),
        length row = inLength ->
        readRow numComponents f row W = Ok (row', f') ->
        length row' = inLength /\ wfRow numComponents row')
  /\ (forall rowA rowB outRow : Row,
        wfRow numComponents rowA -> wfRow numComponents rowB ->
        length rowA = inLength -> length rowB = inLength ->
        length outRow = outLength ->
        exists outRow' : Row,
          convertRow numComponents rowA rowB outRow = Ok outRow'
          /\ length outRow' = outLength)
  /\ (forall (i : nat) (f f' : InFile) (o o' : OutFile)
             (inRow0 inRow1 outRow inRow0' inRow1' outRow' : Row),
        length inRow0 = inLength -> length inRow1 = inLength ->
        length outRow = outLength ->
        convertPairs numComponents i f o W inRow0 inRow1 outRow
        = Ok (f', o', (inRow0', inRow1', outRow')) ->
        length inRow0' = inLength /\ length inRow1' = inLength
        /\ length outRow' = outLength)
  /\ (forall d : Defect,
        convertPixels numComponents inFile outFile
          inSpecification outSpecification <> Crash d).
Proof.
  intros W inLength outLength HN HW.
  pose proof (rup_nat W ltac:(lia)) as Hrup.
  split; [exists outLength; unfold inLength; lia|].
  split; [exact Hrup|].
  split; [rewrite inWidthRup_spec by lia; Z.div_mod_to_equations; lia|].
  split; [|split; [|split]].
  - intros f f' row row' Hrow Hread.
    destruct (readRow_cases numComponents HN W HW f row Hrow)
      as [(r & f1 & Hr & L & Hwf)|Hr]; rewrite Hr in Hread.
    + injection Hread as <- <-. auto.
    + discriminate.
  - intros rowA rowB outRow. apply convertRow_cases; assumption.
  - intros i f f' o o' r0 r1 out r0' r1' out' L0 L1 Lout Hrun.
    destruct (convertPairs_cases numComponents HN W HW i f o r0 r1 out
                L0 L1 Lout)
      as [(f2 & o2 & a & b & c & Hr & La & Lb & Lc)|(e & Hr)];
      rewrite Hr in Hrun.
    + injection Hrun as <- <- <- <- <-. auto.
    + discriminate.
  - intros d.
    destruct (convertPixels_cases numComponents HN W HW inFile outFile
                inSpecification outSpecification eq_refl)
      as [(f' & o' & ->)|(e & ->)]; discriminate.
Qed.

Lemma reducer_contract_holds_witness :
  Nat.Even (Z.to_nat (inWidthRup 3))
  /\ Z.to_nat (inWidthRup 3) = (Z.to_nat (outColumnsRup 3) * 2)%nat
  /\ 3 <= inWidthRup 3 <= 3 + 1
  /\ (forall (f f' : InFile) (row row' : Row),
        length row = Z.to_nat (inWidthRup 3) ->
        readRow 1 f row 3 = Ok (row', f') ->
        length row' = Z.to_nat (inWidthRup 3) /\ wfRow 1 row')
  /\ (forall rowA rowB outRow : Row,
        wfRow 1 rowA -> wfRow 1 rowB ->
        length rowA = Z.to_nat (inWidthRup 3) ->
        length rowB = Z.to_nat (inWidthRup 3) ->
        length outRow = Z.to_nat (outColumnsRup 3) ->
        exists outRow' : Row,
          convertRow 1 rowA rowB outRow = Ok outRow'
          /\ length outRow' = Z.to_nat (outColumnsRup 3))
  /\ (forall (i : nat) (f f' : InFile) (o o' : OutFile)
             (inRow0 inRow1 outRow inRow0' inRow1' outRow' : Row),
        length inRow0 = Z.to_nat (inWidthRup 3) ->
        length inRow1 = Z.to_nat (inWidthRup 3) ->
        length outRow = Z.to_nat (outColumnsRup 3) ->
        convertPairs 1 i f o 3 inRow0 inRow1 outRow
        = Ok (f', o', (inRow0', inRow1', outRow')) ->
        length inRow0' = Z.to_nat (inWidthRup 3)
        /\ length inRow1' = Z.to_nat (inWidthRup 3)
        /\ length outRow' = Z.to_nat (outColumnsRup 3))
  /\ (forall d : Defect,
        convertPixels 1 (mkInFile data_3x3 false) (mkOutFile [] 10)
          spec_3x3 spec_3x3 <> Crash d).
Proof.
  apply (reducer_contract_holds 1 spec_3x3 spec_3x3
           (mkInFile data_3x3 false) (mkOutFile [] 10)).
  - lia.
  - simpl. lia.
Defined.

(* --------------------------------------------------------------------- *)
(** ** The trailer *)

Lemma ofZ_EOF : ByteZ.ofZ (-1) = xff.
Proof. reflexivity. Qed.

(** With the end-of-file indicator clear on entry, the loop copies the
    bytes left and then writes the [EOF] that [fgetc] returned as one more
    byte. *)
Lemma copyTrailer_appends_ff (bytes : list byte) :
  forall (fuel : nat) (outFile : OutFile),
    (length bytes < fuel)%nat ->
    (length bytes < room outFile)%nat ->
    copyTrailer fuel (mkInFile bytes false) outFile
    = Ok (mkInFile [] true,
          mkOutFile (written outFile ++ bytes ++ [xff])
                    (room outFile - length bytes - 1)).
Proof.
  induction bytes as [|b bytes IH]; intros fuel outFile Hfuel Hroom.
  - destruct fuel as [|fuel]; [simpl in Hfuel; lia|].
    destruct outFile as [w r]. simpl in Hroom.
    destruct r as [|r]; [lia|].
    cbn. destruct fuel; cbn; rewrite Nat.sub_0_r; reflexivity.
  - destruct fuel as [|fuel]; [simpl in Hfuel; lia|].
    destruct outFile as [w r]. simpl in Hroom.
    destruct r as [|r]; [lia|].
    cbn [copyTrailer feof eofIndicator negb fgetc unread fputc room written].
    rewrite ofZ_toZ.
    rewrite IH by (simpl in *; lia).
    cbn [written room]. rewrite <- app_assoc. simpl. reflexivity.
Qed.

Lemma copyTrailer_appends_ff_witness :
  copyTrailer 4 (mkInFile [x54; x47; x41] false) (mkOutFile [] 10)
  = Ok (mkInFile [] true,
        mkOutFile ([] ++ [x54; x47; x41] ++ [xff]) (10 - 3 - 1)).
Proof.
  apply (copyTrailer_appends_ff [x54; x47; x41] 4 (mkOutFile [] 10)).
  - simpl. lia.
  - simpl. lia.
Defined.

(** C5 (what the code does): on the 2x2 grey-scale image followed by the
    three trailer bytes 54 47 41, the conversion succeeds and its output is
    the output header, the one reduced pixel, the three trailer bytes and
    then one byte ff that the input does not hold: the trailer loop tests
    the end-of-file indicator before the read that sets it, and writes the
    [EOF] value returned by that last read. *)
Theorem trailer_copy_adds_byte :
  convert (mkInFile tga_2x2_trailer false) (mkOutFile [] 100) =
  Ok (mkInFile [] true,
      mkOutFile ([x00; x00; x03; x00; x00; x00; x00; x00; x00; x00; x00; x00;
                  x01; x00; x01; x00; x08; x00]
                 ++ [x19] ++ [x54; x47; x41] ++ [xff]) 77).
Proof. vm_compute. reflexivity. Qed.

(* --------------------------------------------------------------------- *)
(** ** The conversion of a whole file *)

Lemma writeObjects_take (size : nat) (outFile : OutFile)
    (objects : list (list byte)) (numObjects : nat) :
  (0 < size)%nat ->
  (numObjects <= length objects)%nat ->
  wfRow size (take numObjects objects) ->
  (numObjects * size <= room outFile)%nat ->
  writeObjects size outFile objects numObjects
  = Ok (mkOutFile (written outFile ++ concat (take numObjects objects))
                  (room outFile - numObjects * size)).
Proof.
  intros Hsize Hobj Hwf Hroom. unfold writeObjects.
  destruct (Nat.ltb_spec (length objects) numObjects); [lia|].
  unfold fwrite.
  pose proof (length_concat_wf size _ Hwf) as Hlen.
  rewrite length_take_le in Hlen by lia.
  rewrite take_ge by lia. rewrite Hlen.
  rewrite Nat.div_mul by lia. rewrite Nat.eqb_refl. reflexivity.
Qed.

Lemma readObject_enough (size : nat) (inFile : InFile) :
  (0 < size)%nat ->
  (size <= length (unread inFile))%nat ->
  readObject size inFile
  = Ok (take size (unread inFile),
        mkInFile (drop size (unread inFile)) (eofIndicator inFile)).
Proof.
  intros Hsize Hlen. unfold readObject.
  rewrite readObjects_enough by (simpl; lia).
  cbn [rbind chunks app drop at_index lookup list_lookup].
  rewrite Nat.mul_1_l. reflexivity.
Qed.

Lemma writeObject_enough (size : nat) (outFile : OutFile) (object : list byte) :
  (0 < size)%nat ->
  length object = size ->
  (size <= room outFile)%nat ->
  writeObject size outFile object
  = Ok (mkOutFile (written outFile ++ object) (room outFile - size)).
Proof.
  intros Hsize Hobj Hroom. unfold writeObject.
  rewrite writeObjects_take; simpl; try lia.
  - rewrite app_nil_r, Nat.add_0_r. reflexivity.
  - repeat constructor. exact Hobj.
Qed.

Lemma inspect_ok_holds (h : Header.t) (i : Invariant) :
  inspect h = Ok tt -> holds i h = true.
Proof.
  rewrite inspect_validate. unfold validate.
  destruct (List.find _ invariantOrder) eqn:Hfind; [discriminate|].
  intros _.
  pose proof (List.find_none _ _ Hfind i) as Hnone.
  apply negb_false_iff. apply Hnone.
  destruct i; simpl; tauto.
Qed.

Lemma requiredFormat_components (bitsPerPixel : Z) (n : nat) (t : Z) :
  requiredFormat bitsPerPixel = Some (n, t) -> (0 < n)%nat.
Proof.
  unfold requiredFormat.
  repeat match goal with
         | |- context [if ?c then _ else _] => destruct c
         end; intros E; inversion E; lia.
Qed.

Lemma half_columns_le (W : Z) :
  0 < W -> (Z.to_nat (outColumnsRup W) <= Z.to_nat W)%nat.
Proof.
  intros HW. rewrite outColumnsRup_spec. Z.div_mod_to_equations. lia.
Qed.

Lemma half_rows_le (H : Z) : 0 < H -> (Z.to_nat (ceilHalf H) <= Z.to_nat H)%nat.
Proof. intros HH. unfold ceilHalf. Z.div_mod_to_equations. lia. Qed.

(** The whole conversion of a supported file: the output is the derived
    header, the image ID, the reduced rows, the trailer, and one more byte
    [ff] written by the trailer loop. *)
Theorem convert_supported_file (bytes : list byte) (outFile : OutFile)
    (numComponents : nat) :
  let h := decodeHeader (take Header.sizeof bytes) in
  let idLength := Z.to_nat (Header.idLength h) in
  let W := Specification.width (Header.specification h) in
  let H := Specification.height (Header.specification h) in
  let data := drop (Header.sizeof + idLength) bytes in
  let pixelBytes := (Z.to_nat H * rowSize numComponents W)%nat in
  inspect h = Ok tt ->
  requiredFormat (Specification.bpp (Header.specification h))
  = Some (numComponents, Header.type h) ->
  (Header.sizeof + idLength + pixelBytes <= length bytes)%nat ->
  (length bytes < room outFile)%nat ->
  exists outFile' : OutFile,
    convert (mkInFile bytes false) outFile = Ok (mkInFile [] true, outFile')
    /\ written outFile'
       = written outFile
         ++ encodeHeader (deriveOutHeader h)
         ++ take idLength (drop Header.sizeof bytes)
         ++ rowBytes (outputRows numComponents W H data)
         ++ drop pixelBytes data
         ++ [xff].
Proof.
  intros h idLength W H data pixelBytes Hinspect Hformat Hlen Hroom.
  pose proof (decodeHeader_wf (take Header.sizeof bytes)) as Hwf.
  fold h in Hwf. unfold wfHeader in Hwf. cbv zeta in Hwf.
  destruct Hwf as (Hid & _ & _ & _ & _ & _ & _ & _ & HW & HH & _).
  fold W in HW. fold H in HH.
  pose proof (inspect_ok_holds h WidthPositive Hinspect) as HWpos.
  pose proof (inspect_ok_holds h HeightPositive Hinspect) as HHpos.
  cbn [holds] in HWpos, HHpos. fold W in HWpos. fold H in HHpos.
  apply Z.ltb_lt in HWpos, HHpos.
  pose proof (requiredFormat_components _ _ _ Hformat) as HN.
  pose proof (half_columns_le W HWpos) as Hcols.
  pose proof (half_rows_le H HHpos) as Hrows.
  assert (Hout : (Z.to_nat (ceilHalf H) * outSize numComponents W
                  <= pixelBytes)%nat).
  { unfold pixelBytes, outSize, rowSize, outColumns.
    rewrite Nat.mul_assoc, (Nat.mul_assoc (Z.to_nat H)).
    apply Nat.mul_le_mono_r. apply Nat.mul_le_mono; assumption. }
  unfold Header.sizeof in *.
  unfold convert.
  rewrite readObject_enough by (unfold Header.sizeof; cbn [unread]; lia).
  cbn [rbind unread eofIndicator]. unfold Header.sizeof. fold h.
  rewrite Hinspect. cbn [rbind].
  rewrite writeObject_enough by (try reflexivity; lia).
  cbn [rbind].
  assert (Hassert :
            assert (Header.idLength h
                    <=? Z.of_nat
                          (length (replicate (Z.to_nat UINT8_MAX) [x00])))
            = Ok tt).
  { rewrite length_replicate. unfold UINT8_MAX.
    destruct (Z.leb_spec (Header.idLength h) (Z.of_nat (Z.to_nat 255)));
      [reflexivity | lia]. }
  rewrite Hassert. cbn [rbind]. fold idLength.
  rewrite readObjects_enough
    by (rewrite ?length_replicate, ?length_drop; cbn [unread];
        rewrite ?length_drop; unfold UINT8_MAX; lia).
  cbn [rbind unread eofIndicator].
  rewrite writeObjects_take.
  2: lia.
  2: { rewrite length_app, length_chunks. lia. }
  2: { rewrite take_app_length' by (rewrite length_chunks; reflexivity).
       apply chunks_wf. rewrite length_drop. lia. }
  2: { cbn [room]. lia. }
  cbn [rbind written room].
  rewrite take_app_length' by (rewrite length_chunks; reflexivity).
  rewrite concat_chunks by (rewrite length_drop; lia).
  rewrite drop_drop, !Nat.mul_1_r.
  rewrite copyPixels_by_table. rewrite Hformat, Z.eqb_refl.
  fold data.
  rewrite convertPixels_ok.
  2: exact HN.
  2: { cbv zeta. fold W. lia. }
  2: { cbv zeta. fold H. lia. }
  2: { cbn [unread]. cbv zeta. fold W H. fold pixelBytes.
       unfold data. rewrite length_drop. lia. }
  2: { cbn [room]. cbv zeta. fold W H. lia. }
  cbv zeta. cbn [rbind unread eofIndicator written room]. fold W H pixelBytes.
  rewrite copyTrailer_appends_ff.
  2: { lia. }
  2: { cbn [room]. unfold data. rewrite !length_drop. lia. }
  cbn [rbind feof eofIndicator assert written].
  eexists. split; [reflexivity|].
  cbn [written]. rewrite <- !app_assoc. reflexivity.
Qed.

Lemma convert_supported_file_witness :
  exists outFile' : OutFile,
    convert (mkInFile tga_2x2_trailer false) (mkOutFile [] 100)
    = Ok (mkInFile [] true, outFile')
    /\ written outFile'
       = []
         ++ encodeHeader
              (deriveOutHeader (decodeHeader (take 18 tga_2x2_trailer)))
         ++ take 0 (drop 18 tga_2x2_trailer)
         ++ rowBytes (outputRows 1 2 2 (drop 18 tga_2x2_trailer))
         ++ drop 4 (drop 18 tga_2x2_trailer)
         ++ [xff].
Proof.
  apply (convert_supported_file tga_2x2_trailer (mkOutFile [] 100) 1).
  - reflexivity.
  - reflexivity.
  - vm_compute. lia.
  - vm_compute. lia.
Defined.

(* ===================================================================== *)
(** * Further properties of the program *)

(* --------------------------------------------------------------------- *)
(** ** One turn of the loop over the pairs of rows *)

Lemma writeObjects_full (size : nat) (outFile : OutFile) (row : Row) :
  (0 < size)%nat ->
  wfRow size row ->
  (room outFile < length row * size)%nat ->
  writeObjects size outFile row (length row) = Exit badOutputFile.
Proof.
  intros Hsize Hwf Hroom. unfold writeObjects.
  destruct (Nat.ltb_spec (length row) (length row)); [lia|].
  unfold fwrite. rewrite firstn_all.
  pose proof (length_concat_wf size row Hwf) as Hlen.
  rewrite length_take_le by lia.
  assert (Hdiv : (room outFile / size < length row)%nat)
    by (apply Nat.Div0.div_lt_upper_bound; lia).
  destruct (Nat.eqb_spec (room outFile / size) (length row)); [lia|].
  reflexivity.
Qed.

Section PairRow.

Variable numComponents : nat.
Hypothesis components_positive : (0 < numComponents)%nat.

Variable W : Z.
Hypothesis width_range : 0 < W < 65536.

(** The row made of the two rows at the head of a stream. *)
Lemma length_pair_row (bytes : list byte) :
  length (boxRow numComponents
            (decodeRow numComponents W bytes)
            (decodeRow numComponents W
               (drop (rowSize numComponents W) bytes)))
  = Z.to_nat (outColumnsRup W).
Proof.
  rewrite length_boxRow, length_decodeRow by assumption.
  rewrite rup_nat by lia. apply Nat.div_mul. lia.
Qed.

Lemma writeRow_pair_row_enough (o : OutFile) (rowA rowB : Row) :
  length (boxRow numComponents rowA rowB) = Z.to_nat (outColumnsRup W) ->
  (outSize numComponents W <= room o)%nat ->
  writeRow numComponents o (boxRow numComponents rowA rowB)
  = Ok (mkOutFile (written o ++ concat (boxRow numComponents rowA rowB))
                  (room o - outSize numComponents W)).
Proof.
  intros Hrow Hroom. unfold writeRow, outSize, outColumns in *.
  rewrite writeObjects_enough; try assumption.
  - rewrite Hrow. reflexivity.
  - apply boxRow_wf.
  - rewrite Hrow. exact Hroom.
Qed.

Lemma writeRow_pair_row_full (o : OutFile) (rowA rowB : Row) :
  length (boxRow numComponents rowA rowB) = Z.to_nat (outColumnsRup W) ->
  (room o < outSize numComponents W)%nat ->
  writeRow numComponents o (boxRow numComponents rowA rowB)
  = Exit badOutputFile.
Proof.
  intros Hrow Hroom. unfold writeRow, outSize, outColumns in *.
  apply writeObjects_full; try assumption.
  - apply boxRow_wf.
  - rewrite Hrow. exact Hroom.
Qed.

End PairRow.

Section PairTurn.

Variable numComponents : nat.
Hypothesis components_positive : (0 < numComponents)%nat.

Variable W : Z.
Hypothesis width_range : 0 < W < 65536.

Variables (inFile : InFile) (outFile : OutFile).
Variables (inRow0 inRow1 outRow : Row).
Hypothesis length0 : length inRow0 = Z.to_nat (inWidthRup W).
Hypothesis length1 : length inRow1 = Z.to_nat (inWidthRup W).
Hypothesis lengthOut : length outRow = Z.to_nat (outColumnsRup W).

Lemma pair_turn_reads (i : nat) :
  (2 * rowSize numComponents W <= length (unread inFile))%nat ->
  convertPairs numComponents (S i) inFile outFile W inRow0 inRow1 outRow
  = (outFile' <-
       writeRow numComponents outFile
         (boxRow numComponents
            (decodeRow numComponents W (unread inFile))
            (decodeRow numComponents W
               (drop (rowSize numComponents W) (unread inFile)))) ;;
     convertPairs numComponents i
       (mkInFile (drop (2 * rowSize numComponents W) (unread inFile))
                 (eofIndicator inFile))
       outFile' W
       (decodeRow numComponents W (unread inFile))
       (decodeRow numComponents W
          (drop (rowSize numComponents W) (unread inFile)))
       (boxRow numComponents
          (decodeRow numComponents W (unread inFile))
          (decodeRow numComponents W
             (drop (rowSize numComponents W) (unread inFile))))).
Proof.
  intros Hlen. unfold rowSize in *. cbn [convertPairs].
  rewrite readRow_enough by (try assumption; lia).
  cbn [rbind].
  rewrite readRow_enough
    by (try assumption; try apply length_decodeRow; try assumption;
        cbn [unread]; rewrite ?length_drop; lia).
  cbn [rbind unread eofIndicator].
  rewrite convertRow_ok.
  - cbn [rbind]. rewrite drop_drop.
    replace (Z.to_nat W * numComponents + Z.to_nat W * numComponents)%nat
      with (2 * (Z.to_nat W * numComponents))%nat by lia.
    reflexivity.
  - apply decodeRow_wf; try assumption. lia.
  - apply decodeRow_wf; try assumption. rewrite length_drop. lia.
  - rewrite !length_decodeRow by assumption. reflexivity.
  - rewrite length_decodeRow, lengthOut by assumption. apply rup_nat. lia.
Qed.

Lemma pair_turn_truncated (i : nat) :
  (length (unread inFile) < 2 * rowSize numComponents W)%nat ->
  convertPairs numComponents (S i) inFile outFile W inRow0 inRow1 outRow
  = Exit badInputFormat.
Proof.
  intros Hlen. unfold rowSize in *. cbn [convertPairs].
  destruct (Nat.le_gt_cases (Z.to_nat W * numComponents)
              (length (unread inFile))) as [Hfirst|Hfirst].
  - rewrite readRow_enough by (try assumption; lia).
    cbn [rbind].
    rewrite readRow_short
      by (try assumption; cbn [unread]; rewrite ?length_drop; lia).
    reflexivity.
  - rewrite readRow_short by (try assumption; lia). reflexivity.
Qed.

End PairTurn.

(* --------------------------------------------------------------------- *)
(** ** How the conversion of the rows ends *)

Section RowsOutcome.

Variable numComponents : nat.
Hypothesis components_positive : (0 < numComponents)%nat.

Variable W : Z.
Hypothesis width_range : 0 < W < 65536.

Lemma convertPairs_truncated (i : nat) :
  forall (inFile : InFile) (outFile : OutFile) (inRow0 inRow1 outRow : Row),
    length inRow0 = Z.to_nat (inWidthRup W) ->
    length inRow1 = Z.to_nat (inWidthRup W) ->
    length outRow = Z.to_nat (outColumnsRup W) ->
    (length (unread inFile) < 2 * i * rowSize numComponents W)%nat ->
    (i * outSize numComponents W <= room outFile)%nat ->
    convertPairs numComponents i inFile outFile W inRow0 inRow1 outRow
    = Exit badInputFormat.
Proof.
  induction i as [|i IH];
    intros inFile outFile inRow0 inRow1 outRow L0 L1 Lout Hlen Hroom;
    [lia|].
  destruct (Nat.le_gt_cases (2 * rowSize numComponents W)
              (length (unread inFile))) as [Hpair|Hpair].
  - rewrite pair_turn_reads by assumption.
    rewrite writeRow_pair_row_enough with (W := W)
      by (try apply length_pair_row; try assumption; lia).
    cbn [rbind]. apply IH.
    + apply length_decodeRow; assumption.
    + apply length_decodeRow; assumption.
    + apply length_pair_row; assumption.
    + cbn [unread]. rewrite length_drop. lia.
    + cbn [room]. lia.
  - apply pair_turn_truncated; assumption.
Qed.


Lemma convertPairs_exits (i : nat) :
  forall (inFile : InFile) (outFile : OutFile) (inRow0 inRow1 outRow : Row),
    length inRow0 = Z.to_nat (inWidthRup W) ->
    length inRow1 = Z.to_nat (inWidthRup W) ->
    length outRow = Z.to_nat (outColumnsRup W) ->
    ((2 * i * rowSize numComponents W <= length (unread inFile))%nat
     /\ (i * outSize numComponents W <= room outFile)%nat)
    \/ convertPairs numComponents i inFile outFile W inRow0 inRow1 outRow
       = Exit badInputFormat
    \/ convertPairs numComponents i inFile outFile W inRow0 inRow1 outRow
       = Exit badOutputFile.
Proof.
  induction i as [|i IH];
    intros inFile outFile inRow0 inRow1 outRow L0 L1 Lout;
    [left; lia|].
  destruct (Nat.le_gt_cases (2 * rowSize numComponents W)
              (length (unread inFile))) as [Hpair|Hpair];
    [|right; left; apply pair_turn_truncated; assumption].
  rewrite pair_turn_reads by assumption.
  destruct (Nat.le_gt_cases (outSize numComponents W) (room outFile))
    as [Hrow|Hrow].
  - rewrite writeRow_pair_row_enough with (W := W)
      by (try apply length_pair_row; assumption).
    cbn [rbind].
    match goal with
    | |- context [convertPairs _ i ?f ?o _ ?a ?b ?c] =>
        destruct (IH f o a b c) as [[Hd Hr]|Hexit]
    end.
    + apply length_decodeRow; assumption.
    + apply length_decodeRow; assumption.
    + apply length_pair_row; assumption.
    + left. cbn [unread room] in Hd, Hr. rewrite length_drop in Hd.
      lia.
    + right. exact Hexit.
  - right. right.
    rewrite writeRow_pair_row_full with (W := W)
      by (try apply length_pair_row; assumption).
    reflexivity.
Qed.

End RowsOutcome.

Section PixelsOutcome.

Variable numComponents : nat.
Hypothesis components_positive : (0 < numComponents)%nat.

Variables inSpecification outSpecification : Specification.t.

Hypothesis width_range : 0 < Specification.width inSpecification < 65536.
Hypothesis height_range : 0 <= Specification.height inSpecification < 65536.

(** The conversion of the rows once the assertions on the fresh buffers
    have passed. *)
Lemma convertPixels_buffers (inFile : InFile) (outFile : OutFile) :
  let W := Specification.width inSpecification in
  let H := Specification.height inSpecification in
  convertPixels numComponents inFile outFile inSpecification outSpecification
  = ('(inFile1, outFile1, (inRow0', inRow1', outRow')) <-
       convertPairs numComponents (Z.to_nat (Z.shiftr H 1)) inFile outFile W
         (newRow numComponents (Z.to_nat (inWidthRup W)))
         (newRow numComponents (Z.to_nat (inWidthRup W)))
         (newRow numComponents (Z.to_nat (outColumnsRup W))) ;;
     if Z.odd H
     then
       '(inRow0'', inFile2) <- readRow numComponents inFile1 inRow0' W ;;
       outRow'' <- convertRow numComponents inRow0'' inRow0'' outRow' ;;
       outFile2 <- writeRow numComponents outFile1 outRow'' ;;
       Ok (inFile2, outFile2)
     else Ok (inFile1, outFile1)).
Proof.
  intros W H. unfold convertPixels. fold W H.
  pose proof (inWidthRup_spec W ltac:(lia)) as Hrupz.
  pose proof (outColumnsRup_spec W) as Houtz.
  assert (0 < (W + 1) / 2) by (Z.div_mod_to_equations; lia).
  assert (Hhalf : inWidthRup W / 2 = outColumnsRup W)
    by (rewrite Houtz, Hrupz, Z.mul_comm, Z.div_mul by lia; reflexivity).
  assert (E0 : assertExtent numComponents
                 (newRow numComponents (Z.to_nat (inWidthRup W)))
                 (inWidthRup W) = Ok tt)
    by (apply assertExtent_ok; [lia | apply length_newRow]).
  assert (E2 : assertExtent numComponents
                 (newRow numComponents (Z.to_nat (outColumnsRup W)))
                 (inWidthRup W / 2) = Ok tt)
    by (apply assertExtent_ok;
        [lia | rewrite length_newRow, Hhalf; reflexivity]).
  rewrite E0, E2. cbn [rbind]. unfold outRowsComplete.
  destruct (convertPairs _ _ _ _ _ _ _ _) as [[[f1 o1] [[r0 r1] out]]| |];
    cbn [rbind]; try reflexivity.
  rewrite land1_odd. reflexivity.
Qed.

Lemma convertPixels_truncated (inFile : InFile) (outFile : OutFile) :
  let W := Specification.width inSpecification in
  let H := Specification.height inSpecification in
  (length (unread inFile) < Z.to_nat H * rowSize numComponents W)%nat ->
  (Z.to_nat (ceilHalf H) * outSize numComponents W <= room outFile)%nat ->
  convertPixels numComponents inFile outFile inSpecification outSpecification
  = Exit badInputFormat.
Proof.
  intros W H Hlen Hroom.
  destruct (halves_nat H ltac:(unfold H; lia)) as [Hnat Hceil].
  rewrite Hceil in Hroom. rewrite Hnat in Hlen.
  rewrite convertPixels_buffers. fold W H.
  set (h2 := Z.to_nat (Z.shiftr H 1)) in *.
  pose proof (rup_nat W ltac:(unfold W; lia)) as Hrup.
  destruct (Nat.le_gt_cases (2 * h2 * rowSize numComponents W)
              (length (unread inFile))) as [Hpairs|Hpairs].
  - destruct (convertPairs_ok numComponents components_positive W
                width_range (unread inFile) h2 0 inFile outFile
                (newRow numComponents (Z.to_nat (inWidthRup W)))
                (newRow numComponents (Z.to_nat (inWidthRup W)))
                (newRow numComponents (Z.to_nat (outColumnsRup W))))
      as (r0 & r1 & out & -> & L0 & L1 & Lout);
      try (rewrite length_newRow; first [reflexivity | exact Hrup]);
      try reflexivity; try lia.
    cbn [rbind].
    destruct (Z.odd H); [|lia].
    rewrite readRow_short; try assumption; try reflexivity.
    + rewrite L0. symmetry. exact Hrup.
    + cbn [unread]. rewrite length_drop. unfold rowSize in *. lia.
  - rewrite convertPairs_truncated; try assumption; try reflexivity;
      try apply length_newRow.
    destruct (Z.odd H); lia.
Qed.


Lemma convertPixels_exits (inFile : InFile) (outFile : OutFile) :
  let W := Specification.width inSpecification in
  let H := Specification.height inSpecification in
  ((Z.to_nat H * rowSize numComponents W <= length (unread inFile))%nat
   /\ (Z.to_nat (ceilHalf H) * outSize numComponents W <= room outFile)%nat)
  \/ convertPixels numComponents inFile outFile
       inSpecification outSpecification = Exit badInputFormat
  \/ convertPixels numComponents inFile outFile
       inSpecification outSpecification = Exit badOutputFile.
Proof.
  intros W H.
  destruct (halves_nat H ltac:(unfold H; lia)) as [Hnat Hceil].
  rewrite Hnat, Hceil.
  rewrite convertPixels_buffers. fold W H.
  set (h2 := Z.to_nat (Z.shiftr H 1)) in *.
  pose proof (rup_nat W ltac:(unfold W; lia)) as Hrup.
  destruct (convertPairs_exits numComponents components_positive W
              width_range h2 inFile outFile
              (newRow numComponents (Z.to_nat (inWidthRup W)))
              (newRow numComponents (Z.to_nat (inWidthRup W)))
              (newRow numComponents (Z.to_nat (outColumnsRup W))))
    as [[Hd Hr]|[Hexit|Hexit]]; try apply length_newRow;
    [|right; left; rewrite Hexit; reflexivity
     |right; right; rewrite Hexit; reflexivity].
  destruct (convertPairs_ok numComponents components_positive W
              width_range (unread inFile) h2 0 inFile outFile
              (newRow numComponents (Z.to_nat (inWidthRup W)))
              (newRow numComponents (Z.to_nat (inWidthRup W)))
              (newRow numComponents (Z.to_nat (outColumnsRup W))))
    as (r0 & r1 & out & -> & L0 & L1 & Lout);
    try (rewrite length_newRow; first [reflexivity | exact Hrup]);
    try reflexivity; try lia.
  cbn [rbind].
  destruct (Z.odd H); [|left; lia].
  destruct (Nat.le_gt_cases (rowSize numComponents W)
              (length (unread inFile) - 2 * h2 * rowSize numComponents W))
    as [Hlast|Hlast].
  - rewrite (readRow_inputRow numComponents components_positive W
               width_range (unread inFile) _ r0 (2 * (0 + h2)))
      by (try assumption; try reflexivity; lia).
    cbn [rbind].
    rewrite convertRow_inputRows by (try assumption; lia).
    cbn [rbind].
    destruct (Nat.le_gt_cases (outSize numComponents W)
                (room outFile - h2 * outSize numComponents W))
      as [Hrow|Hrow]; [left; lia|].
    right. right.
    rewrite writeRow_pair_row_full with (W := W)
      by first [ assumption
               | apply length_boxRow_inputRow; assumption
               | cbn [room]; lia ].
    reflexivity.
  - right. left.
    rewrite readRow_short; try assumption; try reflexivity.
    + rewrite L0. symmetry. exact Hrup.
    + cbn [unread]. rewrite length_drop. unfold rowSize in *. lia.
Qed.

End PixelsOutcome.

(* --------------------------------------------------------------------- *)
(** ** The stages of [convert] *)

Lemma convert_stages (inFile : InFile) (outFile : OutFile) :
  convert inFile outFile
  = ('(object, inFile1) <- readObject Header.sizeof inFile ;;
     let inHeader := decodeHeader object in
     inspect inHeader ;;
     outFile1 <- writeObject Header.sizeof outFile
                   (encodeHeader (deriveOutHeader inHeader)) ;;
     '(inFile2, outFile2) <-
       copyIdField (Header.idLength inHeader) inFile1 outFile1 ;;
     '(inFile3, outFile3) <-
       copyPixels inFile2 outFile2 inHeader (deriveOutHeader inHeader) ;;
     copyRest inFile3 outFile3).
Proof.
  unfold convert, copyIdField, copyRest.
  destruct (readObject Header.sizeof inFile) as [[object f1]| |];
    cbn [rbind]; try reflexivity.
  destruct (inspect (decodeHeader object)); cbn [rbind]; try reflexivity.
  destruct (writeObject _ _ _) as [o1| |]; cbn [rbind]; try reflexivity.
  destruct (assert _); cbn [rbind]; try reflexivity.
  destruct (readObjects _ _ _ _) as [[idField f2]| |];
    cbn [rbind]; try reflexivity.
  destruct (writeObjects _ _ _ _) as [o2| |]; cbn [rbind]; reflexivity.
Qed.

Lemma readObject_short (size : nat) (inFile : InFile) :
  (0 < size)%nat ->
  (length (unread inFile) < size)%nat ->
  readObject size inFile = Exit badInputFormat.
Proof.
  intros Hsize Hlen. unfold readObject.
  rewrite readObjects_short by (simpl; lia). reflexivity.
Qed.

Lemma writeObjects_take_full (size : nat) (outFile : OutFile)
    (objects : list (list byte)) (numObjects : nat) :
  (0 < size)%nat ->
  (numObjects <= length objects)%nat ->
  wfRow size (take numObjects objects) ->
  (room outFile < numObjects * size)%nat ->
  writeObjects size outFile objects numObjects = Exit badOutputFile.
Proof.
  intros Hsize Hobj Hwf Hroom. unfold writeObjects.
  destruct (Nat.ltb_spec (length objects) numObjects); [lia|].
  unfold fwrite.
  pose proof (length_concat_wf size _ Hwf) as Hlen.
  rewrite length_take_le in Hlen by lia.
  rewrite length_take_le by lia.
  assert (Hdiv : (room outFile / size < numObjects)%nat)
    by (apply Nat.Div0.div_lt_upper_bound; lia).
  destruct (Nat.eqb_spec (room outFile / size) numObjects); [lia|].
  reflexivity.
Qed.

Lemma writeObject_full (size : nat) (outFile : OutFile) (object : list byte) :
  (0 < size)%nat ->
  length object = size ->
  (room outFile < size)%nat ->
  writeObject size outFile object = Exit badOutputFile.
Proof.
  intros Hsize Hobj Hroom. unfold writeObject.
  apply writeObjects_take_full; simpl; try lia.
  repeat constructor. exact Hobj.
Qed.

Section IdField.

Variable idLength : Z.
Hypothesis idLength_range : 0 <= idLength < 256.

Variables (inFile : InFile) (outFile : OutFile).

Lemma copyIdField_enough :
  (Z.to_nat idLength <= length (unread inFile))%nat ->
  (Z.to_nat idLength <= room outFile)%nat ->
  copyIdField idLength inFile outFile
  = Ok (mkInFile (drop (Z.to_nat idLength) (unread inFile))
                 (eofIndicator inFile),
        mkOutFile (written outFile ++ take (Z.to_nat idLength) (unread inFile))
                  (room outFile - Z.to_nat idLength)).
Proof.
  intros Hlen Hroom. unfold copyIdField, UINT8_MAX.
  rewrite length_replicate.
  destruct (Z.leb_spec idLength (Z.of_nat (Z.to_nat 255))); [|lia].
  cbn [assert rbind].
  rewrite readObjects_enough by (rewrite ?length_replicate; lia).
  cbn [rbind].
  rewrite writeObjects_take.
  - cbn [rbind].
    rewrite take_app_length' by (rewrite length_chunks; reflexivity).
    rewrite concat_chunks by lia.
    rewrite !Nat.mul_1_r. reflexivity.
  - lia.
  - rewrite length_app, length_chunks. lia.
  - rewrite take_app_length' by (rewrite length_chunks; reflexivity).
    apply chunks_wf. lia.
  - lia.
Qed.

Lemma copyIdField_truncated :
  (length (unread inFile) < Z.to_nat idLength)%nat ->
  copyIdField idLength inFile outFile = Exit badInputFormat.
Proof.
  intros Hlen. unfold copyIdField, UINT8_MAX.
  rewrite length_replicate.
  destruct (Z.leb_spec idLength (Z.of_nat (Z.to_nat 255))); [|lia].
  cbn [assert rbind].
  rewrite readObjects_short by (rewrite ?length_replicate; lia).
  reflexivity.
Qed.

Lemma copyIdField_full :
  (Z.to_nat idLength <= length (unread inFile))%nat ->
  (room outFile < Z.to_nat idLength)%nat ->
  copyIdField idLength inFile outFile = Exit badOutputFile.
Proof.
  intros Hlen Hroom. unfold copyIdField, UINT8_MAX.
  rewrite length_replicate.
  destruct (Z.leb_spec idLength (Z.of_nat (Z.to_nat 255))); [|lia].
  cbn [assert rbind].
  rewrite readObjects_enough by (rewrite ?length_replicate; lia).
  cbn [rbind].
  rewrite writeObjects_take_full.
  - reflexivity.
  - lia.
  - rewrite length_app, length_chunks. lia.
  - rewrite take_app_length' by (rewrite length_chunks; reflexivity).
    apply chunks_wf. lia.
  - lia.
Qed.

End IdField.

Lemma copyTrailer_ends (bytes : list byte) :
  forall (eof : bool) (fuel : nat) (outFile : OutFile),
    (length bytes < fuel)%nat ->
    exists (inFile' : InFile) (outFile' : OutFile),
      copyTrailer fuel (mkInFile bytes eof) outFile = Ok (inFile', outFile')
      /\ feof inFile' = true.
Proof.
  induction bytes as [|b bytes IH]; intros eof fuel outFile Hfuel.
  - destruct fuel as [|fuel]; [simpl in Hfuel; lia|].
    destruct eof.
    + eexists. eexists. split; reflexivity.
    + cbn [copyTrailer feof eofIndicator negb fgetc unread].
      destruct fuel; cbn; eexists; eexists; split; reflexivity.
  - destruct fuel as [|fuel]; [simpl in Hfuel; lia|].
    destruct eof.
    + eexists. eexists. split; reflexivity.
    + cbn [copyTrailer feof eofIndicator negb fgetc unread].
      apply IH. simpl in Hfuel. lia.
Qed.

Lemma copyRest_ends (inFile : InFile) (outFile : OutFile) :
  exists (inFile' : InFile) (outFile' : OutFile),
    copyRest inFile outFile = Ok (inFile', outFile')
    /\ feof inFile' = true.
Proof.
  unfold copyRest. destruct inFile as [bytes eof].
  destruct (copyTrailer_ends bytes eof (S (length bytes)) outFile)
    as (f' & o' & Hrun & Heof); [lia|].
  cbn [unread]. rewrite Hrun. cbn [rbind]. rewrite Heof.
  cbn [assert rbind]. eauto.
Qed.

(* --------------------------------------------------------------------- *)
(** ** How a conversion ends *)

Lemma inspect_outcome (h : Header.t) :
  inspect h = Ok tt
  \/ inspect h = Exit badInputFormat
  \/ inspect h = Exit unsupportedInputFormat.
Proof.
  rewrite inspect_validate. unfold validate.
  destruct (List.find _ invariantOrder) as [i|]; [|left; reflexivity].
  right. destruct i; simpl; auto.
Qed.

Lemma inspect_ok_format (h : Header.t) :
  inspect h = Ok tt ->
  exists (numComponents : nat) (requiredType : Z),
    requiredFormat (Specification.bpp (Header.specification h))
    = Some (numComponents, requiredType).
Proof.
  intros Hok. pose proof (inspect_ok_holds h DepthSupported Hok) as Hd.
  cbn [holds] in Hd. apply andb_prop in Hd as [Hd _].
  unfold requiredFormat.
  destruct (Specification.bpp (Header.specification h) =? 8); [eauto|].
  destruct (Specification.bpp (Header.specification h) =? 16); [eauto|].
  destruct (Specification.bpp (Header.specification h) =? 24); [eauto|].
  destruct (Specification.bpp (Header.specification h) =? 32); [eauto|].
  discriminate.
Qed.

Lemma inspect_ok_dimensions (bytes : list byte) :
  inspect (decodeHeader bytes) = Ok tt ->
  0 < Specification.width (Header.specification (decodeHeader bytes)) < 65536
  /\ 0 < Specification.height (Header.specification (decodeHeader bytes))
     < 65536.
Proof.
  intros Hok.
  pose proof (decodeHeader_wf bytes) as Hwf.
  unfold wfHeader in Hwf. cbv zeta in Hwf.
  destruct Hwf as (_ & _ & _ & _ & _ & _ & _ & _ & HW & HH & _).
  pose proof (inspect_ok_holds _ WidthPositive Hok) as HWpos.
  pose proof (inspect_ok_holds _ HeightPositive Hok) as HHpos.
  cbn [holds] in HWpos, HHpos. apply Z.ltb_lt in HWpos, HHpos. lia.
Qed.

Lemma idLength_range (bytes : list byte) :
  0 <= Header.idLength (decodeHeader bytes) < 256.
Proof. apply byteAt_range. Qed.

Lemma length_encodeHeader (h : Header.t) :
  length (encodeHeader h) = Header.sizeof.
Proof. reflexivity. Qed.

Ltac exits_with :=
  right; eexists; split; [reflexivity | simpl; tauto].

Lemma convert_cases (inFile : InFile) (outFile : OutFile) :
  let h := fileHeader inFile in
  let idLength := Z.to_nat (Header.idLength h) in
  (exists numComponents : nat,
     supported h numComponents
     /\ (Header.sizeof + idLength + pixelDataSize numComponents h
         <= length (unread inFile))%nat
     /\ (Header.sizeof + idLength + outputDataSize numComponents h
         <= room outFile)%nat
     /\ exists (inFile' : InFile) (outFile' : OutFile),
          convert inFile outFile = Ok (inFile', outFile')
          /\ feof inFile' = true)
  \/ exitsWith (convert inFile outFile)
       [badInputFormat; badOutputFile; unsupportedInputFormat].
Proof.
  intros h idLength. rewrite convert_stages. unfold Header.sizeof in *.
  destruct (Nat.le_gt_cases 18 (length (unread inFile))) as [Hhead|Hhead];
    [|rewrite readObject_short by lia; exits_with].
  rewrite readObject_enough by lia. cbn [rbind]. cbv zeta.
  change (decodeHeader (take 18 (unread inFile))) with h.
  destruct (inspect_outcome h) as [Hok|[Hbad|Hunsup]];
    [|rewrite Hbad; exits_with|rewrite Hunsup; exits_with].
  rewrite Hok. cbn [rbind].
  destruct (Nat.le_gt_cases 18 (room outFile)) as [Hroom|Hroom];
    [|rewrite writeObject_full by (try reflexivity; lia); exits_with].
  rewrite writeObject_enough by (try reflexivity; lia). cbn [rbind].
  pose proof (idLength_range (take 18 (unread inFile))) as Hid.
  change (decodeHeader (take 18 (unread inFile))) with h in Hid.
  destruct (Nat.le_gt_cases idLength (length (unread inFile) - 18))
    as [Hidlen|Hidlen];
    [|rewrite copyIdField_truncated
        by (try assumption; cbn [unread]; rewrite length_drop;
            fold idLength; lia);
      exits_with].
  destruct (Nat.le_gt_cases idLength (room outFile - 18))
    as [Hidroom|Hidroom];
    [|rewrite copyIdField_full
        by (try assumption; cbn [unread room]; rewrite ?length_drop;
            fold idLength; lia);
      exits_with].
  rewrite copyIdField_enough
    by (try assumption; cbn [unread room]; rewrite ?length_drop;
        fold idLength; lia).
  cbn [rbind unread eofIndicator written room]. fold idLength.
  rewrite copyPixels_by_table.
  destruct (inspect_ok_format h Hok) as (n & t & Hformat).
  rewrite Hformat.
  destruct (Z.eqb_spec (Header.type h) t) as [Htype|Htype];
    [|exits_with].
  subst t.
  pose proof (requiredFormat_components _ _ _ Hformat) as Hn.
  destruct (inspect_ok_dimensions (take 18 (unread inFile)) Hok) as [HW HH].
  change (decodeHeader (take 18 (unread inFile))) with h in HW, HH.
  assert (HH' : 0 <= Specification.height (Header.specification h) < 65536)
    by lia.
  match goal with
  | |- context [convertPixels n ?f ?o ?si ?so] =>
      destruct (convertPixels_exits n Hn si so HW HH' f o)
        as [[Hdata Hout]|[Hexit|Hexit]];
      [|rewrite Hexit; exits_with|rewrite Hexit; exits_with]
  end.
  cbn [unread room] in Hdata, Hout. rewrite !length_drop in Hdata.
  rewrite convertPixels_ok
    by (try assumption; cbn [unread room]; rewrite ?length_drop; lia).
  cbn [rbind].
  match goal with
  | |- context [copyRest ?f ?o] =>
      destruct (copyRest_ends f o) as (f' & o' & Hrest & Heof)
  end.
  left. exists n. split; [split; assumption|].
  split; [unfold pixelDataSize; fold h; lia|].
  split; [unfold outputDataSize; fold h; lia|].
  exists f', o'. split; assumption.
Qed.

(** The conversion never stops on a failed assertion, an access out of
    range or an exhausted loop: it returns, the input then being at its
    end, or exits with badInputFormat, badOutputFile or
    unsupportedInputFormat. *)
Theorem convert_outcomes (inFile : InFile) (outFile : OutFile) :
  ((exists (inFile' : InFile) (outFile' : OutFile),
      convert inFile outFile = Ok (inFile', outFile')
      /\ feof inFile' = true)
   \/ exitsWith (convert inFile outFile)
        [badInputFormat; badOutputFile; unsupportedInputFormat])
  /\ forall d : Defect, convert inFile outFile <> Crash d.
Proof.
  assert (Hcases :
            (exists (inFile' : InFile) (outFile' : OutFile),
               convert inFile outFile = Ok (inFile', outFile')
               /\ feof inFile' = true)
            \/ exitsWith (convert inFile outFile)
                 [badInputFormat; badOutputFile; unsupportedInputFormat]).
  { destruct (convert_cases inFile outFile)
      as [(n & _ & _ & _ & Hok)|Hexit];
      [left; exact Hok | right; exact Hexit]. }
  split; [exact Hcases|].
  intros d Hcrash.
  destruct Hcases as [(f' & o' & Hok & _)|(e & Hexit & _)];
    rewrite Hcrash in *; discriminate.
Qed.



(** An input shorter than the 18 bytes of a header, the empty input
    included, exits with badInputFormat. *)
Theorem convert_truncated_header (inFile : InFile) (outFile : OutFile) :
  (length (unread inFile) < Header.sizeof)%nat ->
  convert inFile outFile = Exit badInputFormat.
Proof.
  intros Hlen. rewrite convert_stages.
  rewrite readObject_short by (unfold Header.sizeof in *; lia).
  reflexivity.
Qed.

Lemma convert_truncated_header_witness :
  convert (mkInFile [] false) (mkOutFile [] 100) = Exit badInputFormat.
Proof.
  apply (convert_truncated_header (mkInFile [] false) (mkOutFile [] 100)).
  simpl. unfold Header.sizeof. lia.
Defined.

(** A header that [inspect] rejects ends the conversion with the exit
    status of [inspect], whatever follows the header and whatever the
    output accepts. *)
Theorem convert_rejected_header (inFile : InFile) (outFile : OutFile)
    (e : ExitStatus) :
  (Header.sizeof <= length (unread inFile))%nat ->
  inspect (fileHeader inFile) = Exit e ->
  convert inFile outFile = Exit e.
Proof.
  intros Hlen Hinspect. rewrite convert_stages.
  rewrite readObject_enough by (unfold Header.sizeof in *; lia).
  cbn [rbind]. cbv zeta. unfold fileHeader in Hinspect.
  rewrite Hinspect. reflexivity.
Qed.

Lemma convert_rejected_header_witness :
  convert (mkInFile tga_colormapped false) (mkOutFile [] 0)
  = Exit unsupportedInputFormat.
Proof.
  apply (convert_rejected_header (mkInFile tga_colormapped false)
           (mkOutFile [] 0) unsupportedInputFormat).
  - simpl. unfold Header.sizeof. lia.
  - reflexivity.
Defined.

(** With a header that passes [inspect] and an output with room, an input
    that ends inside the ID field or inside the pixel data exits with
    badInputFormat. *)
Theorem convert_truncated_data (inFile : InFile) (outFile : OutFile)
    (numComponents : nat) :
  let h := fileHeader inFile in
  let idLength := Z.to_nat (Header.idLength h) in
  supported h numComponents ->
  (Header.sizeof <= length (unread inFile))%nat ->
  (length (unread inFile)
   < Header.sizeof + idLength + pixelDataSize numComponents h)%nat ->
  (Header.sizeof + idLength + outputDataSize numComponents h
   <= room outFile)%nat ->
  convert inFile outFile = Exit badInputFormat.
Proof.
  intros h idLength [Hok Hformat] Hhead Hlen Hroom.
  unfold Header.sizeof in *.
  rewrite convert_stages.
  rewrite readObject_enough by (unfold Header.sizeof; lia).
  cbn [rbind]. cbv zeta. unfold Header.sizeof.
  change (decodeHeader (take 18 (unread inFile))) with h.
  rewrite Hok. cbn [rbind].
  rewrite writeObject_enough by (try reflexivity; lia). cbn [rbind].
  pose proof (idLength_range (take 18 (unread inFile))) as Hid.
  change (decodeHeader (take 18 (unread inFile))) with h in Hid.
  destruct (Nat.le_gt_cases idLength (length (unread inFile) - 18))
    as [Hidlen|Hidlen];
    [|rewrite copyIdField_truncated
        by (try assumption; cbn [unread]; rewrite length_drop;
            fold idLength; lia);
      reflexivity].
  rewrite copyIdField_enough
    by (try assumption; cbn [unread room]; rewrite ?length_drop;
        fold idLength; lia).
  cbn [rbind]. fold idLength.
  rewrite copyPixels_by_table, Hformat, Z.eqb_refl.
  pose proof (requiredFormat_components _ _ _ Hformat) as Hn.
  destruct (inspect_ok_dimensions (take 18 (unread inFile)) Hok) as [HW HH].
  change (decodeHeader (take 18 (unread inFile))) with h in HW, HH.
  unfold pixelDataSize, outputDataSize in *.
  rewrite convertPixels_truncated;
    try assumption; try reflexivity; try lia;
    cbn [unread room]; rewrite ?length_drop; lia.
Qed.

Lemma convert_truncated_data_witness :
  convert (mkInFile tga_2x2_cut false) (mkOutFile [] 100)
  = Exit badInputFormat.
Proof.
  apply (convert_truncated_data (mkInFile tga_2x2_cut false)
           (mkOutFile [] 100) 1).
  - split; reflexivity.
  - vm_compute. lia.
  - vm_compute. lia.
  - vm_compute. lia.
Defined.



(** A header that passes [inspect] but whose image type is not the one its
    depth requires exits with unsupportedInputFormat, and only after the
    output header and the ID field have been copied: the input must hold
    the ID field and the output must take both. *)
Theorem convert_type_mismatch (inFile : InFile) (outFile : OutFile)
    (numComponents : nat) (requiredType : Z) :
  let h := fileHeader inFile in
  let idLength := Z.to_nat (Header.idLength h) in
  inspect h = Ok tt ->
  requiredFormat (Specification.bpp (Header.specification h))
  = Some (numComponents, requiredType) ->
  Header.type h <> requiredType ->
  (Header.sizeof + idLength <= length (unread inFile))%nat ->
  (Header.sizeof + idLength <= room outFile)%nat ->
  convert inFile outFile = Exit unsupportedInputFormat.
Proof.
  intros h idLength Hok Hformat Htype Hlen Hroom.
  unfold Header.sizeof in *.
  rewrite convert_stages.
  rewrite readObject_enough by (unfold Header.sizeof; lia).
  cbn [rbind]. cbv zeta. unfold Header.sizeof.
  change (decodeHeader (take 18 (unread inFile))) with h.
  rewrite Hok. cbn [rbind].
  rewrite writeObject_enough by (try reflexivity; lia). cbn [rbind].
  pose proof (idLength_range (take 18 (unread inFile))) as Hid.
  change (decodeHeader (take 18 (unread inFile))) with h in Hid.
  rewrite copyIdField_enough
    by (try assumption; cbn [unread room]; rewrite ?length_drop;
        fold idLength; lia).
  cbn [rbind].
  rewrite copyPixels_by_table, Hformat.
  destruct (Z.eqb_spec (Header.type h) requiredType);
    [contradiction | reflexivity].
Qed.

Lemma convert_type_mismatch_witness :
  convert (mkInFile tga_2x2_truecolor false) (mkOutFile [] 100)
  = Exit unsupportedInputFormat.
Proof.
  apply (convert_type_mismatch (mkInFile tga_2x2_truecolor false)
           (mkOutFile [] 100) 1 Header.uncompressedGrayScaleImage).
  - reflexivity.
  - reflexivity.
  - vm_compute. discriminate.
  - vm_compute. lia.
  - vm_compute. lia.
Defined.

(** The same header on an output too small for it exits with
    badOutputFile instead: the image type is looked at last. *)
Example convert_type_mismatch_later :
  convert (mkInFile tga_2x2_truecolor false) (mkOutFile [] 17)
  = Exit badOutputFile.
Proof. reflexivity. Qed.

(* --------------------------------------------------------------------- *)
(** ** The trailer on a full device *)

Lemma copyTrailer_device (bytes : list byte) :
  forall (fuel : nat) (outFile : OutFile),
    (length bytes < fuel)%nat ->
    copyTrailer fuel (mkInFile bytes false) outFile
    = Ok (mkInFile [] true,
          mkOutFile (written outFile ++ take (room outFile) (bytes ++ [xff]))
                    (room outFile - S (length bytes))).
Proof.
  induction bytes as [|b bytes IH]; intros fuel outFile Hfuel.
  - destruct fuel as [|fuel]; [simpl in Hfuel; lia|].
    destruct outFile as [w r].
    cbn [copyTrailer feof eofIndicator negb fgetc unread].
    destruct r as [|r]; destruct fuel; cbn;
      rewrite ?take_nil, ?ofZ_EOF, ?app_nil_r, ?Nat.sub_0_r; reflexivity.
  - destruct fuel as [|fuel]; [simpl in Hfuel; lia|].
    destruct outFile as [w r].
    cbn [copyTrailer feof eofIndicator negb fgetc unread].
    rewrite IH by (simpl in Hfuel; lia).
    destruct r as [|r]; cbn [fputc room written].
    + rewrite !take_0. reflexivity.
    + rewrite ofZ_toZ, <- app_assoc. reflexivity.
Qed.

(** The copy of the trailer always returns: it writes as much of the
    remaining input followed by the byte ff as the output still takes, and
    a byte the output refuses is dropped without an error. *)
Theorem copyRest_drops_silently (bytes : list byte) (outFile : OutFile) :
  copyRest (mkInFile bytes false) outFile
  = Ok (mkInFile [] true,
        mkOutFile (written outFile ++ take (room outFile) (bytes ++ [xff]))
                  (room outFile - S (length bytes))).
Proof.
  unfold copyRest. cbn [unread].
  rewrite copyTrailer_device by lia. reflexivity.
Qed.

(* --------------------------------------------------------------------- *)
(** ** More on the reducer *)

Lemma component_range (row : Row) (k c : nat) : 0 <= component row k c <= 255.
Proof. unfold component. apply toZ_range. Qed.

(** An output component of the reducer lies between the least and the
    greatest of the four input components it is made of. *)
Theorem reducer_within_range (numComponents : nat) (rowA rowB outRow : Row) :
  wfRow numComponents rowA ->
  wfRow numComponents rowB ->
  length rowA = length rowB ->
  length rowA = (length outRow * 2)%nat ->
  exists outRow' : Row,
    convertRow numComponents rowA rowB outRow = Ok outRow'
    /\ forall k c : nat,
         (k < length rowA / 2)%nat -> (c < numComponents)%nat ->
         Z.min (Z.min (component rowA (2 * k) c)
                      (component rowA (2 * k + 1) c))
               (Z.min (component rowB (2 * k) c)
                      (component rowB (2 * k + 1) c))
         <= component outRow' k c
         <= Z.max (Z.max (component rowA (2 * k) c)
                         (component rowA (2 * k + 1) c))
                  (Z.max (component rowB (2 * k) c)
                         (component rowB (2 * k + 1) c)).
Proof.
  intros wfA wfB Hsame Hout.
  exists (boxRow numComponents rowA rowB).
  split; [apply convertRow_ok; assumption|].
  intros k c Hk Hc.
  rewrite boxRow_component by assumption.
  unfold boxFormula. rewrite Z.shiftr_div_pow2 by lia. change (2 ^ 2) with 4.
  Z.div_mod_to_equations. lia.
Qed.

Lemma reducer_within_range_witness :
  exists outRow' : Row,
    convertRow 1 [[x0a]; [x14]] [[x1e]; [x28]] (newRow 1 1) = Ok outRow'
    /\ forall k c : nat,
         (k < length [[x0a]; [x14]] / 2)%nat -> (c < 1)%nat ->
         Z.min (Z.min (component [[x0a]; [x14]] (2 * k) c)
                      (component [[x0a]; [x14]] (2 * k + 1) c))
               (Z.min (component [[x1e]; [x28]] (2 * k) c)
                      (component [[x1e]; [x28]] (2 * k + 1) c))
         <= component outRow' k c
         <= Z.max (Z.max (component [[x0a]; [x14]] (2 * k) c)
                         (component [[x0a]; [x14]] (2 * k + 1) c))
                  (Z.max (component [[x1e]; [x28]] (2 * k) c)
                         (component [[x1e]; [x28]] (2 * k + 1) c)).
Proof.
  apply (reducer_within_range 1 [[x0a]; [x14]] [[x1e]; [x28]] (newRow 1 1)).
  - repeat constructor.
  - repeat constructor.
  - reflexivity.
  - reflexivity.
Defined.

(** Reducing a row against itself, as is done for the last row of an image
    of odd height, averages each pair of neighbours: the output component
    is (a + b + 1) >> 1, the half of the sum rounded up. *)
Theorem reducer_self_pairing (numComponents : nat) (row outRow : Row) :
  wfRow numComponents row ->
  length row = (length outRow * 2)%nat ->
  exists outRow' : Row,
    convertRow numComponents row row outRow = Ok outRow'
    /\ forall k c : nat,
         (k < length row / 2)%nat -> (c < numComponents)%nat ->
         component outRow' k c
         = Z.shiftr (component row (2 * k) c
                     + component row (2 * k + 1) c + 1) 1.
Proof.
  intros Hwf Hout.
  exists (boxRow numComponents row row).
  split; [apply convertRow_ok; auto|].
  intros k c Hk Hc.
  rewrite boxRow_component by assumption.
  unfold boxFormula. rewrite !Z.shiftr_div_pow2 by lia.
  change (2 ^ 2) with 4. change (2 ^ 1) with 2.
  Z.div_mod_to_equations. lia.
Qed.

Lemma reducer_self_pairing_witness :
  exists outRow' : Row,
    convertRow 1 [[x07]; [x08]] [[x07]; [x08]] (newRow 1 1) = Ok outRow'
    /\ forall k c : nat,
         (k < length [[x07]; [x08]] / 2)%nat -> (c < 1)%nat ->
         component outRow' k c
         = Z.shiftr (component [[x07]; [x08]] (2 * k) c
                     + component [[x07]; [x08]] (2 * k + 1) c + 1) 1.
Proof.
  apply (reducer_self_pairing 1 [[x07]; [x08]] (newRow 1 1)).
  - repeat constructor.
  - reflexivity.
Defined.

(** The buffers are overwritten whole: what [readRow] returns does not
    depend on what the row buffer held, nor what the reducer returns on
    what the output row held; nothing of an earlier row is left in a
    later one. *)
Theorem buffers_overwritten (numComponents : nat) (W : Z)
    (inFile : InFile) (row row' rowA rowB outRow outRow' : Row) :
  (0 < numComponents)%nat ->
  0 < W < 65536 ->
  length row = Z.to_nat (inWidthRup W) ->
  length row' = Z.to_nat (inWidthRup W) ->
  wfRow numComponents rowA -> wfRow numComponents rowB ->
  length rowA = length rowB ->
  length rowA = (length outRow * 2)%nat ->
  length rowA = (length outRow' * 2)%nat ->
  readRow numComponents inFile row W = readRow numComponents inFile row' W
  /\ convertRow numComponents rowA rowB outRow
     = convertRow numComponents rowA rowB outRow'.
Proof.
  intros HN HW Hrow Hrow' wfA wfB Hsame Hout Hout'. split.
  - destruct (Nat.le_gt_cases (Z.to_nat W * numComponents)
                (length (unread inFile))) as [Hlen|Hlen].
    + rewrite !readRow_enough by assumption. reflexivity.
    + rewrite !readRow_short by assumption. reflexivity.
  - rewrite !convertRow_ok by assumption. reflexivity.
Qed.

Lemma buffers_overwritten_witness :
  readRow 1 (mkInFile [x0a; x14; x1e; x28] false) (newRow 1 4) 3
  = readRow 1 (mkInFile [x0a; x14; x1e; x28] false)
      [[xff]; [xff]; [xff]; [xff]] 3
  /\ convertRow 1 [[x0a]; [x14]] [[x1e]; [x28]] (newRow 1 1)
     = convertRow 1 [[x0a]; [x14]] [[x1e]; [x28]] [[xff]].
Proof.
  apply (buffers_overwritten 1 3 (mkInFile [x0a; x14; x1e; x28] false)
           (newRow 1 4) [[xff]; [xff]; [xff]; [xff]]
           [[x0a]; [x14]] [[x1e]; [x28]] (newRow 1 1) [[xff]]).
  - lia.
  - lia.
  - reflexivity.
  - reflexivity.
  - repeat constructor.
  - repeat constructor.
  - reflexivity.
  - reflexivity.
  - reflexivity.
Defined.

(** For an odd width the last output column is made of the last input
    column alone: with the rows read by [readRow] from two streams, the
    reducer's last output component is (a + b + 1) >> 1 for the last
    pixels a and b of the two input rows. *)
Theorem odd_width_last_column (numComponents : nat) (W : Z)
    (inFileA inFileB : InFile) (buffer0 buffer1 outRow : Row) :
  (0 < numComponents)%nat ->
  0 < W < 65536 ->
  Z.odd W = true ->
  length buffer0 = Z.to_nat (inWidthRup W) ->
  length buffer1 = Z.to_nat (inWidthRup W) ->
  length outRow = Z.to_nat (outColumnsRup W) ->
  (Z.to_nat W * numComponents <= length (unread inFileA))%nat ->
  (Z.to_nat W * numComponents <= length (unread inFileB))%nat ->
  exists (rowA rowB outRow' : Row) (inFileA' inFileB' : InFile),
    readRow numComponents inFileA buffer0 W = Ok (rowA, inFileA')
    /\ readRow numComponents inFileB buffer1 W = Ok (rowB, inFileB')
    /\ convertRow numComponents rowA rowB outRow = Ok outRow'
    /\ forall c : nat, (c < numComponents)%nat ->
         component outRow' (Z.to_nat (outColumnsRup W) - 1) c
         = Z.shiftr
             (ByteZ.toZ (pixelAt numComponents (unread inFileA)
                           (Z.to_nat W - 1) !!! c)
              + ByteZ.toZ (pixelAt numComponents (unread inFileB)
                             (Z.to_nat W - 1) !!! c)
              + 1) 1.
Proof.
  intros HN HW Hodd L0 L1 Lout HA HB.
  pose proof (rup_nat W ltac:(lia)) as Hrup.
  pose proof (inWidthRup_parity W ltac:(lia)) as Hpar. rewrite Hodd in Hpar.
  exists (decodeRow numComponents W (unread inFileA)),
         (decodeRow numComponents W (unread inFileB)),
         (boxRow numComponents
            (decodeRow numComponents W (unread inFileA))
            (decodeRow numComponents W (unread inFileB))).
  eexists. eexists.
  split; [apply readRow_enough; assumption|].
  split; [apply readRow_enough; assumption|].
  split.
  - apply convertRow_ok.
    + apply decodeRow_wf; assumption.
    + apply decodeRow_wf; assumption.
    + rewrite !length_decodeRow by assumption. reflexivity.
    + rewrite length_decodeRow, Lout by assumption. exact Hrup.
  - intros c Hc.
    set (k := (Z.to_nat (outColumnsRup W) - 1)%nat).
    assert (Hk2 : (2 * k = Z.to_nat W - 1)%nat) by (unfold k; lia).
    assert (Hk21 : (2 * k + 1 = Z.to_nat W)%nat) by (unfold k; lia).
    rewrite boxRow_component
      by (try assumption; rewrite length_decodeRow, Hrup by assumption;
          rewrite Nat.div_mul by lia; unfold k; lia).
    unfold component. rewrite Hk21, Hk2.
    assert (Hlast : forall bytes : list byte,
              decodeRow numComponents W bytes !!! (Z.to_nat W - 1)%nat
              = pixelAt numComponents bytes (Z.to_nat W - 1))
      by (intros bytes; apply list_lookup_total_correct;
          apply decodeRow_lookup; first [assumption | lia]).
    assert (Hpad : forall bytes : list byte,
              decodeRow numComponents W bytes !!! Z.to_nat W
              = pixelAt numComponents bytes (Z.to_nat W - 1))
      by (intros bytes; apply list_lookup_total_correct;
          apply decodeRow_padding; assumption).
    rewrite !Hlast, !Hpad.
    unfold boxFormula. rewrite !Z.shiftr_div_pow2 by lia.
    change (2 ^ 2) with 4. change (2 ^ 1) with 2.
    Z.div_mod_to_equations. lia.
Qed.

Lemma odd_width_last_column_witness :
  exists (rowA rowB outRow' : Row) (inFileA' inFileB' : InFile),
    readRow 1 (mkInFile [x01; x02; x03] false) (newRow 1 4) 3
    = Ok (rowA, inFileA')
    /\ readRow 1 (mkInFile [x04; x05; x06] false) (newRow 1 4) 3
       = Ok (rowB, inFileB')
    /\ convertRow 1 rowA rowB (newRow 1 2) = Ok outRow'
    /\ forall c : nat, (c < 1)%nat ->
         component outRow' (Z.to_nat (outColumnsRup 3) - 1) c
         = Z.shiftr
             (ByteZ.toZ (pixelAt 1 [x01; x02; x03] (Z.to_nat 3 - 1) !!! c)
              + ByteZ.toZ (pixelAt 1 [x04; x05; x06] (Z.to_nat 3 - 1) !!! c)
              + 1) 1.
Proof.
  apply (odd_width_last_column 1 3 (mkInFile [x01; x02; x03] false)
           (mkInFile [x04; x05; x06] false) (newRow 1 4) (newRow 1 4)
           (newRow 1 2)).
  - lia.
  - lia.
  - reflexivity.
  - reflexivity.
  - reflexivity.
  - reflexivity.
  - simpl. lia.
  - simpl. lia.
Defined.

(* --------------------------------------------------------------------- *)
(** ** More on the header *)

(** The output header is itself a supported header: it passes [inspect]
    and its depth and image type are the input's, so the output of a
    conversion can be converted again. *)
Theorem output_header_supported (h : Header.t) (numComponents : nat) :
  wfHeader h ->
  supported h numComponents ->
  supported (deriveOutHeader h) numComponents.
Proof.
  intros Hwf [Hok Hformat]. split; [|exact Hformat].
  unfold wfHeader in Hwf. cbv zeta in Hwf.
  destruct Hwf as (_ & _ & _ & _ & _ & _ & _ & _ & HW & HH & _).
  rewrite inspect_validate. unfold validate.
  rewrite find_no_violation; [reflexivity|].
  assert (Hall : forall i : Invariant, holds i (deriveOutHeader h) = true).
  { intros i. pose proof (inspect_ok_holds h i Hok) as Hi.
    destruct i; cbn [holds] in Hi; try exact Hi.
    - cbn [holds deriveOutHeader Header.specification Specification.width].
      apply Z.ltb_lt in Hi. apply Z.ltb_lt.
      rewrite shiftr1_ceil.
      pose proof (ceilHalf_spec
                    (Specification.width (Header.specification h))).
      rewrite toWord_small by lia. lia.
    - cbn [holds deriveOutHeader Header.specification Specification.height].
      apply Z.ltb_lt in Hi. apply Z.ltb_lt.
      rewrite shiftr1_ceil.
      pose proof (ceilHalf_spec
                    (Specification.height (Header.specification h))).
      rewrite toWord_small by lia. lia. }
  unfold invariantOrder. cbn [forallb]. rewrite !Hall. reflexivity.
Qed.

Lemma output_header_supported_witness :
  supported
    (deriveOutHeader
       (Header.mk 0 0 2 (ColorMapSpecification.mk 0 0 0)
          (Specification.mk 7 9 1 5 24 (Descriptor.mk 0 0 1 0))))
    3.
Proof.
  apply (output_header_supported
           (Header.mk 0 0 2 (ColorMapSpecification.mk 0 0 0)
              (Specification.mk 7 9 1 5 24 (Descriptor.mk 0 0 1 0))) 3).
  - unfold wfHeader. simpl. lia.
  - split; reflexivity.
Defined.

(** Byte for byte, the output header is the input header with the four
    words at offsets 8 to 15 replaced: the bytes 0 to 7 (ID length,
    color-map type, image type, color-map specification) and 16 to 17
    (depth, descriptor) are the input's. *)
Theorem header_bytes_passthrough (bytes : list byte) :
  length bytes = Header.sizeof ->
  encodeHeader (deriveOutHeader (decodeHeader bytes))
  = take 8 bytes
    ++ encodeWord (floorHalf (wordAt bytes 8))
    ++ encodeWord (floorHalf (wordAt bytes 10))
    ++ encodeWord (ceilHalf (wordAt bytes 12))
    ++ encodeWord (ceilHalf (wordAt bytes 14))
    ++ drop 16 bytes.
Proof.
  intros Hlen.
  pose proof (wordAt_range bytes 8) as H8.
  pose proof (wordAt_range bytes 10) as H10.
  pose proof (wordAt_range bytes 12) as H12.
  pose proof (wordAt_range bytes 14) as H14.
  pose proof (floorHalf_spec (wordAt bytes 8)).
  pose proof (floorHalf_spec (wordAt bytes 10)).
  pose proof (ceilHalf_spec (wordAt bytes 12)).
  pose proof (ceilHalf_spec (wordAt bytes 14)).
  unfold encodeHeader, deriveOutHeader, decodeHeader.
  cbn [Header.idLength Header.colorMapType Header.type
       Header.colorMapSpecification Header.specification
       ColorMapSpecification.offset ColorMapSpecification.size
       ColorMapSpecification.bpp Specification.xOrigin Specification.yOrigin
       Specification.width Specification.height Specification.bpp
       Specification.descriptor].
  rewrite !shiftr1_ceil, !shiftr1_floor.
  rewrite !toWord_small by lia.
  generalize (floorHalf (wordAt bytes 8)) (floorHalf (wordAt bytes 10))
             (ceilHalf (wordAt bytes 12)) (ceilHalf (wordAt bytes 14)).
  intros x y w h. clear -Hlen.
  do 18 (destruct bytes as [|? bytes]; [discriminate Hlen|]).
  destruct bytes; [|discriminate Hlen].
  unfold wordAt, byteAt. cbn [nth Nat.add take drop app].
  rewrite !encodeWord_wordAt, !ofZ_toZ, encode_decode_descriptor.
  reflexivity.
Qed.

Lemma header_bytes_passthrough_witness :
  encodeHeader (deriveOutHeader (decodeHeader (take 18 tga_2x2)))
  = take 8 (take 18 tga_2x2)
    ++ encodeWord (floorHalf (wordAt (take 18 tga_2x2) 8))
    ++ encodeWord (floorHalf (wordAt (take 18 tga_2x2) 10))
    ++ encodeWord (ceilHalf (wordAt (take 18 tga_2x2) 12))
    ++ encodeWord (ceilHalf (wordAt (take 18 tga_2x2) 14))
    ++ drop 16 (take 18 tga_2x2).
Proof.
  apply (header_bytes_passthrough (take 18 tga_2x2)). reflexivity.
Defined.

(* --------------------------------------------------------------------- *)
(** ** The size of the output *)

Lemma length_rowBytes_uniform (numComponents columns : nat)
    (rows : list Row) :
  Forall (fun row : Row =>
            wfRow numComponents row /\ length row = columns) rows ->
  length (rowBytes rows) = (length rows * (columns * numComponents))%nat.
Proof.
  intros Hrows. induction Hrows as [|row rows [Hwf Hlen] _ IH];
    [reflexivity|].
  rewrite rowBytes_cons, length_app, IH.
  rewrite (length_concat_wf numComponents) by assumption.
  rewrite Hlen. simpl. lia.
Qed.

Lemma outputRows_uniform (numComponents : nat) (W H : Z) (bytes : list byte) :
  (0 < numComponents)%nat ->
  0 < W < 65536 ->
  Forall (fun row : Row =>
            wfRow numComponents row /\ length row = outColumns W)
    (outputRows numComponents W H bytes).
Proof.
  intros HN HW. unfold outputRows. apply Forall_app_2.
  - unfold pairedRows. apply Forall_fmap. apply Forall_forall.
    intros j _. cbv [compose]. split; [apply boxRow_wf|].
    apply length_boxRow_inputRow; assumption.
  - unfold oddRow. destruct (Z.odd H); [|constructor].
    constructor; [|constructor]. split; [apply boxRow_wf|].
    apply length_boxRow_inputRow; assumption.
Qed.

(** The output of a supported file on a fresh stream: the derived header,
    the ID field, the reduced rows, the trailer and one byte ff.  It is the
    input shortened by what the pixel data shrinks, and one byte longer:
    the header, the ID field and the trailer keep their sizes, H rows of W
    pixels become ceil(H/2) rows of ceil(W/2) pixels, and the trailer loop
    adds a byte. *)
Theorem supported_file_output (bytes : list byte) (outFile : OutFile)
    (numComponents : nat) :
  let h := decodeHeader (take Header.sizeof bytes) in
  let idLength := Z.to_nat (Header.idLength h) in
  let W := Specification.width (Header.specification h) in
  let H := Specification.height (Header.specification h) in
  let data := drop (Header.sizeof + idLength) bytes in
  inspect h = Ok tt ->
  requiredFormat (Specification.bpp (Header.specification h))
  = Some (numComponents, Header.type h) ->
  (Header.sizeof + idLength + pixelDataSize numComponents h
   <= length bytes)%nat ->
  (length bytes < room outFile)%nat ->
  exists outFile' : OutFile,
    convert (mkInFile bytes false) outFile = Ok (mkInFile [] true, outFile')
    /\ written outFile'
       = written outFile
         ++ encodeHeader (deriveOutHeader h)
         ++ take idLength (drop Header.sizeof bytes)
         ++ rowBytes (outputRows numComponents W H data)
         ++ drop (pixelDataSize numComponents h) data
         ++ [xff]
    /\ (length (written outFile') + pixelDataSize numComponents h
        = length (written outFile) + length bytes
          + outputDataSize numComponents h + 1)%nat
    /\ outputDataSize numComponents h
       = (Z.to_nat (ceilHalf H) * (Z.to_nat (ceilHalf W) * numComponents))%nat.
Proof.
  intros h idLength W H data Hok Hformat Hlen Hroom.
  destruct (convert_supported_file bytes outFile numComponents
              Hok Hformat Hlen Hroom) as (o' & Hrun & Hwritten).
  exists o'. split; [exact Hrun|]. split; [exact Hwritten|].
  clear Hrun. subst W H data idLength h.
  set (h := decodeHeader (take Header.sizeof bytes)) in *.
  set (idLength := Z.to_nat (Header.idLength h)) in *.
  pose proof (requiredFormat_components _ _ _ Hformat) as HN.
  destruct (inspect_ok_dimensions (take Header.sizeof bytes) Hok) as [HW HH].
  fold h in HW, HH.
  split.
  - rewrite Hwritten. rewrite !length_app.
    rewrite (length_rowBytes_uniform numComponents
               (outColumns (Specification.width (Header.specification h))))
      by (apply outputRows_uniform; assumption).
    rewrite length_outputRows by lia.
    rewrite length_take_le
      by (rewrite length_drop; unfold Header.sizeof in *; lia).
    rewrite !length_drop. change (length (encodeHeader _)) with 18%nat.
    unfold outputDataSize, pixelDataSize, outSize, Header.sizeof in *.
    simpl length. lia.
  - unfold outputDataSize, outSize, outColumns.
    rewrite outColumnsRup_spec.
    replace ((Specification.width (Header.specification h) + 1) / 2)
      with (ceilHalf (Specification.width (Header.specification h)))
      by (unfold ceilHalf; Z.div_mod_to_equations; lia).
    reflexivity.
Qed.

Lemma supported_file_output_witness :
  exists outFile' : OutFile,
    convert (mkInFile tga_2x2_trailer false) (mkOutFile [] 100)
    = Ok (mkInFile [] true, outFile')
    /\ written outFile'
       = written (mkOutFile [] 100)
         ++ encodeHeader
              (deriveOutHeader
                 (decodeHeader (take Header.sizeof tga_2x2_trailer)))
         ++ take 0 (drop Header.sizeof tga_2x2_trailer)
         ++ rowBytes (outputRows 1 2 2 (drop (Header.sizeof + 0)
                                          tga_2x2_trailer))
         ++ drop (pixelDataSize 1
                    (decodeHeader (take Header.sizeof tga_2x2_trailer)))
              (drop (Header.sizeof + 0) tga_2x2_trailer)
         ++ [xff]
    /\ (length (written outFile')
        + pixelDataSize 1 (decodeHeader (take Header.sizeof tga_2x2_trailer))
        = length (written (mkOutFile [] 100)) + length tga_2x2_trailer
          + outputDataSize 1
              (decodeHeader (take Header.sizeof tga_2x2_trailer)) + 1)%nat
    /\ outputDataSize 1 (decodeHeader (take Header.sizeof tga_2x2_trailer))
       = (Z.to_nat (ceilHalf 2) * (Z.to_nat (ceilHalf 2) * 1))%nat.
Proof.
  apply (supported_file_output tga_2x2_trailer (mkOutFile [] 100) 1).
  - reflexivity.
  - reflexivity.
  - vm_compute. lia.
  - vm_compute. lia.
Defined.

(* --------------------------------------------------------------------- *)
(** ** The program *)

(** Whatever the arguments and the files, the program ends with one of the
    exit statuses 0, 3, 4, 5, 6, 7: it never stops on a failed assertion
    and never uses the two reserved statuses.  It ends with status 3 when
    it is not given exactly two arguments. *)
Theorem main_exit_status (env : Environment) (args : list String.string) :
  (exists status : Z,
     processExit (main env args) = Some status
     /\ In status [0; 3; 4; 5; 6; 7])
  /\ (length args <> 3%nat -> main env args = Exit badArgs)
  /\ (main env args = Ok 0 \/ exists e : ExitStatus, main env args = Exit e).
Proof.
  assert (Hcases :
            main env args = Ok 0
            \/ exitsWith (main env args)
                 [badArgs; badInputFile; badOutputFile; badInputFormat;
                  unsupportedInputFormat]).
  { unfold main.
    destruct (Nat.eqb_spec (length args) 3) as [Hlen|Hlen]; cbn [negb];
      [|right; eexists; split; [reflexivity | simpl; tauto]].
    destruct args as [|program [|inFilename [|outFilename [|? ?]]]];
      try discriminate Hlen.
    cbn [at_index lookup list_lookup rbind]. unfold convertNamed.
    destruct (fopen_rb env inFilename) as [inFile|];
      [|right; eexists; split; [reflexivity | simpl; tauto]].
    destruct (fopen_wb env outFilename) as [outFile|];
      [|right; eexists; split; [reflexivity | simpl; tauto]].
    destruct (convert_cases inFile outFile)
      as [(n & _ & _ & _ & f' & o' & -> & _)|(e & -> & He)].
    - left. reflexivity.
    - right. exists e. split; [reflexivity|]. simpl in *. tauto. }
  split; [|split].
  - destruct Hcases as [->|(e & -> & He)].
    + exists 0. simpl. tauto.
    + exists (exitCode e). split; [reflexivity|].
      simpl in He.
      destruct He as [<-|[<-|[<-|[<-|[<-|[]]]]]]; simpl; tauto.
  - intros Hlen. unfold main.
    destruct (Nat.eqb_spec (length args) 3); [contradiction|]. reflexivity.
  - destruct Hcases as [->|(e & -> & _)]; eauto.
Qed.

(** With two arguments, an input file that cannot be opened ends the
    program with status 4 whether or not the output could be opened, and
    an output file that cannot be opened with status 5 before anything is
    read; with both open the program ends as the conversion does, with
    status 0 when it returns. *)
Theorem main_open_failures (env : Environment)
    (program inFilename outFilename : String.string) :
  let run := main env [program; inFilename; outFilename] in
  (fopen_rb env inFilename = None ->
   run = Exit badInputFile /\ processExit run = Some 4)
  /\ (forall inFile : InFile,
        fopen_rb env inFilename = Some inFile ->
        fopen_wb env outFilename = None ->
        run = Exit badOutputFile /\ processExit run = Some 5)
  /\ (forall (inFile : InFile) (outFile : OutFile),
        fopen_rb env inFilename = Some inFile ->
        fopen_wb env outFilename = Some outFile ->
        (forall e : ExitStatus,
           convert inFile outFile = Exit e -> run = Exit e)
        /\ (forall (inFile' : InFile) (outFile' : OutFile),
              convert inFile outFile = Ok (inFile', outFile') ->
              run = Ok 0)).
Proof.
  intros run. unfold run, main, convertNamed.
  cbn [length Nat.eqb negb at_index lookup list_lookup rbind].
  split; [|split].
  - intros ->. split; reflexivity.
  - intros inFile -> ->. split; reflexivity.
  - intros inFile outFile -> ->. split.
    + intros e ->. reflexivity.
    + intros f' o' ->. reflexivity.
Qed.

(** After [inspect] the [default] branch of the [switch] is never taken:
    a header that passes has a depth of 8, 16, 24 or 32 bits, so the
    [switch] converts the rows with 1 to 4 components when the image type
    is the one the depth requires, and exits on the image type
    otherwise. *)
Theorem switch_default_unreachable (inFile : InFile) (outFile : OutFile)
    (inHeader outHeader : Header.t) :
  inspect inHeader = Ok tt ->
  exists (numComponents : nat) (requiredType : Z),
    requiredFormat (Specification.bpp (Header.specification inHeader))
    = Some (numComponents, requiredType)
    /\ (1 <= numComponents <= 4)%nat
    /\ Z.of_nat numComponents * 8
       = Specification.bpp (Header.specification inHeader)
    /\ copyPixels inFile outFile inHeader outHeader
       = if Header.type inHeader =? requiredType
         then convertPixels numComponents inFile outFile
                (Header.specification inHeader)
                (Header.specification outHeader)
         else Exit unsupportedInputFormat.
Proof.
  intros Hok.
  destruct (inspect_ok_format inHeader Hok) as (n & t & Hformat).
  exists n, t. split; [exact Hformat|].
  rewrite copyPixels_by_table, Hformat.
  unfold requiredFormat in Hformat.
  destruct (Z.eqb_spec (Specification.bpp (Header.specification inHeader)) 8);
    [inversion Hformat; subst; repeat split; lia|].
  destruct (Z.eqb_spec (Specification.bpp (Header.specification inHeader)) 16);
    [inversion Hformat; subst; repeat split; lia|].
  destruct (Z.eqb_spec (Specification.bpp (Header.specification inHeader)) 24);
    [inversion Hformat; subst; repeat split; lia|].
  destruct (Z.eqb_spec (Specification.bpp (Header.specification inHeader)) 32);
    [inversion Hformat; subst; repeat split; lia|].
  discriminate.
Qed.

Lemma switch_default_unreachable_witness :
  exists (numComponents : nat) (requiredType : Z),
    requiredFormat
      (Specification.bpp (Header.specification (decodeHeader tga_2x2)))
    = Some (numComponents, requiredType)
    /\ (1 <= numComponents <= 4)%nat
    /\ Z.of_nat numComponents * 8
       = Specification.bpp (Header.specification (decodeHeader tga_2x2))
    /\ copyPixels (mkInFile [] false) (mkOutFile [] 0)
         (decodeHeader tga_2x2) (decodeHeader tga_2x2)
       = if Header.type (decodeHeader tga_2x2) =? requiredType
         then convertPixels numComponents (mkInFile [] false)
                (mkOutFile [] 0)
                (Header.specification (decodeHeader tga_2x2))
                (Header.specification (decodeHeader tga_2x2))
         else Exit unsupportedInputFormat.
Proof.
  apply (switch_default_unreachable (mkInFile [] false) (mkOutFile [] 0)
           (decodeHeader tga_2x2) (decodeHeader tga_2x2)).
  reflexivity.
Defined.
